(** * The Future Modern: feed aggregator build script ([build.py])

    A shallow embedding of the parts of [build.py] that normalise, merge,
    sort and label feed entries, with the properties of its specification
    stated and settled against the embedded code.

    Python values are modelled as follows.
    - [str] is a list of Unicode code points ([Z]); ASCII literals of the
      script are written [lit "..."].
    - [int] is [Z].
    - An exception is a value of [exn] carried by [result]; code that cannot
      raise is a plain function. An exception nobody catches leaves every
      enclosing call, up to [main].
    - [datetime] and [timedelta] are records with the fields of the Python
      objects; only the operations the script uses are modelled.
    - An [xml.etree.ElementTree.Element] is the tree [Element].
    - The item dictionaries built by the parsers are the record [Entry]. *)

From Stdlib Require Import ZArith List String Ascii Bool Lia Permutation Sorted.
From Stdlib Require Import DecimalString.
Import ListNotations.
Local Open Scope Z_scope.

(** ** Exceptions *)

(** The exceptions the script meets: those its [except] clauses name, those
    the library calls it makes can raise past them, and [OtherError] for any
    other class. *)
Inductive exn : Type :=
| TypeError
| ValueError
| OverflowError
| URLError
| HTTPError
| OtherError.

Inductive result (A : Type) : Type :=
| Ok (a : A)
| Raise (e : exn).
Arguments Ok {A} a.
Arguments Raise {A} e.

Definition bind {A B : Type} (r : result A) (k : A -> result B) : result B :=
  match r with
  | Ok a => k a
  | Raise e => Raise e
  end.

Notation "x <- r ;; k" := (bind r (fun x => k))
  (at level 61, r at next level, right associativity).

(** ** Python strings *)

Module Text.

Definition str : Type := list Z.

Definition ord (c : ascii) : Z := Z.of_N (N_of_ascii c).

Definition lit (s : string) : str := List.map ord (list_ascii_of_string s).

Definition str_eqb (a b : str) : bool :=
  if list_eq_dec Z.eq_dec a b then true else false.

(** Truth value of a string: [if s:] / [not s]. *)
Definition truthy (s : str) : bool :=
  match s with [] => false | _ :: _ => true end.

Definition len (s : str) : Z := Z.of_nat (List.length s).

(** [str(n)] / [f"{n}"] for an [int]. *)
Definition str_of_int (n : Z) : str := lit (NilZero.string_of_int (Z.to_int n)).

(** [s.zfill(w)] for a string of digits. *)
Definition zfill (w : nat) (s : str) : str :=
  List.repeat (ord "0") (w - List.length s) ++ s.

(** [str.isspace] on one character: the code points Python's [strip()]
    removes. *)
Definition is_space (c : Z) : bool :=
  ((9 <=? c) && (c <=? 13)) || ((28 <=? c) && (c <=? 32))
  || (c =? 133) || (c =? 160) || (c =? 5760)
  || ((8192 <=? c) && (c <=? 8202))
  || (c =? 8232) || (c =? 8233) || (c =? 8239) || (c =? 8287) || (c =? 12288).

Fixpoint lstrip (s : str) : str :=
  match s with
  | c :: t => if is_space c then lstrip t else s
  | [] => []
  end.

Definition rstrip (s : str) : str := rev (lstrip (rev s)).

Definition strip (s : str) : str := rstrip (lstrip s).

(** [s.startswith(p)]. *)
Fixpoint startswith (p s : str) : bool :=
  match p, s with
  | [], _ => true
  | a :: p', b :: s' => (a =? b) && startswith p' s'
  | _ :: _, [] => false
  end.

(** Lowest index [i >= 0] at which [sub] occurs in [s], counted from [base];
    [-1] when there is none. *)
Fixpoint find_at (sub s : str) (base : Z) : Z :=
  if startswith sub s then base
  else match s with
       | [] => -1
       | _ :: t => find_at sub t (base + 1)
       end.

(** [s.find(sub, start)] for [0 <= start]. *)
Definition find (sub s : str) (start : Z) : Z :=
  if len s <? start then -1
  else find_at sub (skipn (Z.to_nat start) s) start.

(** [sub in s]. *)
Definition contains (sub s : str) : bool := negb (find sub s 0 =? -1).

(** Slice bound normalisation of [s[i:j]]: a negative bound counts from the
    end, and both are clamped to the string. *)
Definition clamp (i n : Z) : Z :=
  if i <? 0 then Z.max 0 (i + n) else Z.min i n.

(** [s[i:j]]. *)
Definition slice (s : str) (i j : Z) : str :=
  let a := clamp i (len s) in
  let b := clamp j (len s) in
  firstn (Z.to_nat (b - a)) (skipn (Z.to_nat a) s).

(** [s[:n]] for [0 <= n]. *)
Definition prefix (n : nat) (s : str) : str := firstn n s.

(** [s.replace(old, new)] for a non-empty [old]: occurrences are replaced
    left to right, without overlap. *)
Fixpoint replace_fuel (fuel : nat) (old new s : str) : str :=
  match fuel with
  | O => s
  | S fuel' =>
      match s with
      | [] => []
      | c :: t =>
          if startswith old s
          then new ++ replace_fuel fuel' old new (skipn (List.length old) s)
          else c :: replace_fuel fuel' old new t
      end
  end.

Definition replace (old new s : str) : str :=
  replace_fuel (List.length s) old new s.

End Text.
Import Text.

(** ** [datetime] and [timedelta] *)

Module Datetime.

(** A [datetime]: calendar fields, and [tzinfo] as the UTC offset in
    microseconds of an aware value ([None]: a naive value). *)
Record datetime : Type := mk_datetime {
  year : Z; month : Z; day : Z;
  hour : Z; minute : Z; second : Z; microsecond : Z;
  tzinfo : option Z
}.

(** A [timedelta] in normal form: [0 <= seconds < 86400] and
    [0 <= microseconds < 1000000]. *)
Record timedelta : Type := mk_timedelta {
  days : Z; seconds : Z; microseconds : Z
}.

Definition us_per_second : Z := 1000000.
Definition us_per_day : Z := 86400 * us_per_second.

(** [timedelta(days=d, seconds=s, microseconds=us)], normalised. *)
Definition timedelta_of (d s us : Z) : timedelta :=
  let total := (d * 86400 + s) * us_per_second + us in
  mk_timedelta (total / us_per_day)
               ((total mod us_per_day) / us_per_second)
               (total mod us_per_second).

Definition is_leap (y : Z) : bool :=
  ((y mod 4 =? 0) && negb (y mod 100 =? 0)) || (y mod 400 =? 0).

Definition days_before_year (y : Z) : Z :=
  let p := y - 1 in p * 365 + p / 4 - p / 100 + p / 400.

Definition days_before_month (y m : Z) : Z :=
  nth (Z.to_nat (m - 1)) [0; 31; 59; 90; 120; 151; 181; 212; 243; 273; 304; 334] 0
  + (if (2 <? m) && is_leap y then 1 else 0).

(** [d.toordinal()]: 1 for 1 January of year 1. *)
Definition toordinal (d : datetime) : Z :=
  days_before_year (year d) + days_before_month (year d) (month d) + day d.

Definition seconds_of_day (d : datetime) : Z :=
  second d + minute d * 60 + hour d * 3600.

(** Microseconds on the value's own clock since the day before
    0001-01-01T00:00. *)
Definition wall (d : datetime) : Z :=
  (toordinal d * 86400 + seconds_of_day d) * us_per_second + microsecond d.

(** [a - b] on two datetimes. Two naive values, or two aware values, give
    their distance (offsets taken into account); one of each raises. *)
Definition sub (a b : datetime) : result timedelta :=
  let base_d := toordinal a - toordinal b in
  let base_s := seconds_of_day a - seconds_of_day b in
  let base_us := microsecond a - microsecond b in
  match tzinfo a, tzinfo b with
  | None, None => Ok (timedelta_of base_d base_s base_us)
  | Some myoff, Some otoff =>
      Ok (timedelta_of base_d base_s (base_us + otoff - myoff))
  | _, _ => Raise TypeError
  end.

(** [a < b]: the order of instants for two aware values, of clock readings
    for two naive ones; one of each raises [TypeError]. (CPython compares
    the calendar fields when the offsets agree and takes the sign of [a - b]
    otherwise; on valid dates both are the sign of [a - b].) *)
Definition lt (a b : datetime) : result bool :=
  d <- sub a b ;; Ok (days d <? 0).

(** [datetime.min.replace(tzinfo=timezone.utc)]. *)
Definition min_utc : datetime := mk_datetime 1 1 1 0 0 0 0 (Some 0).

Definition month_abbr (m : Z) : str :=
  nth (Z.to_nat (m - 1))
      (List.map lit ["Jan"; "Feb"; "Mar"; "Apr"; "May"; "Jun";
                     "Jul"; "Aug"; "Sep"; "Oct"; "Nov"; "Dec"]%string) [].

(** [d.strftime("%b %d, %Y")] in the C locale: abbreviated month name, the
    day on two digits, the year in decimal (four digits from year 1000 on). *)
Definition strftime_b_d_Y (d : datetime) : str :=
  month_abbr (month d) ++ lit " " ++ zfill 2 (str_of_int (day d))
  ++ lit ", " ++ str_of_int (year d).

End Datetime.
Import Datetime.

(** ** [format_date] *)

(** [datetime.now(timezone.utc)]: the calendar fields the clock shows,
    tagged with the UTC offset. *)
Definition now_utc (clock : datetime) : datetime :=
  mk_datetime (year clock) (month clock) (day clock)
              (hour clock) (minute clock) (second clock) (microsecond clock)
              (Some 0).

(** [format_date(dt)]; [clock] is what the system clock shows when the
    function reads it. *)
Definition format_date (clock : datetime) (dt : option datetime) : result str :=
  match dt with
  | None => Ok (lit "")
  | Some dt =>
      let now := now_utc clock in
      diff <- sub now dt ;;
      if days diff =? 0 then
        let hours := seconds diff / 3600 in
        if hours =? 0 then
          let mins := seconds diff / 60 in
          Ok (if 0 <? mins then str_of_int mins ++ lit "m ago" else lit "just now")
        else Ok (str_of_int hours ++ lit "h ago")
      else if days diff =? 1 then Ok (lit "yesterday")
      else if days diff <? 7 then Ok (str_of_int (days diff) ++ lit "d ago")
      else Ok (strftime_b_d_Y dt)
  end.

(** ** [html.unescape] *)

Module Html.

Definition amp : Z := 38.
Definition semicolon : Z := 59.
Definition hash : Z := 35.

Definition is_digit (c : Z) : bool := (48 <=? c) && (c <=? 57).

Definition is_hexdigit (c : Z) : bool :=
  is_digit c || ((97 <=? c) && (c <=? 102)) || ((65 <=? c) && (c <=? 70)).

(** The class [[^\t\n\f <&#;]] of the named-reference pattern. *)
Definition is_name_char (c : Z) : bool :=
  negb ((c =? 9) || (c =? 10) || (c =? 12) || (c =? 32)
        || (c =? 60) || (c =? amp) || (c =? hash) || (c =? semicolon)).

(** The longest prefix of at most [n] characters satisfying [p], and the
    rest. *)
Fixpoint span_upto (n : nat) (p : Z -> bool) (s : str) : str * str :=
  match n, s with
  | S n', c :: t =>
      if p c then let (a, r) := span_upto n' p t in (c :: a, r) else ([], s)
  | _, _ => ([], s)
  end.

Definition span (p : Z -> bool) (s : str) : str * str :=
  span_upto (List.length s) p s.

(** The optional [;] that ends a reference. *)
Definition opt_semicolon (body rest : str) : str * str :=
  match rest with
  | c :: r => if c =? semicolon then (body ++ [semicolon], r) else (body, rest)
  | [] => (body, rest)
  end.

(** A match of
    [#[0-9]+;?|#[xX][0-9a-fA-F]+;?|[^\t\n\f <&#;]{1,32};?]
    at the start of [t] (the text after an [&]): the matched group and what
    follows it. *)
Definition match_charref (t : str) : option (str * str) :=
  match t with
  | [] => None
  | c :: u =>
      if c =? hash then
        match span is_digit u with
        | ((_ :: _) as ds, r) => Some (opt_semicolon (hash :: ds) r)
        | ([], _) =>
            match u with
            | x :: v =>
                if (x =? 120) || (x =? 88) then
                  match span is_hexdigit v with
                  | ((_ :: _) as hs, r) => Some (opt_semicolon (hash :: x :: hs) r)
                  | ([], _) => None
                  end
                else None
            | [] => None
            end
        end
      else
        match span_upto 32 is_name_char t with
        | ((_ :: _) as ns, r) => Some (opt_semicolon ns r)
        | ([], _) => None
        end
  end.

Definition digit_value (c : Z) : Z :=
  if is_digit c then c - 48
  else if (97 <=? c) && (c <=? 102) then c - 87
  else c - 55.

(** [int(s, base)] on a string of digits. *)
Definition int_of (base : Z) (s : str) : Z :=
  fold_left (fun acc c => acc * base + digit_value c) s 0.

(** [sys.get_int_max_str_digits()]: the longest string of decimal digits
    [int] converts. *)
Definition int_max_str_digits : Z := 4300.

(** [int(s)] on a string of decimal digits: [ValueError] when [s] has more
    digits than the limit, leading zeros counted. *)
Definition int_decimal (s : str) : result Z :=
  if int_max_str_digits <? len s then Raise ValueError
  else Ok (int_of 10 s).

(** [s.rstrip(';')]. *)
Fixpoint lstrip_semicolon (s : str) : str :=
  match s with
  | c :: t => if c =? semicolon then lstrip_semicolon t else s
  | [] => []
  end.

Definition rstrip_semicolon (s : str) : str := rev (lstrip_semicolon (rev s)).

(** [_invalid_charrefs]. *)
Definition invalid_charrefs : list (Z * Z) :=
  [ (0x00, 0xfffd); (0x0d, 0x0d); (0x80, 0x20ac); (0x81, 0x81);
    (0x82, 0x201a); (0x83, 0x0192); (0x84, 0x201e); (0x85, 0x2026);
    (0x86, 0x2020); (0x87, 0x2021); (0x88, 0x02c6); (0x89, 0x2030);
    (0x8a, 0x0160); (0x8b, 0x2039); (0x8c, 0x0152); (0x8d, 0x8d);
    (0x8e, 0x017d); (0x8f, 0x8f); (0x90, 0x90); (0x91, 0x2018);
    (0x92, 0x2019); (0x93, 0x201c); (0x94, 0x201d); (0x95, 0x2022);
    (0x96, 0x2013); (0x97, 0x2014); (0x98, 0x02dc); (0x99, 0x2122);
    (0x9a, 0x0161); (0x9b, 0x203a); (0x9c, 0x0153); (0x9d, 0x9d);
    (0x9e, 0x017e); (0x9f, 0x0178) ].

Fixpoint assoc (k : Z) (l : list (Z * Z)) : option Z :=
  match l with
  | [] => None
  | (k', v) :: t => if k =? k' then Some v else assoc k t
  end.

(** Membership in [_invalid_codepoints]. *)
Definition invalid_codepoint (n : Z) : bool :=
  ((0x1 <=? n) && (n <=? 0x8)) || ((0xe <=? n) && (n <=? 0x1f))
  || ((0x7f <=? n) && (n <=? 0x9f)) || ((0xfdd0 <=? n) && (n <=? 0xfdef))
  || (n =? 0xb)
  || ((0xfffe <=? n) && (n <=? 0x10ffff) && (0xfffe <=? n mod 0x10000)).

(** The replacement of the numeric reference to code point [num]. *)
Definition numeric_charref (num : Z) : str :=
  match assoc num invalid_charrefs with
  | Some c => [c]
  | None =>
      if ((0xD800 <=? num) && (num <=? 0xDFFF)) || (0x10FFFF <? num) then [0xFFFD]
      else if invalid_codepoint num then []
      else [num]
  end.

Section Unescape.

(** [html.entities.html5]: the replacement of a reference name (written
    without its [&]), if the name is in the table. *)
Variable html5 : str -> option str.

(** [for x in range(x, 1, -1): if s[:x] in _html5: ...]. *)
Fixpoint longest_name (x : nat) (s : str) : option str :=
  match x with
  | O => None
  | S x' =>
      if (x <=? 1)%nat then None
      else match html5 (firstn x s) with
           | Some r => Some (r ++ skipn x s)
           | None => longest_name x' s
           end
  end.

(** [_replace_charref], on the matched group. The conversion of a decimal
    reference raises [ValueError] past the digit limit of [int]; a
    hexadecimal one has no limit. *)
Definition replace_charref (s : str) : result str :=
  match s with
  | [] => Ok []
  | c :: r =>
      if c =? hash then
        match r with
        | x :: v =>
            if (x =? 120) || (x =? 88)
            then Ok (numeric_charref (int_of 16 (rstrip_semicolon v)))
            else (num <- int_decimal (rstrip_semicolon r) ;;
                  Ok (numeric_charref num))
        | [] => Ok []
        end
      else
        match html5 s with
        | Some r' => Ok r'
        | None =>
            match longest_name (List.length s - 1) s with
            | Some r' => Ok r'
            | None => Ok (amp :: s)
            end
        end
  end.

(** [_charref.sub(_replace_charref, s)]: every match, left to right; an
    exception of [_replace_charref] leaves [sub]. *)
Fixpoint charref_sub (fuel : nat) (s : str) : result str :=
  match fuel with
  | O => Ok s
  | S fuel' =>
      match s with
      | [] => Ok []
      | c :: t =>
          if c =? amp then
            match match_charref t with
            | Some (g, rest) =>
                r <- replace_charref g ;;
                out <- charref_sub fuel' rest ;;
                Ok (r ++ out)
            | None => out <- charref_sub fuel' t ;; Ok (c :: out)
            end
          else (out <- charref_sub fuel' t ;; Ok (c :: out))
      end
  end.

(** [html.unescape(s)]. *)
Definition unescape (s : str) : result str :=
  if negb (existsb (Z.eqb amp) s) then Ok s
  else charref_sub (List.length s) s.

End Unescape.

(** The XML entities as [html.entities.html5] lists them (an excerpt of the
    table's 2231 names). *)
Definition html5_xml (name : str) : option str :=
  if existsb (str_eqb name) (List.map lit ["amp;"; "amp"; "AMP;"; "AMP"]%string)
  then Some (lit "&")
  else if existsb (str_eqb name) (List.map lit ["lt;"; "lt"; "LT;"; "LT"]%string)
  then Some (lit "<")
  else if existsb (str_eqb name) (List.map lit ["gt;"; "gt"; "GT;"; "GT"]%string)
  then Some (lit ">")
  else if existsb (str_eqb name) (List.map lit ["quot;"; "quot"; "QUOT;"; "QUOT"]%string)
  then Some [34]
  else if str_eqb name (lit "apos;") then Some (lit "'")
  else None.

End Html.
Import Html.

(** ** [xml.etree.ElementTree] *)

Module ET.

(** An element: tag (a namespaced tag is written [{uri}local]), attributes,
    the text before its first child ([None] when there is none), and its
    children in document order. *)
#[local] Set Warnings "-register-all".
Inductive Element : Type :=
| Elem (tag : str) (attrib : list (str * str)) (text : option str)
       (children : list Element).

Definition tag (e : Element) : str := let (t, _, _, _) := e in t.
Definition attrib (e : Element) : list (str * str) := let (_, a, _, _) := e in a.
Definition text (e : Element) : option str := let (_, _, x, _) := e in x.
Definition children (e : Element) : list Element := let (_, _, _, c) := e in c.

(** [e.get(key, default)]. *)
Definition get (e : Element) (key default : str) : str :=
  match List.find (fun kv => str_eqb (fst kv) key) (attrib e) with
  | Some kv => snd kv
  | None => default
  end.

(** [e.findall(t)]: the children tagged [t]. *)
Definition findall (e : Element) (t : str) : list Element :=
  filter (fun c => str_eqb (tag c) t) (children e).

(** [e.find(t)]: the first child tagged [t]. *)
Definition find (e : Element) (t : str) : option Element :=
  List.find (fun c => str_eqb (tag c) t) (children e).

(** [e.find("t[@key='value']")]: the first child tagged [t] whose attribute
    [key] is [value]. *)
Definition find_attr (e : Element) (t key value : str) : option Element :=
  List.find (fun c => str_eqb (tag c) t
                      && match List.find (fun kv => str_eqb (fst kv) key) (attrib c) with
                         | Some kv => str_eqb (snd kv) value
                         | None => false
                         end)
            (children e).

(** [e.find("t1/t2")]: the first [t2] child of a [t1] child. *)
Definition find_path (e : Element) (t1 t2 : str) : option Element :=
  hd_error (flat_map (fun c => findall c t2) (findall e t1)).

(** [e.findtext(t, default)]: the text of the first child tagged [t], the
    empty string if that child has no text. *)
Definition findtext (e : Element) (t default : str) : str :=
  match find e t with
  | Some c => match text c with Some x => x | None => [] end
  | None => default
  end.

(** [e.findall(".//t")]: the descendants tagged [t], in document order. *)
Fixpoint descendants (e : Element) (t : str) : list Element :=
  let (_, _, _, cs) := e in
  flat_map (fun c => (if str_eqb (tag c) t then [c] else []) ++ descendants c t) cs.

End ET.

(** ** The parsers *)

Definition MAX_ITEMS : nat := 200.

(** The item dictionary the parsers build. *)
Record Entry : Type := mk_Entry {
  title : str;
  link : str;
  description : str;
  date : option datetime;
  source : str;
  category : str;
  author : str;
  image : str
}.

Definition dquote : Z := 34.

Definition dc_creator : str := lit "{http://purl.org/dc/elements/1.1/}creator".
Definition media_content : str := lit "{http://search.yahoo.com/mrss/}content".
Definition content_encoded : str :=
  lit "{http://purl.org/rss/1.0/modules/content/}encoded".
Definition atom (local : string) : str :=
  lit "{http://www.w3.org/2005/Atom}" ++ lit local.

Section Parsers.

(** The library functions the parsers call: [ET.fromstring] ([None]: it
    raised [ParseError]), [email.utils.parsedate_to_datetime] (it raises
    [ValueError] on a string that is no date, and lets the [OverflowError] of
    the [datetime] constructors through on fields that are too large),
    [datetime.fromisoformat] ([None]: it raised [ValueError] or
    [TypeError]), and the table of [html.unescape]. *)
Variable fromstring : str -> option ET.Element.
Variable parsedate_to_datetime : str -> result datetime.
Variable fromisoformat : str -> option datetime.
Variable html5 : str -> option str.

(** The loop of [strip_html]: [in_tag] is the loop's flag, the result the
    characters appended to [result]. *)
Fixpoint remove_tags (in_tag : bool) (text : str) : str :=
  match text with
  | [] => []
  | ch :: rest =>
      if ch =? 60 then remove_tags true rest
      else if ch =? 62 then remove_tags false rest
      else if negb in_tag then ch :: remove_tags in_tag rest
      else remove_tags in_tag rest
  end.

Definition strip_html (text : str) : result str :=
  decoded <- unescape html5 (remove_tags false text) ;;
  Ok (strip decoded).

(** The image of an RSS item: lines 72 to 92 of [parse_rss]. *)
Definition rss_image (item : ET.Element) : str :=
  let image := lit "" in
  let image :=
    match ET.find item media_content with
    | Some media => ET.get media (lit "url") (lit "")
    | None => image
    end in
  let image :=
    if negb (truthy image) then
      match ET.find item (lit "enclosure") with
      | Some enclosure =>
          if contains (lit "image") (ET.get enclosure (lit "type") (lit ""))
          then ET.get enclosure (lit "url") (lit "")
          else image
      | None => image
      end
    else image in
  if negb (truthy image) then
    let content := ET.findtext item content_encoded (lit "") in
    if truthy content then
      let img_start := Text.find (lit "<img") content 0 in
      if negb (img_start =? -1) then
        let src_start := Text.find (lit "src=" ++ [dquote]) content img_start in
        if negb (src_start =? -1) then
          let src_start := src_start + 5 in
          let src_end := Text.find [dquote] content src_start in
          if negb (src_end =? -1) then slice content src_start src_end
          else image
        else image
      else image
    else image
  else image.

(** The date of an RSS item: lines 94 to 99 of [parse_rss]. [pubDate] is
    parsed if it is not empty; [except (ValueError, TypeError)] catches those
    two and lets any other exception through. *)
Definition rss_date (item : ET.Element) : result (option datetime) :=
  let pub_date_str := strip (ET.findtext item (lit "pubDate") (lit "")) in
  if truthy pub_date_str then
    match parsedate_to_datetime pub_date_str with
    | Ok d => Ok (Some d)
    | Raise ValueError | Raise TypeError => Ok None
    | Raise e => Raise e
    end
  else Ok None.

(** One turn of the loop of [parse_rss]: the entry appended for [item], if
    any. The date is parsed before the test on title and link;
    [strip_html] is called only when the entry is built. *)
Definition rss_item (item : ET.Element) (source_name source_category : str)
  : result (option Entry) :=
  let title := strip (ET.findtext item (lit "title") (lit "")) in
  let link := strip (ET.findtext item (lit "link") (lit "")) in
  let desc := strip (ET.findtext item (lit "description") (lit "")) in
  let author := strip (ET.findtext item dc_creator (lit "")) in
  let author :=
    if negb (truthy author)
    then strip (ET.findtext item (lit "author") (lit ""))
    else author in
  let image := rss_image item in
  pub_date <- rss_date item ;;
  if truthy title && truthy link then
    stripped <- strip_html desc ;;
    Ok (Some (mk_Entry title link (prefix 300 stripped) pub_date
                       source_name source_category author image))
  else Ok None.

(** The entries appended over a list of nodes, in order; an exception in
    one turn ends the loop and leaves the parser. *)
Fixpoint collect {A : Type} (f : A -> result (option Entry)) (nodes : list A)
  : result (list Entry) :=
  match nodes with
  | [] => Ok []
  | n :: rest =>
      appended <- f n ;;
      items <- collect f rest ;;
      Ok (match appended with
          | Some e => e :: items
          | None => items
          end)
  end.

Definition parse_rss (xml_text source_name source_category : str)
  : result (list Entry) :=
  match fromstring xml_text with
  | None => Ok []
  | Some root =>
      collect (fun item => rss_item item source_name source_category)
              (ET.descendants root (lit "item"))
  end.

(** The date of an Atom entry: lines 139 to 151 of [parse_atom]. *)
Definition atom_date (entry : ET.Element) : option datetime :=
  let updated := strip (ET.findtext entry (atom "updated") (lit "")) in
  let published := strip (ET.findtext entry (atom "published") (lit "")) in
  let date_str := if truthy published then published else updated in
  if truthy date_str
  then fromisoformat (replace (lit "Z") (lit "+00:00") date_str)
  else None.

(** One turn of the loop of [parse_atom]. *)
Definition atom_entry (entry : ET.Element) (source_name source_category : str)
  : result (option Entry) :=
  let title := strip (ET.findtext entry (atom "title") (lit "")) in
  let link_el := ET.find_attr entry (atom "link") (lit "rel") (lit "alternate") in
  let link_el :=
    match link_el with
    | None => ET.find entry (atom "link")
    | Some _ => link_el
    end in
  let link :=
    match link_el with
    | Some el => ET.get el (lit "href") (lit "")
    | None => lit ""
    end in
  let summary := strip (ET.findtext entry (atom "summary") (lit "")) in
  let summary :=
    if negb (truthy summary) then
      match ET.find entry (atom "content") with
      | Some content_el =>
          match ET.text content_el with
          | Some t => if truthy t then strip t else summary
          | None => summary
          end
      | None => summary
      end
    else summary in
  let author :=
    match ET.find_path entry (atom "author") (atom "name") with
    | Some author_el =>
        match ET.text author_el with
        | Some t => if truthy t then strip t else lit ""
        | None => lit ""
        end
    | None => lit ""
    end in
  let pub_date := atom_date entry in
  if truthy title && truthy link then
    stripped <- strip_html summary ;;
    Ok (Some (mk_Entry title link (prefix 300 stripped) pub_date
                       source_name source_category author (lit "")))
  else Ok None.

Definition parse_atom (xml_text source_name source_category : str)
  : result (list Entry) :=
  match fromstring xml_text with
  | None => Ok []
  | Some root =>
      collect (fun entry => atom_entry entry source_name source_category)
              (ET.findall root (atom "entry"))
  end.

(** The test of [main] that picks the parser:
    ["<feed" in xml_text[:500]]. *)
Definition is_atom (xml_text : str) : bool :=
  contains (lit "<feed") (prefix 500 xml_text).

Definition parse_feed (xml_text name category : str) : result (list Entry) :=
  if is_atom xml_text
  then parse_atom xml_text name category
  else parse_rss xml_text name category.

End Parsers.

(** ** The aggregator and [main] *)

(** The sort key of [main]:
    [x["date"] or datetime.min.replace(tzinfo=timezone.utc)]. *)
Definition sort_key (x : Entry) : datetime :=
  match date x with
  | Some d => d
  | None => min_utc
  end.

(** [l.sort(key=sort_key, reverse=True)]: a stable sort into descending key
    order, written as an insertion sort. Keys are compared with [<], which
    raises on a naive and an aware datetime; the exception leaves [sort].
    [insert_desc x l] puts [x], which stood before the entries of [l], in
    front of the first entry whose key is not greater than its own. *)
Fixpoint insert_desc (x : Entry) (l : list Entry) : result (list Entry) :=
  match l with
  | [] => Ok [x]
  | y :: rest =>
      below <- lt (sort_key x) (sort_key y) ;;
      if below then (r <- insert_desc x rest ;; Ok (y :: r))
      else Ok (x :: l)
  end.

Fixpoint sort_reverse (l : list Entry) : result (list Entry) :=
  match l with
  | [] => Ok []
  | x :: rest => s <- sort_reverse rest ;; insert_desc x s
  end.

(** Lines 580 and 581 of [main]: sort, then keep the first [MAX_ITEMS]. *)
Definition aggregate (all_items : list Entry) : result (list Entry) :=
  all_items <- sort_reverse all_items ;;
  Ok (firstn MAX_ITEMS all_items).

(** What [generate_html] computes from the clock: the date label of every
    item, in order ([clock k] is what the clock shows while item [k] is
    rendered). The markup around the labels is not modelled. *)
Fixpoint date_labels (clock : nat -> datetime) (k : nat) (items : list Entry)
  : result (list str) :=
  match items with
  | [] => Ok []
  | item :: rest =>
      date_str <- format_date (clock k) (date item) ;;
      labels <- date_labels clock (S k) rest ;;
      Ok (date_str :: labels)
  end.

Definition generate_html (clock : nat -> datetime) (items : list Entry)
  : result (list str) :=
  date_labels clock 0 items.

(** An entry of [config["feeds"]]. *)
Record Feed : Type := mk_Feed {
  feed_name : str;
  feed_url : str;
  feed_category : str
}.

(** The UTF-8 byte order mark. *)
Definition bom : list Z := [0xef; 0xbb; 0xbf].

(** What [fetch_feed] makes of the bytes it read: lines 41 to 47. [decode]
    is [bytes.decode("utf-8", errors="replace")]. *)
Definition read_body (decode : list Z -> str) (raw : list Z) : str :=
  let raw := if str_eqb (firstn 3 raw) bom then skipn 3 raw else raw in
  let text := decode raw in
  let text := lstrip text in
  text.

Section Fetch.

(** [urllib.request]: [Request(url, headers=...)] builds a request and
    raises [ValueError] on a URL without a scheme; [urlopen_read req] is
    [urlopen(req, timeout=FETCH_TIMEOUT)] followed by [resp.read()], the
    bytes of the response or the exception the request ended in. *)
Variable request : Type.
Variable Request : str -> result request.
Variable urlopen_read : request -> result (list Z).
Variable decode : list Z -> str.

(** [fetch_feed(url)]: the decoded text, or [None] after [URLError] or
    [HTTPError]. The request is built before the [try]; the [except] clause
    names those two classes only. *)
Definition fetch_feed (url : str) : result (option str) :=
  req <- Request url ;;
  match urlopen_read req with
  | Ok raw => Ok (Some (read_body decode raw))
  | Raise URLError | Raise HTTPError => Ok None
  | Raise e => Raise e
  end.

End Fetch.
Arguments fetch_feed {request} Request urlopen_read decode url.

Section Main.

Variable request : Type.
Variable fromstring : str -> option ET.Element.
Variable parsedate_to_datetime : str -> result datetime.
Variable fromisoformat : str -> option datetime.
Variable html5 : str -> option str.
Variable Request : str -> result request.
Variable urlopen_read : request -> result (list Z).
Variable decode : list Z -> str.

(** The loop of [main] over the feeds: the list [all_items] it builds. An
    exception of [fetch_feed] or of a parser leaves the loop. *)
Fixpoint fetch_all (feeds : list Feed) : result (list Entry) :=
  match feeds with
  | [] => Ok []
  | feed :: rest =>
      xml_text <- fetch_feed Request urlopen_read decode (feed_url feed) ;;
      match xml_text with
      | None => fetch_all rest
      | Some xml_text =>
          items <- parse_feed fromstring parsedate_to_datetime fromisoformat
                              html5 xml_text (feed_name feed)
                              (feed_category feed) ;;
          more <- fetch_all rest ;;
          Ok (items ++ more)
      end
  end.

(** [main], from the loaded configuration to the rendered items. *)
Definition main (feeds : list Feed) (clock : nat -> datetime)
  : result (list str) :=
  all_items <- fetch_all feeds ;;
  all_items <- aggregate all_items ;;
  generate_html clock all_items.

End Main.
Arguments fetch_all {request}.
Arguments main {request}.

(** * Properties *)

(** ** Substring search *)

(** [sub] occurs in [s] at index [k]. *)
Definition occurs_at (sub s : str) (k : nat) : Prop :=
  exists pre post, s = pre ++ sub ++ post /\ List.length pre = k.

Lemma startswith_iff (p s : str) :
  startswith p s = true <-> exists r, s = p ++ r.
Proof.
  revert s. induction p as [|a p IH]; intros s; simpl.
  - split; [intros _; exists s; reflexivity | reflexivity].
  - destruct s as [|b s].
    + split; [discriminate | intros [r Hr]; discriminate].
    + rewrite andb_true_iff, Z.eqb_eq, IH. split.
      * intros [-> [r ->]]. exists r. reflexivity.
      * intros [r Hr]. injection Hr as -> ->. split; [reflexivity | exists r; reflexivity].
Qed.

Lemma occurs_at_0 (sub s : str) :
  occurs_at sub s 0 <-> startswith sub s = true.
Proof.
  rewrite startswith_iff. split.
  - intros (pre & post & -> & Hlen).
    destruct pre; [|discriminate]. exists post. reflexivity.
  - intros [r ->]. exists [], r. split; reflexivity.
Qed.

Lemma occurs_at_cons (sub : str) (c : Z) (s : str) (k : nat) :
  occurs_at sub (c :: s) (S k) <-> occurs_at sub s k.
Proof.
  split.
  - intros (pre & post & Heq & Hlen).
    destruct pre as [|c' pre]; [discriminate|].
    injection Heq as -> ->. injection Hlen as Hlen.
    exists pre, post. split; [reflexivity | exact Hlen].
  - intros (pre & post & -> & Hlen).
    exists (c :: pre), post. split; [reflexivity | simpl; congruence].
Qed.

Lemma occurs_at_nil (sub : str) (k : nat) : ~ occurs_at sub [] (S k).
Proof.
  intros (pre & post & Heq & Hlen). destruct pre; discriminate.
Qed.

Lemma occurs_at_bound (sub s : str) (k : nat) :
  occurs_at sub s k -> (k + List.length sub <= List.length s)%nat.
Proof.
  intros (pre & post & -> & <-). rewrite !length_app. lia.
Qed.

Lemma occurs_at_skipn (sub s : str) (start k : nat) :
  (start <= List.length s)%nat ->
  occurs_at sub (skipn start s) k <-> occurs_at sub s (start + k).
Proof.
  intros Hstart. split.
  - intros (pre & post & Heq & Hlen).
    exists (firstn start s ++ pre), post. split.
    + rewrite <- app_assoc, <- Heq, firstn_skipn. reflexivity.
    + rewrite length_app, firstn_length_le by exact Hstart. lia.
  - intros (pre & post & -> & Hlen).
    exists (skipn start pre), post. split.
    + rewrite skipn_app.
      replace (start - List.length pre)%nat with 0%nat by lia. reflexivity.
    + rewrite length_skipn. lia.
Qed.

(** [find_at] returns the first occurrence, shifted by [base]. *)
Lemma find_at_spec (sub s : str) (base : Z) :
  (find_at sub s base = -1 /\ forall j, ~ occurs_at sub s j)
  \/ (exists k, find_at sub s base = base + Z.of_nat k
                /\ occurs_at sub s k
                /\ forall j, (j < k)%nat -> ~ occurs_at sub s j).
Proof.
  revert base. induction s as [|c s IH]; intros base.
  - unfold find_at. destruct (startswith sub []) eqn:Hs.
    + right. exists 0%nat. split; [lia|]. split; [apply occurs_at_0; exact Hs | lia].
    + left. split; [reflexivity|]. intros [|j] Hj.
      * apply occurs_at_0 in Hj. congruence.
      * exact (occurs_at_nil _ _ Hj).
  - simpl find_at. destruct (startswith sub (c :: s)) eqn:Hs.
    + right. exists 0%nat. split; [lia|]. split; [apply occurs_at_0; exact Hs | lia].
    + destruct (IH (base + 1)) as [[Hnone Hno] | (k & Hk & Hocc & Hfirst)].
      * left. split; [exact Hnone|]. intros [|j] Hj.
        -- apply occurs_at_0 in Hj. congruence.
        -- apply occurs_at_cons in Hj. exact (Hno _ Hj).
      * right. exists (S k). split; [rewrite Hk; lia|]. split.
        -- apply occurs_at_cons. exact Hocc.
        -- intros [|j] Hlt Hj.
           ++ apply occurs_at_0 in Hj. congruence.
           ++ apply occurs_at_cons in Hj. apply (Hfirst j); [lia | exact Hj].
Qed.

(** [s.find(sub, start)] is the first index from [start] on at which [sub]
    occurs. *)
Lemma find_first (sub s : str) (start k : nat) :
  (start <= k)%nat ->
  occurs_at sub s k ->
  (forall j, (start <= j < k)%nat -> ~ occurs_at sub s j) ->
  Text.find sub s (Z.of_nat start) = Z.of_nat k.
Proof.
  intros Hle Hocc Hfirst.
  pose proof (occurs_at_bound _ _ _ Hocc) as Hbound.
  assert (Hstart : (start <= List.length s)%nat) by lia.
  unfold Text.find, len.
  destruct (Z.ltb_spec (Z.of_nat (List.length s)) (Z.of_nat start)); [lia|].
  rewrite Nat2Z.id.
  destruct (find_at_spec sub (skipn start s) (Z.of_nat start))
    as [[_ Hno] | (k' & Hk' & Hocc' & Hfirst')].
  - exfalso. apply (Hno (k - start)%nat).
    apply occurs_at_skipn; [exact Hstart|].
    replace (start + (k - start))%nat with k by lia. exact Hocc.
  - rewrite Hk'. apply occurs_at_skipn in Hocc'; [|exact Hstart].
    destruct (Nat.lt_trichotomy (start + k') k) as [Hlt | [Heq | Hgt]].
    + exfalso. apply (Hfirst (start + k')%nat); [lia | exact Hocc'].
    + lia.
    + exfalso. apply (Hfirst' (k - start)%nat); [lia|].
      apply occurs_at_skipn; [exact Hstart|].
      replace (start + (k - start))%nat with k by lia. exact Hocc.
Qed.

Lemma find_none (sub s : str) (start : nat) :
  (forall j, (start <= j)%nat -> ~ occurs_at sub s j) ->
  Text.find sub s (Z.of_nat start) = -1.
Proof.
  intros Hno. unfold Text.find, len.
  destruct (Z.ltb_spec (Z.of_nat (List.length s)) (Z.of_nat start)); [reflexivity|].
  rewrite Nat2Z.id.
  destruct (find_at_spec sub (skipn start s) (Z.of_nat start))
    as [[Hnone _] | (k' & _ & Hocc' & _)]; [exact Hnone|].
  exfalso. apply (Hno (start + k')%nat); [lia|].
  apply occurs_at_skipn; [lia | exact Hocc'].
Qed.

(** [sub in s] holds exactly when [sub] occurs somewhere in [s]. *)
Lemma contains_iff (sub s : str) :
  contains sub s = true <-> exists k, occurs_at sub s k.
Proof.
  unfold contains, Text.find, len. simpl skipn.
  destruct (Z.ltb_spec (Z.of_nat (List.length s)) 0); [lia|].
  destruct (find_at_spec sub s 0) as [[Hnone Hno] | (k & Hk & Hocc & _)].
  - rewrite Hnone. simpl. split; [discriminate|].
    intros [k Hk]. exfalso. exact (Hno k Hk).
  - rewrite Hk. split; [intros _; exists k; exact Hocc|].
    intros _. apply negb_true_iff, Z.eqb_neq. lia.
Qed.

(** ** Date labels *)

Definition noon_15_june : datetime := mk_datetime 2024 6 15 12 0 0 0 None.

Example label_just_now :
  format_date noon_15_june (Some (mk_datetime 2024 6 15 11 59 30 0 (Some 0)))
  = Ok (lit "just now").
Proof. vm_compute. reflexivity. Qed.

Example label_hours :
  format_date noon_15_june (Some (mk_datetime 2024 6 15 11 0 0 0 (Some 7200000000)))
  = Ok (lit "3h ago").
Proof. vm_compute. reflexivity. Qed.

Example label_days :
  format_date noon_15_june (Some (mk_datetime 2024 6 12 13 0 0 0 (Some 0)))
  = Ok (lit "2d ago").
Proof. vm_compute. reflexivity. Qed.

Example label_undated : format_date noon_15_june None = Ok (lit "").
Proof. reflexivity. Qed.

Example label_naive :
  format_date noon_15_june (Some (mk_datetime 2024 6 12 13 0 0 0 None))
  = Raise TypeError.
Proof. reflexivity. Qed.

Lemma str_of_int_negative (d : Z) :
  d < 0 -> exists digits, str_of_int d = 45 :: digits.
Proof.
  intros Hd. destruct d as [|p|p]; try lia.
  unfold str_of_int. simpl. eexists. reflexivity.
Qed.

Lemma strftime_first_char (dt : datetime) :
  hd 0 (strftime_b_d_Y dt) <> 45.
Proof.
  unfold strftime_b_d_Y, month_abbr.
  generalize (zfill 2 (str_of_int (day dt)) ++ lit ", " ++ str_of_int (year dt)).
  intros tail.
  destruct (Z.to_nat (month dt - 1)) as [|k]; [vm_compute; discriminate|].
  do 11 (destruct k as [|k]; [vm_compute; discriminate|]).
  replace (nth _ _ _) with (@nil Z) by (destruct k; reflexivity).
  vm_compute; discriminate.
Qed.

(** [timedelta(hours=h)] and the like, as the specification names spans. *)
Definition hours_span (h : Z) : timedelta := timedelta_of 0 (h * 3600) 0.
Definition minutes_span (m : Z) : timedelta := timedelta_of 0 (m * 60) 0.
Definition days_span (d : Z) : timedelta := timedelta_of d 0 0.

Definition entry_30h : datetime := mk_datetime 2024 6 14 6 0 0 0 (Some 0).
Definition entry_10min : datetime :=
  mk_datetime 2024 6 15 13 50 0 0 (Some 7200000000).
Definition entry_8d : datetime := mk_datetime 2024 6 7 12 0 0 0 (Some 0).

(** C6, as stated, fails: an entry dated exactly 30 hours before render time
    (here 14 June 06:00 UTC, rendered 15 June 12:00 UTC) is labelled
    "yesterday", not "1d ago". *)
Lemma format_date_30h_is_not_1d_ago :
  sub (now_utc noon_15_june) entry_30h = Ok (hours_span 30)
  /\ format_date noon_15_june (Some entry_30h) = Ok (lit "yesterday")
  /\ format_date noon_15_june (Some entry_30h) <> Ok (lit "1d ago").
Proof.
  split; [reflexivity|]. split; [reflexivity|].
  vm_compute. discriminate.
Qed.

(** C6, amended: an entry dated exactly 30 hours before render time renders
    as "yesterday"; one dated exactly 10 minutes before renders as
    "10m ago"; one dated exactly 8 days before renders as the absolute
    string "Mon DD, YYYY" of its own date: abbreviated month name, two-digit
    day, comma, year. *)
Theorem format_date_relative_labels (clock dt : datetime) :
  (sub (now_utc clock) dt = Ok (hours_span 30) ->
   format_date clock (Some dt) = Ok (lit "yesterday"))
  /\ (sub (now_utc clock) dt = Ok (minutes_span 10) ->
      format_date clock (Some dt) = Ok (lit "10m ago"))
  /\ (sub (now_utc clock) dt = Ok (days_span 8) ->
      format_date clock (Some dt)
      = Ok (month_abbr (month dt) ++ lit " " ++ zfill 2 (str_of_int (day dt))
            ++ lit ", " ++ str_of_int (year dt))).
Proof.
  repeat split; intros H; unfold format_date; rewrite H; reflexivity.
Qed.

Lemma format_date_relative_labels_witness :
  format_date noon_15_june (Some entry_30h) = Ok (lit "yesterday")
  /\ format_date noon_15_june (Some entry_10min) = Ok (lit "10m ago")
  /\ format_date noon_15_june (Some entry_8d) = Ok (lit "Jun 07, 2024").
Proof.
  split; [|split].
  - apply (proj1 (format_date_relative_labels noon_15_june entry_30h)).
    reflexivity.
  - apply (proj1 (proj2 (format_date_relative_labels noon_15_june entry_10min))).
    reflexivity.
  - apply (proj2 (proj2 (format_date_relative_labels noon_15_june entry_8d))).
    reflexivity.
Defined.

Definition entry_5s_ahead : datetime := mk_datetime 2024 6 15 12 0 5 0 (Some 0).

Example label_future :
  format_date noon_15_june (Some entry_5s_ahead) = Ok (lit "-1d ago").
Proof. vm_compute. reflexivity. Qed.

(** ** Dialect detection *)

Lemma contains_prefix_iff (sub s : str) (n : nat) :
  contains sub (prefix n s) = true
  <-> exists k, occurs_at sub s k /\ (k + List.length sub <= n)%nat.
Proof.
  unfold prefix. rewrite contains_iff. split.
  - intros (k & pre & post & Heq & Hlen). exists k. split.
    + exists pre, (post ++ skipn n s). split; [|exact Hlen].
      rewrite <- (firstn_skipn n s) at 1. rewrite Heq, <- !app_assoc. reflexivity.
    + pose proof (firstn_le_length n s) as Hn.
      rewrite Heq, !length_app in Hn. lia.
  - intros (k & (pre & post & -> & Hlen) & Hk). exists k.
    exists pre, (firstn (n - List.length pre - List.length sub) post).
    split; [|exact Hlen].
    rewrite firstn_app, (firstn_all2 pre) by lia.
    rewrite firstn_app, (firstn_all2 sub) by lia.
    reflexivity.
Qed.

(** The literal ["<feed"] appears within the first 500 characters of [s]:
    it occurs at an index [k] and ends no later than index 500. *)
Definition feed_within_500 (s : str) : Prop :=
  exists k, occurs_at (lit "<feed") s k /\ (k + 5 <= 500)%nat.

Example atom_text_detected :
  is_atom (lit "<?xml version='1.0'?><feed xmlns='http://www.w3.org/2005/Atom'/>")
  = true.
Proof. vm_compute. reflexivity. Qed.

Example rss_text_detected :
  is_atom (lit "<?xml version='1.0'?><rss version='2.0'><channel/></rss>") = false.
Proof. vm_compute. reflexivity. Qed.

(** C8: for every decoded feed text, the Atom parser is selected if and
    only if the literal ["<feed"] appears within the first 500 characters of
    the text; otherwise the RSS parser is selected. *)
Theorem dialect_detection
  (fromstring : str -> option ET.Element)
  (parsedate_to_datetime : str -> result datetime)
  (fromisoformat : str -> option datetime)
  (html5 : str -> option str) (xml_text name category : str) :
  (feed_within_500 xml_text
   /\ is_atom xml_text = true
   /\ parse_feed fromstring parsedate_to_datetime fromisoformat html5
                 xml_text name category
      = parse_atom fromstring fromisoformat html5 xml_text name category)
  \/ (~ feed_within_500 xml_text
      /\ is_atom xml_text = false
      /\ parse_feed fromstring parsedate_to_datetime fromisoformat html5
                    xml_text name category
         = parse_rss fromstring parsedate_to_datetime html5 xml_text name category).
Proof.
  unfold parse_feed.
  pose proof (contains_prefix_iff (lit "<feed") xml_text 500) as Hiff.
  fold (is_atom xml_text) in Hiff. fold (feed_within_500 xml_text) in Hiff.
  destruct (is_atom xml_text).
  - left. split; [apply Hiff; reflexivity | split; reflexivity].
  - right. split; [|split; reflexivity].
    intros Hin. apply Hiff in Hin. discriminate.
Qed.

(** ** Order of datetimes *)

(** The instant of a datetime in microseconds: its clock reading, moved to
    UTC by its offset when it has one. *)
Definition instant (d : datetime) : Z :=
  match tzinfo d with
  | Some off => wall d - off
  | None => wall d
  end.

Definition aware (d : datetime) : Prop := tzinfo d <> None.

Lemma days_of_span (d s us : Z) :
  (days (timedelta_of d s us) <? 0) = ((d * 86400 + s) * 1000000 + us <? 0).
Proof.
  unfold timedelta_of, us_per_day, us_per_second. simpl days.
  set (total := (d * 86400 + s) * 1000000 + us).
  destruct (Z.ltb_spec total 0) as [Hneg | Hpos].
  - apply Z.ltb_lt. apply Z.div_lt_upper_bound; lia.
  - apply Z.ltb_ge. apply Z.div_pos; lia.
Qed.

(** On two aware datetimes [<] is the order of instants. *)
Lemma lt_aware (a b : datetime) :
  aware a -> aware b -> lt a b = Ok (instant a <? instant b).
Proof.
  unfold aware, lt, sub, instant, wall, us_per_second.
  destruct (tzinfo a) as [oa|]; [|congruence].
  destruct (tzinfo b) as [ob|]; [|congruence].
  intros _ _. unfold bind. rewrite days_of_span. f_equal.
  destruct (Z.ltb_spec
              ((toordinal a * 86400 + seconds_of_day a) * 1000000 + microsecond a - oa)
              ((toordinal b * 86400 + seconds_of_day b) * 1000000 + microsecond b - ob));
    [apply Z.ltb_lt | apply Z.ltb_ge]; lia.
Qed.

(** A naive and an aware datetime cannot be compared. *)
Lemma lt_mixed (a b : datetime) :
  tzinfo a = None -> aware b -> lt a b = Raise TypeError /\ lt b a = Raise TypeError.
Proof.
  unfold aware, lt, sub. intros -> Hb.
  destruct (tzinfo b); [split; reflexivity | congruence].
Qed.

Lemma aware_min_utc : aware min_utc.
Proof. discriminate. Qed.

(** ** The sort *)

(** Every date of the list is timezone-aware. *)
Definition dates_aware (l : list Entry) : Prop :=
  forall x d, In x l -> date x = Some d -> aware d.

Lemma dates_aware_key (l : list Entry) (x : Entry) :
  dates_aware l -> In x l -> aware (sort_key x).
Proof.
  intros Hl Hx. unfold sort_key. destruct (date x) as [d|] eqn:Hd.
  - exact (Hl x d Hx Hd).
  - exact aware_min_utc.
Qed.

Lemma dates_aware_cons (x : Entry) (l : list Entry) :
  dates_aware (x :: l) -> aware (sort_key x) /\ dates_aware l.
Proof.
  intros H. split.
  - apply (dates_aware_key (x :: l)); [exact H | left; reflexivity].
  - intros y d Hy. apply H. right. exact Hy.
Qed.

(** The key of an entry as an instant. *)
Definition key_instant (x : Entry) : Z := instant (sort_key x).

(** The result of the sort when no comparison raises. *)
Fixpoint insert_instant (x : Entry) (l : list Entry) : list Entry :=
  match l with
  | [] => [x]
  | y :: rest =>
      if key_instant x <? key_instant y then y :: insert_instant x rest
      else x :: l
  end.

Fixpoint sort_instant (l : list Entry) : list Entry :=
  match l with
  | [] => []
  | x :: rest => insert_instant x (sort_instant rest)
  end.

Lemma insert_instant_perm (x : Entry) (l : list Entry) :
  Permutation (x :: l) (insert_instant x l).
Proof.
  induction l as [|y l IH]; simpl; [reflexivity|].
  destruct (key_instant x <? key_instant y); [|reflexivity].
  rewrite perm_swap. apply perm_skip. exact IH.
Qed.

Lemma sort_instant_perm (l : list Entry) : Permutation l (sort_instant l).
Proof.
  induction l as [|x l IH]; simpl; [reflexivity|].
  rewrite <- insert_instant_perm. apply perm_skip. exact IH.
Qed.

Lemma insert_desc_aware (x : Entry) (l : list Entry) :
  aware (sort_key x) -> dates_aware l ->
  insert_desc x l = Ok (insert_instant x l).
Proof.
  intros Hx. induction l as [|y l IH]; intros Hl; simpl; [reflexivity|].
  apply dates_aware_cons in Hl. destruct Hl as [Hy Hl].
  rewrite (lt_aware _ _ Hx Hy). simpl. unfold key_instant.
  destruct (instant (sort_key x) <? instant (sort_key y)); [|reflexivity].
  rewrite (IH Hl). reflexivity.
Qed.

Lemma dates_aware_perm (l l' : list Entry) :
  Permutation l l' -> dates_aware l -> dates_aware l'.
Proof.
  intros Hp Hl x d Hx. apply Hl. apply (Permutation_in _ (Permutation_sym Hp) Hx).
Qed.

(** When every date is aware the sort returns. *)
Lemma sort_reverse_aware (l : list Entry) :
  dates_aware l -> sort_reverse l = Ok (sort_instant l).
Proof.
  induction l as [|x l IH]; intros Hl; simpl; [reflexivity|].
  apply dates_aware_cons in Hl. destruct Hl as [Hx Hl].
  rewrite (IH Hl). simpl. apply insert_desc_aware; [exact Hx|].
  apply (dates_aware_perm l); [apply sort_instant_perm | exact Hl].
Qed.

(** Descending order of keys. *)
Definition key_ge (a b : Entry) : Prop := key_instant b <= key_instant a.

Lemma insert_instant_sorted (x : Entry) (l : list Entry) :
  StronglySorted key_ge l -> StronglySorted key_ge (insert_instant x l).
Proof.
  induction l as [|y l IH]; intros Hs; simpl.
  - constructor; [constructor | constructor].
  - apply StronglySorted_inv in Hs. destruct Hs as [Hs Hy].
    destruct (Z.ltb_spec (key_instant x) (key_instant y)) as [Hlt | Hge].
    + constructor; [apply IH; exact Hs|].
      rewrite <- insert_instant_perm. constructor; [unfold key_ge; lia | exact Hy].
    + constructor; [constructor; assumption|].
      constructor; [exact Hge|].
      rewrite Forall_forall in *. intros z Hz. specialize (Hy z Hz).
      unfold key_ge in *. lia.
Qed.

Lemma sort_instant_sorted (l : list Entry) : StronglySorted key_ge (sort_instant l).
Proof.
  induction l as [|x l IH]; simpl; [constructor|].
  apply insert_instant_sorted. exact IH.
Qed.

(** In a list in descending key order, a greater key stands first. *)
Lemma sorted_positions (l : list Entry) :
  StronglySorted key_ge l ->
  forall i j e1 e2,
    nth_error l i = Some e1 -> nth_error l j = Some e2 ->
    key_instant e2 < key_instant e1 -> (i < j)%nat.
Proof.
  induction 1 as [|x l Hs IH Hx]; intros i j e1 e2 Hi Hj Hlt.
  - destruct i; discriminate.
  - destruct i as [|i], j as [|j]; simpl in *.
    + injection Hi as ->. injection Hj as ->. lia.
    + lia.
    + injection Hj as ->. apply nth_error_In in Hi.
      rewrite Forall_forall in Hx. specialize (Hx e1 Hi). unfold key_ge in Hx. lia.
    + apply -> Nat.succ_lt_mono. exact (IH i j e1 e2 Hi Hj Hlt).
Qed.

(** Entries whose key is the instant [t]. *)
Definition keyed_at (t : Z) (x : Entry) : bool := key_instant x =? t.

Lemma insert_instant_stable (t : Z) (x : Entry) (l : list Entry) :
  filter (keyed_at t) (insert_instant x l) = filter (keyed_at t) (x :: l).
Proof.
  induction l as [|y l IH]; [reflexivity|].
  simpl insert_instant.
  destruct (Z.ltb_spec (key_instant x) (key_instant y)) as [Hlt | Hge]; [|reflexivity].
  simpl in *. rewrite IH. unfold keyed_at.
  destruct (Z.eqb_spec (key_instant x) t), (Z.eqb_spec (key_instant y) t);
    try reflexivity. lia.
Qed.

Lemma sort_instant_stable (t : Z) (l : list Entry) :
  filter (keyed_at t) (sort_instant l) = filter (keyed_at t) l.
Proof.
  induction l as [|x l IH]; [reflexivity|].
  simpl sort_instant. rewrite insert_instant_stable. simpl. rewrite IH. reflexivity.
Qed.

(** If a comparison returns, it is the comparison of instants. *)
Lemma lt_ok (a b : datetime) (r : bool) :
  lt a b = Ok r -> r = (instant a <? instant b).
Proof.
  unfold lt, sub, instant, wall, us_per_second.
  destruct (tzinfo a) as [oa|], (tzinfo b) as [ob|]; unfold bind;
    try discriminate; rewrite days_of_span; intros H; injection H as <-.
  - destruct (Z.ltb_spec
                ((toordinal a * 86400 + seconds_of_day a) * 1000000 + microsecond a - oa)
                ((toordinal b * 86400 + seconds_of_day b) * 1000000 + microsecond b - ob));
      [apply Z.ltb_lt | apply Z.ltb_ge]; lia.
  - destruct (Z.ltb_spec
                ((toordinal a * 86400 + seconds_of_day a) * 1000000 + microsecond a)
                ((toordinal b * 86400 + seconds_of_day b) * 1000000 + microsecond b));
      [apply Z.ltb_lt | apply Z.ltb_ge]; lia.
Qed.

Lemma insert_desc_ok (x : Entry) (l l' : list Entry) :
  insert_desc x l = Ok l' -> l' = insert_instant x l.
Proof.
  revert l'. induction l as [|y l IH]; intros l'; simpl.
  - intros H. injection H as <-. reflexivity.
  - destruct (lt (sort_key x) (sort_key y)) as [r|e] eqn:Hlt; simpl; [|discriminate].
    apply lt_ok in Hlt. fold (key_instant x) (key_instant y) in Hlt. rewrite <- Hlt.
    destruct r.
    + destruct (insert_desc x l) as [s|e]; simpl; [|discriminate].
      intros H. injection H as <-. rewrite (IH s eq_refl). reflexivity.
    + intros H. injection H as <-. reflexivity.
Qed.

(** Whenever the sort returns, it returns the list in descending order of
    instants, ties in their original order. *)
Lemma sort_reverse_ok (l l' : list Entry) :
  sort_reverse l = Ok l' -> l' = sort_instant l.
Proof.
  revert l'. induction l as [|x l IH]; intros l'; simpl.
  - intros H. injection H as <-. reflexivity.
  - destruct (sort_reverse l) as [s|e]; simpl; [|discriminate].
    intros H. apply insert_desc_ok in H. rewrite (IH s eq_refl) in H. exact H.
Qed.

(** Decidable form of [dates_aware]. *)
Definition dates_awareb (l : list Entry) : bool :=
  forallb (fun x => match tzinfo (sort_key x) with Some _ => true | None => false end) l.

Lemma dates_awareb_sound (l : list Entry) :
  dates_awareb l = true -> dates_aware l.
Proof.
  unfold dates_awareb, dates_aware, aware. rewrite forallb_forall.
  intros H x d Hx Hd. specialize (H x Hx). unfold sort_key in H. rewrite Hd in H.
  destruct (tzinfo d); [discriminate | discriminate].
Qed.

Definition entry_at (name : string) (d : option datetime) : Entry :=
  mk_Entry (lit name) (lit "http://example.org/") (lit "") d
           (lit "Source") (lit "") (lit "") (lit "").

Definition undated_a : Entry := entry_at "undated a" None.
Definition undated_b : Entry := entry_at "undated b" None.
Definition dated_2024 : Entry :=
  entry_at "2024" (Some (mk_datetime 2024 3 1 9 30 0 0 (Some 3600000000))).
Definition dated_2023 : Entry :=
  entry_at "2023" (Some (mk_datetime 2023 12 31 23 0 0 0 (Some 0))).
(** An entry dated [0001-01-01T00:00:00Z]. *)
Definition dated_min : Entry :=
  entry_at "year 1" (Some (mk_datetime 1 1 1 0 0 0 0 (Some 0))).
(** An entry dated [0001-01-01T00:00:00+01:00]. *)
Definition dated_before_min : Entry :=
  entry_at "before year 1" (Some (mk_datetime 1 1 1 0 0 0 0 (Some 3600000000))).

Example sort_sample :
  sort_reverse [undated_a; dated_2023; undated_b; dated_2024]
  = Ok [dated_2024; dated_2023; undated_a; undated_b].
Proof. vm_compute. reflexivity. Qed.

(** C1 fails on the code: an undated entry is not ordered after every dated
    entry, as the comment above the sort promises. It keeps its place in
    front of an entry dated [0001-01-01T00:00:00Z], whose key equals the key
    given to undated entries, and it is moved in front of an entry dated
    [0001-01-01T00:00:00+01:00], whose key is smaller. *)
Theorem undated_before_dated :
  sort_reverse [undated_a; dated_min] = Ok [undated_a; dated_min]
  /\ sort_reverse [dated_before_min; undated_a] = Ok [undated_a; dated_before_min]
  /\ date undated_a = None
  /\ date dated_min = Some (mk_datetime 1 1 1 0 0 0 0 (Some 0))
  /\ date dated_before_min = Some (mk_datetime 1 1 1 0 0 0 0 (Some 3600000000)).
Proof. repeat split. Qed.

(** X22: the sort returns for every combined list whose dates are all
    timezone-aware, and whenever it returns, its result is a permutation of
    the list in which an entry dated [d1] precedes an entry dated [d2]
    whenever [d1 > d2]; an undated entry is ordered after every entry dated
    later than [datetime.min] in UTC, the key undated entries are given; and
    entries with equal keys (equal dates, both undated, or one undated and
    one dated at that minimum) keep their original order. *)
Theorem sort_reverse_descending_stable (l : list Entry) :
  (dates_aware l -> exists sorted, sort_reverse l = Ok sorted)
  /\ (forall sorted,
        sort_reverse l = Ok sorted ->
        Permutation l sorted
        /\ (forall i j e1 e2 d1 d2,
              nth_error sorted i = Some e1 -> nth_error sorted j = Some e2 ->
              date e1 = Some d1 -> date e2 = Some d2 ->
              lt d2 d1 = Ok true -> (i < j)%nat)
        /\ (forall i j e1 e2 d1,
              nth_error sorted i = Some e1 -> nth_error sorted j = Some e2 ->
              date e1 = Some d1 -> date e2 = None ->
              lt min_utc d1 = Ok true -> (i < j)%nat)
        /\ (forall t, filter (keyed_at t) sorted = filter (keyed_at t) l)).
Proof.
  split.
  { intros Haware. exists (sort_instant l). apply sort_reverse_aware. exact Haware. }
  intros sorted Hsort. apply sort_reverse_ok in Hsort. subst sorted.
  split; [apply sort_instant_perm|].
  pose proof (sorted_positions _ (sort_instant_sorted l)) as Hpos.
  split; [|split].
  - intros i j e1 e2 d1 d2 Hi Hj H1 H2 Hlt.
    apply (Hpos i j e1 e2 Hi Hj).
    apply lt_ok in Hlt. symmetry in Hlt. apply Z.ltb_lt in Hlt.
    unfold key_instant, sort_key. rewrite H1, H2. exact Hlt.
  - intros i j e1 e2 d1 Hi Hj H1 H2 Hlt.
    apply (Hpos i j e1 e2 Hi Hj).
    apply lt_ok in Hlt. symmetry in Hlt. apply Z.ltb_lt in Hlt.
    unfold key_instant, sort_key. rewrite H1, H2. exact Hlt.
  - intros t. apply sort_instant_stable.
Qed.

Definition mixed_dates : list Entry :=
  [undated_a; dated_2023; undated_b; dated_2024].

Lemma sort_reverse_descending_stable_witness :
  (exists sorted, sort_reverse mixed_dates = Ok sorted)
  /\ Permutation mixed_dates [dated_2024; dated_2023; undated_a; undated_b]
  /\ (forall t, filter (keyed_at t) [dated_2024; dated_2023; undated_a; undated_b]
                = filter (keyed_at t) mixed_dates).
Proof.
  destruct (sort_reverse_descending_stable mixed_dates) as [Hreturns Hsorted].
  split.
  - apply Hreturns. apply dates_awareb_sound. reflexivity.
  - destruct (Hsorted [dated_2024; dated_2023; undated_a; undated_b])
      as (Hperm & _ & _ & Hstable).
    + reflexivity.
    + split; [exact Hperm | exact Hstable].
Defined.

(** ** Truncation *)

Lemma filter_perm (f : Entry -> bool) (l l' : list Entry) :
  Permutation l l' -> Permutation (filter f l) (filter f l').
Proof.
  induction 1 as [|x l l' _ IH|x y l|l l' l'' _ IH1 _ IH2]; simpl.
  - constructor.
  - destruct (f x); [apply perm_skip|]; exact IH.
  - destruct (f x), (f y); try reflexivity. apply perm_swap.
  - exact (perm_trans IH1 IH2).
Qed.

Lemma filter_none (f : Entry -> bool) (l : list Entry) :
  (forall y, In y l -> f y = false) -> filter f l = [].
Proof.
  induction l as [|x l IH]; intros H; simpl; [reflexivity|].
  rewrite (H x (or_introl eq_refl)). apply IH.
  intros y Hy. apply H. right. exact Hy.
Qed.

Lemma sorted_app (l1 l2 : list Entry) :
  StronglySorted key_ge (l1 ++ l2) ->
  forall a b, In a l1 -> In b l2 -> key_instant b <= key_instant a.
Proof.
  induction l1 as [|x l1 IH]; intros Hs a b Ha Hb; [contradiction|].
  simpl in Hs. apply StronglySorted_inv in Hs. destruct Hs as [Hs Hx].
  destruct Ha as [<- | Ha].
  - rewrite Forall_forall in Hx. apply Hx. apply in_or_app. right. exact Hb.
  - exact (IH Hs a b Ha Hb).
Qed.

(** An entry dated later than [datetime.min] in UTC. *)
Definition after_min (x : Entry) : bool := instant min_utc <? key_instant x.

Lemma after_min_undated (x : Entry) : date x = None -> after_min x = false.
Proof.
  intros H. unfold after_min, key_instant, sort_key. rewrite H. apply Z.ltb_irrefl.
Qed.

(** In a list in descending key order, the entries dated later than the
    minimum all stand before an undated entry. *)
Lemma after_min_before_undated (l : list Entry) (n : nat) (u : Entry) :
  StronglySorted key_ge l -> In u (firstn n l) -> date u = None ->
  (List.length (filter after_min l) < n)%nat.
Proof.
  revert n. induction l as [|x l IH]; intros n Hs Hu Hd.
  - rewrite firstn_nil in Hu. contradiction.
  - destruct n as [|n]; [contradiction|].
    apply StronglySorted_inv in Hs. destruct Hs as [Hs Hx].
    simpl in Hu. destruct Hu as [-> | Hu].
    + simpl. rewrite (after_min_undated u Hd).
      replace (filter after_min l) with (@nil Entry); [simpl; lia|].
      symmetry. apply filter_none.
      intros y Hy. rewrite Forall_forall in Hx. specialize (Hx y Hy).
      unfold key_ge, key_instant, sort_key in Hx. rewrite Hd in Hx.
      unfold after_min. apply Z.ltb_ge. exact Hx.
    + simpl. specialize (IH n Hs Hu Hd).
      destruct (after_min x); simpl; lia.
Qed.

Definition has_date (x : Entry) : bool :=
  match date x with Some _ => true | None => false end.

Definition crowded_year_1 : list Entry := undated_a :: repeat dated_min 200.

(** C2 fails on the code: of these 201 entries 200 are dated (at
    [0001-01-01T00:00:00Z]), yet the undated one is among the 200 kept and
    a dated one is dropped. *)
Theorem undated_kept_despite_200_dated :
  List.length crowded_year_1 = 201%nat
  /\ List.length (filter has_date crowded_year_1) = 200%nat
  /\ aggregate crowded_year_1 = Ok (undated_a :: repeat dated_min 199)
  /\ date undated_a = None.
Proof.
  split; [reflexivity|]. split; [reflexivity|]. split; [|reflexivity].
  vm_compute. reflexivity.
Qed.

(** X23: for every combined list of more than 200 entries the sort and
    truncation return when all dates are timezone-aware, and whenever they
    return, the result has exactly 200 entries; no entry left out has a
    greater date key than an entry kept; and an undated entry is kept only
    if fewer than 200 entries are dated later than [datetime.min] in UTC,
    the key undated entries are given. *)
Theorem aggregate_keeps_latest (l : list Entry)
  (Hmore : (MAX_ITEMS < List.length l)%nat) :
  (dates_aware l -> exists kept, aggregate l = Ok kept)
  /\ (forall kept,
        aggregate l = Ok kept ->
        List.length kept = MAX_ITEMS
        /\ (exists dropped,
              Permutation l (kept ++ dropped)
              /\ forall k d, In k kept -> In d dropped ->
                             key_instant d <= key_instant k)
        /\ (forall u, In u kept -> date u = None ->
              (List.length (filter after_min l) < MAX_ITEMS)%nat)).
Proof.
  split.
  { intros Haware. exists (firstn MAX_ITEMS (sort_instant l)).
    unfold aggregate. rewrite (sort_reverse_aware l Haware). reflexivity. }
  intros kept Hagg. unfold aggregate in Hagg.
  destruct (sort_reverse l) as [s|] eqn:Hsort; unfold bind in Hagg; [|discriminate].
  assert (Hkept : kept = firstn MAX_ITEMS s) by congruence.
  apply sort_reverse_ok in Hsort. subst s kept.
  pose proof (sort_instant_perm l) as Hperm.
  pose proof (sort_instant_sorted l) as Hsorted.
  split.
  { apply firstn_length_le. rewrite <- (Permutation_length Hperm). lia. }
  split.
  - exists (skipn MAX_ITEMS (sort_instant l)).
    split; [rewrite firstn_skipn; exact Hperm|].
    apply sorted_app. rewrite firstn_skipn. exact Hsorted.
  - intros u Hu Hd.
    rewrite (Permutation_length (filter_perm after_min _ _ Hperm)).
    exact (after_min_before_undated _ _ u Hsorted Hu Hd).
Qed.

Definition busy_day : list Entry :=
  repeat dated_2023 150 ++ [undated_a] ++ repeat dated_2024 40
  ++ repeat undated_b 20.

Example aggregate_sample :
  aggregate busy_day
  = Ok (repeat dated_2024 40 ++ repeat dated_2023 150 ++ [undated_a]
        ++ repeat undated_b 9).
Proof. vm_compute. reflexivity. Qed.

Lemma aggregate_keeps_latest_witness :
  (exists kept, aggregate busy_day = Ok kept)
  /\ List.length (repeat dated_2024 40 ++ repeat dated_2023 150 ++ [undated_a]
                  ++ repeat undated_b 9) = MAX_ITEMS
  /\ (List.length (filter after_min busy_day) < MAX_ITEMS)%nat.
Proof.
  assert (Hmore : (MAX_ITEMS < List.length busy_day)%nat).
  { apply Nat.ltb_lt. vm_compute. reflexivity. }
  destruct (aggregate_keeps_latest busy_day Hmore) as [Hreturns Hkept].
  split.
  - apply Hreturns. apply dates_awareb_sound. vm_compute. reflexivity.
  - destruct (Hkept (repeat dated_2024 40 ++ repeat dated_2023 150 ++ [undated_a]
                     ++ repeat undated_b 9))
      as (Hlen & _ & Hundated).
    + vm_compute. reflexivity.
    + split; [exact Hlen|].
      apply (Hundated undated_a); [|reflexivity].
      apply in_or_app. right. apply in_or_app. right. left. reflexivity.
Defined.

(** ** Naive dates *)

(** The key of the entry is a naive datetime. *)
Definition naive_key (x : Entry) : bool :=
  match tzinfo (sort_key x) with Some _ => false | None => true end.

Lemma naive_key_date (x : Entry) :
  naive_key x = true -> exists d, date x = Some d /\ tzinfo d = None.
Proof.
  unfold naive_key, sort_key. destruct (date x) as [d|].
  - intros H. exists d. split; [reflexivity|]. destruct (tzinfo d); [discriminate | reflexivity].
  - discriminate.
Qed.

Lemma lt_ok_kind (x y : Entry) (r : bool) :
  lt (sort_key x) (sort_key y) = Ok r -> naive_key x = naive_key y.
Proof.
  unfold lt, sub, naive_key.
  destruct (tzinfo (sort_key x)), (tzinfo (sort_key y)); simpl;
    intros H; try reflexivity; discriminate.
Qed.

Lemma lt_raises (a b : datetime) (e : exn) : lt a b = Raise e -> e = TypeError.
Proof.
  unfold lt, sub. destruct (tzinfo a), (tzinfo b); simpl; intros H;
    try discriminate; injection H as <-; reflexivity.
Qed.

Lemma insert_desc_raises (x : Entry) (l : list Entry) (e : exn) :
  insert_desc x l = Raise e -> e = TypeError.
Proof.
  induction l as [|y l IH]; simpl; [discriminate|].
  destruct (lt (sort_key x) (sort_key y)) as [r|e'] eqn:Hlt; simpl.
  - destruct r; [|discriminate].
    destruct (insert_desc x l) as [s|e'']; simpl; [discriminate|].
    intros H. injection H as <-. apply IH. reflexivity.
  - intros H. injection H as <-. exact (lt_raises _ _ _ Hlt).
Qed.

Lemma sort_reverse_raises (l : list Entry) (e : exn) :
  sort_reverse l = Raise e -> e = TypeError.
Proof.
  induction l as [|x l IH]; simpl; [discriminate|].
  destruct (sort_reverse l) as [s|e']; simpl.
  - apply insert_desc_raises.
  - intros H. injection H as <-. apply IH. reflexivity.
Qed.

(** The sort returns only if the keys are all naive or all aware. *)
Lemma sort_reverse_same_kind (l l' : list Entry) :
  sort_reverse l = Ok l' ->
  forall x y, In x l -> In y l -> naive_key x = naive_key y.
Proof.
  revert l'. induction l as [|x l IH]; intros l' Hsort; [contradiction|].
  simpl in Hsort.
  destruct (sort_reverse l) as [s|e] eqn:Hs; simpl in Hsort; [|discriminate].
  specialize (IH s eq_refl).
  assert (Hx : forall z, In z l -> naive_key x = naive_key z).
  { intros z Hz. apply sort_reverse_ok in Hs. subst s.
    destruct (sort_instant l) as [|y s'] eqn:Hsi.
    - pose proof (sort_instant_perm l) as Hp. rewrite Hsi in Hp.
      apply Permutation_sym, Permutation_nil in Hp. subst l. contradiction.
    - simpl in Hsort.
      destruct (lt (sort_key x) (sort_key y)) as [r|e] eqn:Hlt; simpl in Hsort;
        [|discriminate].
      rewrite (lt_ok_kind _ _ _ Hlt). apply IH; [|exact Hz].
      apply (Permutation_in _ (Permutation_sym (sort_instant_perm l))).
      rewrite Hsi. left. reflexivity. }
  intros a b [<- | Ha] [<- | Hb].
  - reflexivity.
  - apply Hx. exact Hb.
  - symmetry. apply Hx. exact Ha.
  - apply IH; assumption.
Qed.

(** [format_date] raises on a naive date. *)
Lemma format_date_naive (clock d : datetime) :
  tzinfo d = None -> format_date clock (Some d) = Raise TypeError.
Proof.
  intros H. unfold format_date, sub, now_utc. simpl. rewrite H. reflexivity.
Qed.

Section NaiveDates.

Variable request : Type.
Variable fromstring : str -> option ET.Element.
Variable parsedate_to_datetime : str -> result datetime.
Variable fromisoformat : str -> option datetime.
Variable html5 : str -> option str.
Variable Request : str -> result request.
Variable urlopen_read : request -> result (list Z).
Variable decode : list Z -> str.

(** One naive date among the collected entries stops the run: either the
    sort raises [TypeError], or every key is naive and the first date label
    raises it. *)
Lemma naive_date_stops_main (feeds : list Feed) (clock : nat -> datetime)
  (all_items : list Entry) (x : Entry) (d : datetime) :
  fetch_all fromstring parsedate_to_datetime fromisoformat html5
            Request urlopen_read decode feeds = Ok all_items ->
  In x all_items ->
  date x = Some d -> tzinfo d = None ->
  main fromstring parsedate_to_datetime fromisoformat html5
       Request urlopen_read decode feeds clock
  = Raise TypeError.
Proof.
  unfold main, aggregate.
  intros Hfetch. rewrite Hfetch. unfold bind at 1.
  intros Hin Hdate Hnaive.
  assert (Hx : naive_key x = true).
  { unfold naive_key, sort_key. rewrite Hdate, Hnaive. reflexivity. }
  destruct (sort_reverse all_items) as [s|e] eqn:Hsort; simpl.
  - pose proof (sort_reverse_same_kind _ _ Hsort) as Hkind.
    apply sort_reverse_ok in Hsort. subst s.
    pose proof (sort_instant_perm all_items) as Hperm.
    destruct (sort_instant all_items) as [|y s] eqn:Hsi.
    + apply Permutation_sym, Permutation_nil in Hperm.
      rewrite Hperm in Hin. contradiction.
    + assert (Hy : naive_key y = true).
      { rewrite <- Hx. apply Hkind; [|exact Hin].
        apply (Permutation_in _ (Permutation_sym Hperm)). left. reflexivity. }
      apply naive_key_date in Hy. destruct Hy as (dy & Hdy & Hty).
      unfold generate_html. simpl. rewrite Hdy, (format_date_naive _ _ Hty).
      reflexivity.
  - rewrite (sort_reverse_raises _ _ Hsort). reflexivity.
Qed.

End NaiveDates.

(** An Atom feed with one entry whose [published] text has no UTC offset. *)
Definition naive_feed_text : str :=
  lit "<feed xmlns='http://www.w3.org/2005/Atom'><entry><title>Post</title><link href='http://example.org/post'/><published>2024-01-01T00:00:00</published></entry></feed>".

(** The tree [ET.fromstring] builds from [naive_feed_text]. *)
Definition naive_feed_tree : ET.Element :=
  ET.Elem (atom "feed") [] None
    [ET.Elem (atom "entry") [] None
       [ET.Elem (atom "title") [] (Some (lit "Post")) [];
        ET.Elem (atom "link") [(lit "href", lit "http://example.org/post")] None [];
        ET.Elem (atom "published") [] (Some (lit "2024-01-01T00:00:00")) []]].

Definition fromstring_naive_feed (xml_text : str) : option ET.Element :=
  if str_eqb xml_text naive_feed_text then Some naive_feed_tree else None.

(** [datetime.fromisoformat] on the one date of the feed: a string without
    offset gives a naive datetime. *)
Definition fromisoformat_naive_feed (s : str) : option datetime :=
  if str_eqb s (lit "2024-01-01T00:00:00")
  then Some (mk_datetime 2024 1 1 0 0 0 0 None)
  else None.

Definition blog_feed : Feed :=
  mk_Feed (lit "Blog") (lit "http://example.org/feed") (lit "tech").

(** C5 fails on the code: a well-formed feed whose only date has no UTC
    offset is fetched and parsed, and the run then stops with [TypeError]
    instead of producing the page. *)
Theorem naive_date_aborts_run
  (parsedate_to_datetime : str -> result datetime) (html5 : str -> option str)
  (clock : nat -> datetime) :
  main fromstring_naive_feed parsedate_to_datetime fromisoformat_naive_feed html5
       (fun url => Ok url) (fun _ => Ok naive_feed_text) (fun raw => raw)
       [blog_feed] clock
  = Raise TypeError.
Proof.
  eapply naive_date_stops_main with (d := mk_datetime 2024 1 1 0 0 0 0 None).
  - vm_compute. reflexivity.
  - left. reflexivity.
  - reflexivity.
  - reflexivity.
Qed.

(** A naive date next to an undated entry stops the sort itself. *)
Example sort_mixed_raises :
  aggregate [entry_at "naive" (Some (mk_datetime 2024 1 1 0 0 0 0 None)); undated_a]
  = Raise TypeError.
Proof. reflexivity. Qed.

(** ** Required fields *)

Lemma truthy_iff (s : str) : truthy s = true <-> s <> [].
Proof. destruct s; simpl; split; congruence. Qed.

Lemma not_truthy_iff (s : str) : truthy s = false <-> s = [].
Proof. destruct s; simpl; split; congruence. Qed.

(** When the loop returns, the entries it built are those of the turns that
    appended one. *)
Lemma collect_In {A : Type} (f : A -> result (option Entry)) (nodes : list A)
  (entries : list Entry) :
  collect f nodes = Ok entries ->
  forall e, In e entries <-> exists n, In n nodes /\ f n = Ok (Some e).
Proof.
  revert entries. induction nodes as [|n nodes IH]; intros entries; simpl.
  - intros H. injection H as <-. intros e.
    split; [contradiction | intros (n & [] & _)].
  - destruct (f n) as [r|ex] eqn:Hfn; simpl; [|discriminate].
    destruct (collect f nodes) as [items|ex] eqn:Hc; simpl; [|discriminate].
    intros H. injection H as <-. intros e. specialize (IH items eq_refl e).
    destruct r as [e'|]; simpl; rewrite ?IH; split.
    + intros [<- | (m & Hm & Hfm)]; [exists n | exists m]; auto.
    + intros (m & [<- | Hm] & Hfm); [left; congruence | right; exists m; auto].
    + intros (m & Hm & Hfm). exists m. auto.
    + intros (m & [<- | Hm] & Hfm); [congruence | exists m; auto].
Qed.

(** One turn that raises makes the loop raise. *)
Lemma collect_raises {A : Type} (f : A -> result (option Entry)) (nodes : list A)
  (n : A) (ex : exn) :
  In n nodes -> f n = Raise ex -> exists ex', collect f nodes = Raise ex'.
Proof.
  intros Hin Hn. induction nodes as [|m nodes IH]; [contradiction|].
  simpl. destruct Hin as [-> | Hin].
  - rewrite Hn. exists ex. reflexivity.
  - destruct (f m) as [r|ex1]; simpl; [|exists ex1; reflexivity].
    destruct (IH Hin) as [ex' ->]. exists ex'. reflexivity.
Qed.

(** The loop returns when every turn does. *)
Lemma collect_returns {A : Type} (f : A -> result (option Entry)) (nodes : list A) :
  (forall n, In n nodes -> exists r, f n = Ok r) ->
  exists entries, collect f nodes = Ok entries.
Proof.
  induction nodes as [|m nodes IH]; intros H; simpl.
  - exists []. reflexivity.
  - destruct (H m (or_introl eq_refl)) as [r ->].
    destruct IH as [items ->]; [intros n Hn; apply H; right; exact Hn|].
    simpl. eexists. reflexivity.
Qed.

(** The title and the link [parse_rss] extracts from an item: the text of
    the child, trimmed. *)
Definition rss_title (item : ET.Element) : str :=
  strip (ET.findtext item (lit "title") (lit "")).
Definition rss_link (item : ET.Element) : str :=
  strip (ET.findtext item (lit "link") (lit "")).

(** The title [parse_atom] extracts from an entry (trimmed text), and the
    link: the [href] attribute as it is written, of the [link] child with
    [rel='alternate'] or else of the first [link] child. *)
Definition atom_title (entry : ET.Element) : str :=
  strip (ET.findtext entry (atom "title") (lit "")).
Definition atom_link (entry : ET.Element) : str :=
  match ET.find_attr entry (atom "link") (lit "rel") (lit "alternate") with
  | Some el => ET.get el (lit "href") (lit "")
  | None =>
      match ET.find entry (atom "link") with
      | Some el => ET.get el (lit "href") (lit "")
      | None => lit ""
      end
  end.

Section RequiredFields.

Variable request : Type.
Variable fromstring : str -> option ET.Element.
Variable parsedate_to_datetime : str -> result datetime.
Variable fromisoformat : str -> option datetime.
Variable html5 : str -> option str.
Variable Request : str -> result request.
Variable urlopen_read : request -> result (list Z).
Variable decode : list Z -> str.

Lemma rss_item_some (item : ET.Element) (name category : str) (e : Entry) :
  rss_item parsedate_to_datetime html5 item name category = Ok (Some e) ->
  title e = rss_title item /\ link e = rss_link item
  /\ title e <> [] /\ link e <> [].
Proof.
  unfold rss_item. fold (rss_title item) (rss_link item).
  destruct (rss_date parsedate_to_datetime item) as [pub_date|ex];
    unfold bind; [|discriminate].
  destruct (truthy (rss_title item)) eqn:Ht; [|discriminate].
  destruct (truthy (rss_link item)) eqn:Hl; [|discriminate].
  cbn [andb]. destruct (strip_html html5 _) as [stripped|ex]; [|discriminate].
  intros H. injection H as <-. cbn [title link].
  apply truthy_iff in Ht, Hl. auto.
Qed.

(** An item whose title or link is empty appends nothing: the turn ends
    without an entry once its date is parsed. *)
Lemma rss_item_incomplete (item : ET.Element) (name category : str) :
  rss_title item = [] \/ rss_link item = [] ->
  rss_item parsedate_to_datetime html5 item name category
  = (pub_date <- rss_date parsedate_to_datetime item ;; Ok None).
Proof.
  intros H. unfold rss_item. fold (rss_title item) (rss_link item).
  replace (truthy (rss_title item) && truthy (rss_link item)) with false;
    [reflexivity|].
  destruct H as [-> | ->]; [reflexivity | destruct (truthy _); reflexivity].
Qed.

Lemma atom_link_eq (entry : ET.Element) :
  match
    match ET.find_attr entry (atom "link") (lit "rel") (lit "alternate") with
    | Some _ => ET.find_attr entry (atom "link") (lit "rel") (lit "alternate")
    | None => ET.find entry (atom "link")
    end
  with
  | Some el => ET.get el (lit "href") (lit "")
  | None => lit ""
  end = atom_link entry.
Proof. unfold atom_link. destruct (ET.find_attr _ _ _ _); reflexivity. Qed.

Lemma atom_entry_some (entry : ET.Element) (name category : str) (e : Entry) :
  atom_entry fromisoformat html5 entry name category = Ok (Some e) ->
  title e = atom_title entry /\ link e = atom_link entry
  /\ title e <> [] /\ link e <> [].
Proof.
  unfold atom_entry. fold (atom_title entry). rewrite atom_link_eq.
  destruct (truthy (atom_title entry)) eqn:Ht; [|discriminate].
  destruct (truthy (atom_link entry)) eqn:Hl; [|discriminate].
  cbn [andb]. destruct (strip_html html5 _) as [stripped|ex];
    unfold bind; [|discriminate].
  intros H. injection H as <-. cbn [title link].
  apply truthy_iff in Ht, Hl. auto.
Qed.

(** An entry whose title or link is empty appends nothing. *)
Lemma atom_entry_incomplete (entry : ET.Element) (name category : str) :
  atom_title entry = [] \/ atom_link entry = [] ->
  atom_entry fromisoformat html5 entry name category = Ok None.
Proof.
  intros H. unfold atom_entry. fold (atom_title entry). rewrite atom_link_eq.
  replace (truthy (atom_title entry) && truthy (atom_link entry)) with false;
    [reflexivity|].
  destruct H as [-> | ->]; [reflexivity | destruct (truthy _); reflexivity].
Qed.

(** Entries with a title and a link. *)
Definition complete (e : Entry) : Prop := title e <> [] /\ link e <> [].

Lemma parse_rss_complete (xml_text name category : str) (entries : list Entry)
  (e : Entry) :
  parse_rss fromstring parsedate_to_datetime html5 xml_text name category
  = Ok entries ->
  In e entries -> complete e.
Proof.
  unfold parse_rss. destruct (fromstring xml_text).
  - intros Hc Hin. apply (collect_In _ _ _ Hc) in Hin.
    destruct Hin as (item & _ & Hitem).
    apply rss_item_some in Hitem. split; apply Hitem.
  - intros H. injection H as <-. contradiction.
Qed.

Lemma parse_atom_complete (xml_text name category : str) (entries : list Entry)
  (e : Entry) :
  parse_atom fromstring fromisoformat html5 xml_text name category = Ok entries ->
  In e entries -> complete e.
Proof.
  unfold parse_atom. destruct (fromstring xml_text).
  - intros Hc Hin. apply (collect_In _ _ _ Hc) in Hin.
    destruct Hin as (entry & _ & Hentry).
    apply atom_entry_some in Hentry. split; apply Hentry.
  - intros H. injection H as <-. contradiction.
Qed.

Lemma parse_feed_complete (xml_text name category : str) (entries : list Entry)
  (e : Entry) :
  parse_feed fromstring parsedate_to_datetime fromisoformat html5
             xml_text name category = Ok entries ->
  In e entries -> complete e.
Proof.
  unfold parse_feed. destruct (is_atom xml_text).
  - apply parse_atom_complete.
  - apply parse_rss_complete.
Qed.

(** What one turn of the loop of [main] leaves in [all_items]. *)
Lemma fetch_all_cons (feed : Feed) (rest : list Feed) (all_items : list Entry) :
  fetch_all fromstring parsedate_to_datetime fromisoformat html5
            Request urlopen_read decode (feed :: rest) = Ok all_items ->
  exists items more,
    all_items = items ++ more
    /\ fetch_all fromstring parsedate_to_datetime fromisoformat html5
                 Request urlopen_read decode rest = Ok more
    /\ ((fetch_feed Request urlopen_read decode (feed_url feed) = Ok None
         /\ items = [])
        \/ exists xml_text,
             fetch_feed Request urlopen_read decode (feed_url feed)
             = Ok (Some xml_text)
             /\ parse_feed fromstring parsedate_to_datetime fromisoformat html5
                           xml_text (feed_name feed) (feed_category feed)
                = Ok items).
Proof.
  simpl.
  destruct (fetch_feed Request urlopen_read decode (feed_url feed))
    as [[xml_text|]|ex]; simpl; [| |discriminate].
  - destruct (parse_feed _ _ _ _ xml_text _ _) as [items|ex] eqn:Hparse; simpl;
      [|discriminate].
    destruct (fetch_all _ _ _ _ _ _ _ rest) as [more|ex]; simpl; [|discriminate].
    intros H. injection H as <-. exists items, more.
    split; [reflexivity|]. split; [reflexivity|].
    right. exists xml_text. split; [reflexivity | exact Hparse].
  - intros H. exists [], all_items.
    split; [reflexivity|]. split; [exact H|]. left. split; reflexivity.
Qed.

Lemma fetch_all_complete (feeds : list Feed) (all_items : list Entry) (e : Entry) :
  fetch_all fromstring parsedate_to_datetime fromisoformat html5
            Request urlopen_read decode feeds = Ok all_items ->
  In e all_items -> complete e.
Proof.
  revert all_items. induction feeds as [|feed feeds IH]; intros all_items Hfetch.
  - injection Hfetch as <-. contradiction.
  - apply fetch_all_cons in Hfetch.
    destruct Hfetch as (items & more & -> & Hmore & Hitems).
    intros Hin. apply in_app_or in Hin. destruct Hin as [Hin | Hin].
    + destruct Hitems as [[_ ->] | (xml_text & _ & Hparse)]; [contradiction|].
      exact (parse_feed_complete _ _ _ _ _ Hparse Hin).
    + exact (IH more Hmore Hin).
Qed.

End RequiredFields.

Lemma In_firstn {A : Type} (n : nat) (l : list A) (x : A) :
  In x (firstn n l) -> In x l.
Proof.
  intros H. rewrite <- (firstn_skipn n l). apply in_or_app. left. exact H.
Qed.

(** An Atom feed whose one entry has a blank [href], and the tree
    [ET.fromstring] builds from it. *)
Definition blank_link_text : str :=
  lit "<feed xmlns='http://www.w3.org/2005/Atom'><entry><title>Post</title><link href=' '/></entry></feed>".

Definition blank_link_entry : ET.Element :=
  ET.Elem (atom "entry") [] None
    [ET.Elem (atom "title") [] (Some (lit "Post")) [];
     ET.Elem (atom "link") [(lit "href", lit " ")] None []].

Definition blank_link_tree : ET.Element :=
  ET.Elem (atom "feed") [] None [blank_link_entry].

(** C3, as stated, fails for the Atom normalizer: the link of an entry is
    its [href] attribute, which is not trimmed, so a link that is empty
    after trimming still produces an Entry. *)
Lemma atom_blank_link_is_kept :
  parse_atom (fun _ => Some blank_link_tree) (fun _ => None) html5_xml
             blank_link_text (lit "Blog") (lit "tech")
  = Ok [mk_Entry (lit "Post") (lit " ") (lit "") None (lit "Blog") (lit "tech")
                 (lit "") (lit "")]
  /\ strip (lit " ") = lit "".
Proof. split; reflexivity. Qed.

(** C3, amended: the RSS normalizer produces an Entry for an item only if
    its title and its link are both non-empty after trimming; the Atom
    normalizer produces an Entry for an entry only if its title is non-empty
    after trimming and its link, the [href] attribute as written, is
    non-empty. An item or entry with an empty title or an empty link yields
    no Entry; so every Entry in the aggregate has a non-empty title and a
    non-empty link. *)
Theorem entries_have_title_and_link
  (request : Type) (fromstring : str -> option ET.Element)
  (parsedate_to_datetime : str -> result datetime)
  (fromisoformat : str -> option datetime) (html5 : str -> option str)
  (Request : str -> result request) (urlopen_read : request -> result (list Z))
  (decode : list Z -> str) :
  (forall item name category e,
      rss_item parsedate_to_datetime html5 item name category = Ok (Some e) ->
      title e = rss_title item /\ link e = rss_link item
      /\ rss_title item <> [] /\ rss_link item <> [])
  /\ (forall item name category,
         rss_title item = [] \/ rss_link item = [] ->
         rss_item parsedate_to_datetime html5 item name category
         = (pub_date <- rss_date parsedate_to_datetime item ;; Ok None))
  /\ (forall entry name category e,
         atom_entry fromisoformat html5 entry name category = Ok (Some e) ->
         title e = atom_title entry /\ link e = atom_link entry
         /\ atom_title entry <> [] /\ atom_link entry <> [])
  /\ (forall entry name category,
         atom_title entry = [] \/ atom_link entry = [] ->
         atom_entry fromisoformat html5 entry name category = Ok None)
  /\ (forall feeds all_items items e,
         fetch_all fromstring parsedate_to_datetime fromisoformat html5
                   Request urlopen_read decode feeds = Ok all_items ->
         aggregate all_items = Ok items ->
         In e items -> title e <> [] /\ link e <> []).
Proof.
  split; [|split; [|split; [|split]]].
  - intros item name category e He.
    destruct (rss_item_some _ _ _ _ _ _ He) as (Ht & Hl & Hte & Hle).
    rewrite <- Ht, <- Hl. auto.
  - intros. apply rss_item_incomplete. assumption.
  - intros entry name category e He.
    destruct (atom_entry_some _ _ _ _ _ _ He) as (Ht & Hl & Hte & Hle).
    rewrite <- Ht, <- Hl. auto.
  - intros. apply atom_entry_incomplete. assumption.
  - intros feeds all_items items e Hfetch Hagg Hin. unfold aggregate in Hagg.
    destruct (sort_reverse all_items) as [s|] eqn:Hsort; unfold bind in Hagg;
      [|discriminate].
    assert (Hitems : items = firstn MAX_ITEMS s) by congruence.
    subst items. apply sort_reverse_ok in Hsort. subst s.
    apply (In_firstn MAX_ITEMS) in Hin.
    apply (Permutation_in _ (Permutation_sym (sort_instant_perm _))) in Hin.
    exact (fetch_all_complete _ _ _ _ _ _ _ _ _ _ _ Hfetch Hin).
Qed.

Definition rss_node (t : string) (x : string) : ET.Element :=
  ET.Elem (lit t) [] (Some (lit x)) [].

Definition blank_title_item : ET.Element :=
  ET.Elem (lit "item") [] None
    [rss_node "title" "  "; rss_node "link" "http://example.org/2"].

(** An RSS document of three items (a complete one, one whose title is
    blank, one without link), and the tree [ET.fromstring] builds from it. *)
Definition three_items_text : str :=
  lit "<rss version='2.0'><channel><item><title> First </title><link>http://example.org/1</link></item><item><title>  </title><link>http://example.org/2</link></item><item><title>Third</title></item></channel></rss>".

Definition three_items : ET.Element :=
  ET.Elem (lit "rss") [(lit "version", lit "2.0")] None
    [ET.Elem (lit "channel") [] None
       [ET.Elem (lit "item") [] None
          [rss_node "title" " First "; rss_node "link" "http://example.org/1"];
        blank_title_item;
        ET.Elem (lit "item") [] None [rss_node "title" "Third"]]].

Definition first_entry : Entry :=
  mk_Entry (lit "First") (lit "http://example.org/1") (lit "") None
           (lit "Blog") (lit "tech") (lit "") (lit "").

Example three_items_parsed :
  parse_rss (fun _ => Some three_items) (fun _ => Raise ValueError) html5_xml
            three_items_text (lit "Blog") (lit "tech")
  = Ok [first_entry].
Proof. vm_compute. reflexivity. Qed.

Lemma entries_have_title_and_link_witness :
  rss_item (fun _ => Raise ValueError) html5_xml blank_title_item
           (lit "Blog") (lit "tech") = Ok None
  /\ title first_entry <> [] /\ link first_entry <> [].
Proof.
  pose proof (entries_have_title_and_link
                str (fun _ => Some three_items) (fun _ => Raise ValueError)
                (fun _ => None) html5_xml
                (fun url => Ok url) (fun _ => Ok three_items_text)
                (fun raw => raw)) as (_ & Hrss & _ & _ & Hagg).
  split.
  - rewrite Hrss; [reflexivity | left; reflexivity].
  - apply (Hagg [blog_feed] [first_entry] [first_entry] first_entry).
    + vm_compute. reflexivity.
    + vm_compute. reflexivity.
    + left. reflexivity.
Defined.

(** ** The HTML stripper *)


(** [lstrip] removes a prefix of whitespace. *)
Lemma lstrip_suffix (s : str) :
  exists pre, s = pre ++ lstrip s /\ forallb is_space pre = true.
Proof.
  induction s as [|c s (pre & Hs & Hpre)]; simpl.
  - exists []. split; reflexivity.
  - destruct (is_space c) eqn:Hc.
    + exists (c :: pre). simpl. rewrite Hc, Hpre. split; [f_equal; exact Hs | reflexivity].
    + exists []. split; reflexivity.
Qed.

Lemma lstrip_head (s : str) (c : Z) (t : str) :
  lstrip s = c :: t -> is_space c = false.
Proof.
  induction s as [|a s IH]; simpl; [discriminate|].
  destruct (is_space a) eqn:Ha; [exact IH|].
  intros H. injection H as <- _. exact Ha.
Qed.

(** [rstrip] removes a suffix of whitespace. *)
Lemma rstrip_prefix (s : str) :
  exists suf, s = rstrip s ++ suf /\ forallb is_space suf = true.
Proof.
  unfold rstrip. destruct (lstrip_suffix (rev s)) as (pre & Hs & Hpre).
  exists (rev pre). split.
  - rewrite <- rev_app_distr, <- Hs, rev_involutive. reflexivity.
  - rewrite forallb_forall in *. intros x Hx. apply Hpre. apply in_rev. exact Hx.
Qed.

Lemma rstrip_last (s : str) (c : Z) (t : str) :
  rstrip s = t ++ [c] -> is_space c = false.
Proof.
  unfold rstrip. intros H.
  apply (f_equal (@rev Z)) in H. rewrite rev_involutive, rev_app_distr in H.
  simpl in H. exact (lstrip_head _ _ _ H).
Qed.


(** A stripped string neither starts nor ends with whitespace. *)
Definition trimmed (s : str) : Prop :=
  (forall c t, s = c :: t -> is_space c = false)
  /\ (forall c t, s = t ++ [c] -> is_space c = false).

Lemma strip_trimmed (s : str) : trimmed (strip s).
Proof.
  unfold strip. split.
  - intros c t H.
    destruct (rstrip_prefix (lstrip s)) as (suf & Hl & _).
    rewrite H in Hl. simpl in Hl. exact (lstrip_head _ _ _ Hl).
  - intros c t H. exact (rstrip_last _ _ _ H).
Qed.


(** *** The pass over the references *)





Lemma charref_sub_nil (html5 : str -> option str) (fuel : nat) :
  charref_sub html5 fuel [] = Ok [].
Proof. destruct fuel; reflexivity. Qed.

Lemma charref_sub_plain (html5 : str -> option str) (t : str) (fuel : nat) :
  ~ In amp t -> charref_sub html5 fuel t = Ok t.
Proof.
  revert fuel. induction t as [|c t IH]; intros fuel Hno.
  - apply charref_sub_nil.
  - destruct fuel as [|fuel]; [reflexivity|]. simpl.
    assert (Hc : (c =? amp) = false).
    { apply Z.eqb_neq. intros ->. apply Hno. left. reflexivity. }
    rewrite Hc, IH; [reflexivity|]. intros H. apply Hno. right. exact H.
Qed.


Lemma unescape_charref_sub (html5 : str -> option str) (t : str) :
  unescape html5 t = charref_sub html5 (List.length t) t.
Proof.
  unfold unescape. destruct (existsb (Z.eqb amp) t) eqn:He; [reflexivity|].
  simpl. symmetry. apply charref_sub_plain. intros Hin.
  assert (Ht : existsb (Z.eqb amp) t = true).
  { apply existsb_exists. exists amp. split; [exact Hin | apply Z.eqb_refl]. }
  congruence.
Qed.

















Example strip_html_sample :
  strip_html html5_xml (lit "<p>Fish &amp; <b>chips</b>: it&#39;s good </p> ")
  = Ok (lit "Fish & chips: it's good").
Proof. vm_compute. reflexivity. Qed.




(** ** The date of an Atom entry *)

(** The trimmed text of the first child of [entry] tagged [t], empty when
    there is no such child or it has no text. *)
Definition child_text (entry : ET.Element) (t : str) : str :=
  strip (ET.findtext entry t (lit "")).

Lemma child_text_present (entry : ET.Element) (t : str) :
  child_text entry t <> [] ->
  exists el x, ET.find entry t = Some el /\ ET.text el = Some x
               /\ child_text entry t = strip x.
Proof.
  unfold child_text, ET.findtext.
  destruct (ET.find entry t) as [el|]; [|intros H; exfalso; apply H; reflexivity].
  destruct (ET.text el) as [x|] eqn:Hx; [|intros H; exfalso; apply H; reflexivity].
  intros _. exists el, x. split; [reflexivity | split; [exact Hx | reflexivity]].
Qed.

Lemma replace_fuel_nil (fuel : nat) (old new : str) :
  replace_fuel fuel old new [] = [].
Proof. destruct fuel; reflexivity. Qed.








(** ** The image of an RSS item *)

Lemma len_app (a b : str) : len (a ++ b) = len a + len b.
Proof. unfold len. rewrite length_app. lia. Qed.

Lemma len_nonneg (a : str) : 0 <= len a.
Proof. unfold len. lia. Qed.

(** [s[i:j]] cuts the middle out of a concatenation. *)
Lemma slice_middle (a u r : str) :
  slice (a ++ u ++ r) (len a) (len a + len u) = u.
Proof.
  unfold slice, clamp. rewrite !len_app.
  pose proof (len_nonneg a). pose proof (len_nonneg u). pose proof (len_nonneg r).
  destruct (Z.ltb_spec (len a) 0); [lia|].
  destruct (Z.ltb_spec (len a + len u) 0); [lia|].
  rewrite !Z.min_l by lia.
  replace (len a + len u - len a) with (len u) by lia.
  unfold len. rewrite !Nat2Z.id.
  rewrite skipn_app, skipn_all, Nat.sub_diag. simpl.
  rewrite firstn_app, firstn_all, Nat.sub_diag. simpl. apply app_nil_r.
Qed.

(** The character at an occurrence of a one-character string. *)
Lemma occurs_at_char (c : Z) (s : str) (k : nat) :
  occurs_at [c] s k -> nth_error s k = Some c.
Proof.
  intros (pre & post & -> & <-).
  rewrite nth_error_app2 by lia. rewrite Nat.sub_diag. reflexivity.
Qed.

Lemma occurs_at_middle (sub a r : str) : occurs_at sub (a ++ sub ++ r) (List.length a).
Proof. exists a, r. split; reflexivity. Qed.

(** The scan of [content:encoded]: lines 85 to 92 of [parse_rss]. *)
Definition img_src (content : str) : str :=
  let img_start := Text.find (lit "<img") content 0 in
  if negb (img_start =? -1) then
    let src_start := Text.find (lit "src=" ++ [dquote]) content img_start in
    if negb (src_start =? -1) then
      let src_start := src_start + 5 in
      let src_end := Text.find [dquote] content src_start in
      if negb (src_end =? -1) then slice content src_start src_end
      else lit ""
    else lit ""
  else lit "".

(** The scan returns the value of the first [src="..."] that follows the
    first [<img]. *)
Lemma img_src_first (pre mid u rest : str) :
  let content :=
    pre ++ lit "<img" ++ mid ++ (lit "src=" ++ [dquote]) ++ u ++ [dquote] ++ rest in
  (forall j, (j < List.length pre)%nat -> ~ occurs_at (lit "<img") content j) ->
  (forall j, (List.length pre <= j < List.length pre + 4 + List.length mid)%nat ->
             ~ occurs_at (lit "src=" ++ [dquote]) content j) ->
  ~ In dquote u ->
  img_src content = u.
Proof.
  intros content Himg Hsrc Hu.
  set (head := pre ++ lit "<img" ++ mid ++ (lit "src=" ++ [dquote])).
  assert (Hcontent : content = head ++ u ++ [dquote] ++ rest).
  { unfold content, head. rewrite <- !app_assoc. reflexivity. }
  assert (Hhead : List.length head = (List.length pre + 4 + List.length mid + 5)%nat).
  { unfold head. rewrite !length_app. simpl. lia. }
  assert (H1 : Text.find (lit "<img") content 0 = Z.of_nat (List.length pre)).
  { apply (find_first (lit "<img") content 0 (List.length pre)); [lia | |].
    - apply occurs_at_middle.
    - intros j Hj. apply Himg. lia. }
  assert (H2 : Text.find (lit "src=" ++ [dquote]) content (Z.of_nat (List.length pre))
               = Z.of_nat (List.length pre + 4 + List.length mid)).
  { apply find_first; [lia | | exact Hsrc].
    exists (pre ++ lit "<img" ++ mid), (u ++ [dquote] ++ rest). split.
    - unfold content. rewrite <- !app_assoc. reflexivity.
    - rewrite !length_app. simpl. lia. }
  assert (H3 : Text.find [dquote] content (Z.of_nat (List.length head))
               = Z.of_nat (List.length head + List.length u)).
  { apply find_first; [lia | |].
    - exists (head ++ u), rest. split.
      + rewrite Hcontent, <- !app_assoc. reflexivity.
      + apply length_app.
    - intros j Hj Hocc. apply occurs_at_char in Hocc.
      rewrite Hcontent in Hocc.
      rewrite nth_error_app2 in Hocc by lia.
      rewrite nth_error_app1 in Hocc by lia.
      apply nth_error_In in Hocc. contradiction. }
  unfold img_src. cbv zeta. rewrite H1.
  destruct (Z.eqb_spec (Z.of_nat (List.length pre)) (-1)); [lia|]. cbn [negb].
  rewrite H2.
  destruct (Z.eqb_spec (Z.of_nat (List.length pre + 4 + List.length mid)) (-1)); [lia|].
  cbn [negb].
  replace (Z.of_nat (List.length pre + 4 + List.length mid) + 5)
    with (Z.of_nat (List.length head)) by lia.
  rewrite H3.
  destruct (Z.eqb_spec (Z.of_nat (List.length head + List.length u)) (-1)); [lia|].
  cbn [negb].
  rewrite Hcontent.
  replace (Z.of_nat (List.length head + List.length u)) with (len head + len u)
    by (unfold len; lia).
  apply slice_middle.
Qed.

(** Without any [<img] the scan finds nothing. *)
Lemma img_src_none (content : str) :
  (forall j, ~ occurs_at (lit "<img") content j) -> img_src content = lit "".
Proof.
  intros Hno.
  assert (H : Text.find (lit "<img") content 0 = -1).
  { apply (find_none (lit "<img") content 0). intros j _. apply Hno. }
  unfold img_src. cbv zeta. rewrite H. reflexivity.
Qed.

Example img_src_sample :
  img_src (lit "<p>Hi</p><img class='a' src=" ++ [dquote] ++ lit "http://example.org/a.png"
           ++ [dquote] ++ lit " alt=''/>")
  = lit "http://example.org/a.png".
Proof. vm_compute. reflexivity. Qed.

Lemma str_eqb_eq (a b : str) : str_eqb a b = true <-> a = b.
Proof.
  unfold str_eqb. destruct (list_eq_dec Z.eq_dec a b); split; congruence.
Qed.

Lemma find_ext {A : Type} (p q : A -> bool) (l : list A) :
  (forall x, p x = q x) -> List.find p l = List.find q l.
Proof.
  intros H. induction l as [|x l IH]; simpl; [reflexivity|].
  rewrite H, IH. reflexivity.
Qed.

Lemma find_first_match {A : Type} (p : A -> bool) (pre : list A) (x : A)
  (post : list A) :
  p x = true -> (forall y, In y pre -> p y = false) ->
  List.find p (pre ++ x :: post) = Some x.
Proof.
  intros Hx Hpre. induction pre as [|y pre IH]; simpl.
  - rewrite Hx. reflexivity.
  - rewrite (Hpre y (or_introl eq_refl)). apply IH.
    intros z Hz. apply Hpre. right. exact Hz.
Qed.

Lemma find_no_match {A : Type} (p : A -> bool) (l : list A) :
  (forall y, In y l -> p y = false) -> List.find p l = None.
Proof.
  intros H. induction l as [|y l IH]; simpl; [reflexivity|].
  rewrite (H y (or_introl eq_refl)). apply IH.
  intros z Hz. apply H. right. exact Hz.
Qed.

(** [e.find(t)] is the first child tagged [t], wherever it stands among the
    children. *)
Lemma find_first_child (e el : ET.Element) (t : str) (pre post : list ET.Element) :
  ET.children e = pre ++ el :: post -> ET.tag el = t ->
  (forall c, In c pre -> ET.tag c <> t) ->
  ET.find e t = Some el.
Proof.
  intros Hchildren Htag Hpre. unfold ET.find. rewrite Hchildren.
  apply find_first_match.
  - apply str_eqb_eq. exact Htag.
  - intros c Hc. destruct (str_eqb (ET.tag c) t) eqn:Heq; [|reflexivity].
    apply str_eqb_eq in Heq. exfalso. exact (Hpre c Hc Heq).
Qed.

Lemma find_no_child (e : ET.Element) (t : str) :
  (forall c, In c (ET.children e) -> ET.tag c <> t) -> ET.find e t = None.
Proof.
  intros Hnone. unfold ET.find. apply find_no_match.
  intros c Hc. destruct (str_eqb (ET.tag c) t) eqn:Heq; [|reflexivity].
  apply str_eqb_eq in Heq. exfalso. exact (Hnone c Hc Heq).
Qed.

(** The [url] attribute of the item's first Media-RSS [content] child;
    empty when there is no such child or attribute. *)
Definition media_url (item : ET.Element) : str :=
  match ET.find item media_content with
  | Some media => ET.get media (lit "url") (lit "")
  | None => lit ""
  end.

(** The [url] attribute of the item's first [enclosure] child when the
    [type] attribute of that child contains ["image"]; empty otherwise. *)
Definition enclosure_image_url (item : ET.Element) : str :=
  match ET.find item (lit "enclosure") with
  | Some enclosure =>
      if contains (lit "image") (ET.get enclosure (lit "type") (lit ""))
      then ET.get enclosure (lit "url") (lit "")
      else lit ""
  | None => lit ""
  end.

Lemma img_src_empty : img_src (lit "") = lit "".
Proof. reflexivity. Qed.

Lemma rss_image_cascade (item : ET.Element) :
  rss_image item
  = if truthy (media_url item) then media_url item
    else if truthy (enclosure_image_url item) then enclosure_image_url item
    else img_src (ET.findtext item content_encoded (lit "")).
Proof.
  unfold rss_image, media_url, enclosure_image_url, img_src.
  change (lit "") with (@nil Z).
  destruct (ET.find item media_content) as [media|];
    [destruct (ET.get media (lit "url") []) as [|c u]|];
    cbn [truthy negb]; try reflexivity;
    (destruct (ET.find item (lit "enclosure")) as [enclosure|];
     [destruct (contains (lit "image") (ET.get enclosure (lit "type") []));
      [destruct (ET.get enclosure (lit "url") []) as [|c' v]|]|];
     cbn [truthy negb]; try reflexivity;
     destruct (ET.findtext item content_encoded []) as [|c'' w]; reflexivity).
Qed.

Lemma rss_item_image (parsedate_to_datetime : str -> result datetime)
  (html5 : str -> option str)
  (item : ET.Element) (name category : str) (e : Entry) :
  rss_item parsedate_to_datetime html5 item name category = Ok (Some e) ->
  image e = rss_image item.
Proof.
  unfold rss_item.
  destruct (rss_date parsedate_to_datetime item) as [pub_date|ex];
    unfold bind; [|discriminate].
  destruct (truthy _ && truthy _); [|discriminate].
  destruct (strip_html html5 _) as [stripped|ex]; [|discriminate].
  intros H. injection H as <-. reflexivity.
Qed.

Definition image_enclosure : ET.Element :=
  ET.Elem (lit "enclosure")
    [(lit "url", lit "http://example.org/enclosure.jpg");
     (lit "type", lit "image/jpeg")] None [].

(** An item whose first [enclosure] is a sound file and whose second is an
    image. *)
Definition audio_then_image_item : ET.Element :=
  ET.Elem (lit "item") [] None
    [ET.Elem (lit "title") [] (Some (lit "Episode")) [];
     ET.Elem (lit "link") [] (Some (lit "http://example.org/episode")) [];
     ET.Elem (lit "enclosure")
       [(lit "url", lit "http://example.org/episode.mp3");
        (lit "type", lit "audio/mpeg")] None [];
     image_enclosure].

(** An item with a Media-RSS [content] element that has no [url] attribute
    (its media is in a child element) and a JPEG [enclosure]. *)
Definition media_without_url_item : ET.Element :=
  ET.Elem (lit "item") [] None
    [ET.Elem (lit "title") [] (Some (lit "Photo")) [];
     ET.Elem (lit "link") [] (Some (lit "http://example.org/photo")) [];
     ET.Elem media_content [(lit "medium", lit "image")] None [];
     image_enclosure].

(** C7, as stated, fails: an [enclosure] whose type contains ["image"] is
    not used when another [enclosure] stands before it, and an item with a
    Media-RSS [content] element and an [enclosure] of type [image/jpeg]
    resolves to the enclosure URL when the [content] element has no [url]
    attribute. *)
Lemma rss_image_first_child_only :
  rss_image audio_then_image_item = lit ""
  /\ ET.findall audio_then_image_item (lit "enclosure")
     = [ET.Elem (lit "enclosure")
          [(lit "url", lit "http://example.org/episode.mp3");
           (lit "type", lit "audio/mpeg")] None [];
        image_enclosure]
  /\ rss_image media_without_url_item = lit "http://example.org/enclosure.jpg"
  /\ ET.findall media_without_url_item media_content
     = [ET.Elem media_content [(lit "medium", lit "image")] None []]
  /\ ET.findall media_without_url_item (lit "enclosure") = [image_enclosure]
  /\ ET.get image_enclosure (lit "type") (lit "") = lit "image/jpeg".
Proof. repeat split; vm_compute; reflexivity. Qed.

(** C7, amended: the image of an RSS item is found in three tiers, the
    first non-empty value winning: the [url] attribute of its first
    Media-RSS [content] child; else the [url] attribute of its first
    [enclosure] child when the [type] attribute of that child contains
    ["image"] (later [enclosure] children are not looked at); else the value
    of the first [src="..."] after the first [<img] in the text of
    [content:encoded], found by substring scan (empty when there is no
    [<img]). In particular an item whose first Media-RSS [content] child
    carries a non-empty URL and which has an [enclosure] of type
    [image/jpeg] resolves to the Media-RSS URL. *)
Theorem rss_image_priority
  (parsedate_to_datetime : str -> result datetime) (html5 : str -> option str)
  (item : ET.Element) (name category : str) :
  let encoded := ET.findtext item content_encoded (lit "") in
  (media_url item <> [] -> rss_image item = media_url item)
  /\ (media_url item = [] -> enclosure_image_url item <> [] ->
      rss_image item = enclosure_image_url item)
  /\ (media_url item = [] -> enclosure_image_url item = [] ->
      forall pre mid u rest,
        encoded = pre ++ lit "<img" ++ mid ++ (lit "src=" ++ [dquote]) ++ u
                  ++ [dquote] ++ rest ->
        (forall j, (j < List.length pre)%nat -> ~ occurs_at (lit "<img") encoded j) ->
        (forall j, (List.length pre <= j < List.length pre + 4 + List.length mid)%nat ->
                   ~ occurs_at (lit "src=" ++ [dquote]) encoded j) ->
        ~ In dquote u ->
        rss_image item = u)
  /\ (media_url item = [] -> enclosure_image_url item = [] ->
      (forall j, ~ occurs_at (lit "<img") encoded j) ->
      rss_image item = lit "")
  /\ (forall media enclosure,
         ET.find item media_content = Some media ->
         ET.find item (lit "enclosure") = Some enclosure ->
         ET.get enclosure (lit "type") (lit "") = lit "image/jpeg" ->
         ET.get media (lit "url") (lit "") <> [] ->
         rss_image item = ET.get media (lit "url") (lit ""))
  /\ (forall e, rss_item parsedate_to_datetime html5 item name category
                = Ok (Some e) ->
                image e = rss_image item)
  /\ (forall pre media post,
         ET.children item = pre ++ media :: post ->
         ET.tag media = media_content ->
         (forall c, In c pre -> ET.tag c <> media_content) ->
         media_url item = ET.get media (lit "url") (lit ""))
  /\ ((forall c, In c (ET.children item) -> ET.tag c <> media_content) ->
      media_url item = lit "")
  /\ (forall pre enclosure post,
         ET.children item = pre ++ enclosure :: post ->
         ET.tag enclosure = lit "enclosure" ->
         (forall c, In c pre -> ET.tag c <> lit "enclosure") ->
         enclosure_image_url item
         = if contains (lit "image") (ET.get enclosure (lit "type") (lit ""))
           then ET.get enclosure (lit "url") (lit "")
           else lit "")
  /\ ((forall c, In c (ET.children item) -> ET.tag c <> lit "enclosure") ->
      enclosure_image_url item = lit "").
Proof.
  intros encoded.
  assert (Hchildren :
    (forall pre media post,
        ET.children item = pre ++ media :: post ->
        ET.tag media = media_content ->
        (forall c, In c pre -> ET.tag c <> media_content) ->
        media_url item = ET.get media (lit "url") (lit ""))
    /\ ((forall c, In c (ET.children item) -> ET.tag c <> media_content) ->
        media_url item = lit "")
    /\ (forall pre enclosure post,
           ET.children item = pre ++ enclosure :: post ->
           ET.tag enclosure = lit "enclosure" ->
           (forall c, In c pre -> ET.tag c <> lit "enclosure") ->
           enclosure_image_url item
           = if contains (lit "image") (ET.get enclosure (lit "type") (lit ""))
             then ET.get enclosure (lit "url") (lit "")
             else lit "")
    /\ ((forall c, In c (ET.children item) -> ET.tag c <> lit "enclosure") ->
        enclosure_image_url item = lit "")).
  { unfold media_url, enclosure_image_url. repeat split.
    - intros pre media post Hc Htag Hpre.
      rewrite (find_first_child item media _ pre post Hc Htag Hpre). reflexivity.
    - intros Hnone. rewrite (find_no_child item _ Hnone). reflexivity.
    - intros pre enclosure post Hc Htag Hpre.
      rewrite (find_first_child item enclosure _ pre post Hc Htag Hpre). reflexivity.
    - intros Hnone. rewrite (find_no_child item _ Hnone). reflexivity. }
  rewrite rss_image_cascade. fold encoded.
  split; [|split; [|split; [|split; [|split; [|split; [|exact Hchildren]]]]]].
  - intros Hm. apply truthy_iff in Hm. rewrite Hm. reflexivity.
  - intros Hm He. rewrite Hm. apply truthy_iff in He. rewrite He. reflexivity.
  - intros Hm He pre mid u rest Henc Himg Hsrc Hu. rewrite Hm, He. simpl.
    rewrite Henc in *. exact (img_src_first pre mid u rest Himg Hsrc Hu).
  - intros Hm He Hno. rewrite Hm, He. simpl. exact (img_src_none encoded Hno).
  - intros media enclosure Hmedia _ _ Hurl. unfold media_url. rewrite Hmedia.
    apply truthy_iff in Hurl. rewrite Hurl. reflexivity.
  - intros e He. rewrite (rss_item_image _ _ _ _ _ _ He). apply rss_image_cascade.
Qed.

(** An item with a Media-RSS [content] element and a JPEG [enclosure]. *)
Definition media_and_enclosure_item : ET.Element :=
  ET.Elem (lit "item") [] None
    [rss_node "title" "Photo"; rss_node "link" "http://example.org/photo";
     ET.Elem (lit "enclosure")
       [(lit "url", lit "http://example.org/enclosure.jpg");
        (lit "type", lit "image/jpeg")] None [];
     ET.Elem media_content
       [(lit "url", lit "http://example.org/media.jpg")] None []].

Lemma rss_image_priority_witness :
  rss_image media_and_enclosure_item = lit "http://example.org/media.jpg".
Proof.
  destruct (rss_image_priority (fun _ => Raise ValueError) html5_xml
                               media_and_enclosure_item (lit "Blog") (lit ""))
    as (_ & _ & _ & _ & Hboth & _).
  rewrite (Hboth (ET.Elem media_content
                    [(lit "url", lit "http://example.org/media.jpg")] None [])
                 (ET.Elem (lit "enclosure")
                    [(lit "url", lit "http://example.org/enclosure.jpg");
                     (lit "type", lit "image/jpeg")] None [])).
  - reflexivity.
  - reflexivity.
  - reflexivity.
  - reflexivity.
  - discriminate.
Defined.

(** * Further code: models *)

(** [html.escape(s)], with [quote=True] as [generate_html] calls it: five
    replacements, [&] first. *)
Definition escape (s : str) : str :=
  let s := replace (lit "&") (lit "&amp;") s in
  let s := replace (lit "<") (lit "&lt;") s in
  let s := replace (lit ">") (lit "&gt;") s in
  let s := replace [dquote] (lit "&quot;") s in
  let s := replace (lit "'") (lit "&#x27;") s in
  s.

(** [a < b] on strings: lexicographic on code points. *)
Fixpoint str_ltb (a b : str) : bool :=
  match a, b with
  | [], [] => false
  | [], _ :: _ => true
  | _ :: _, [] => false
  | x :: a', y :: b' => (x <? y) || ((x =? y) && str_ltb a' b')
  end.

(** [sorted(set(l))] on strings: the distinct elements in ascending order,
    built by inserting each element where it belongs unless it is there. *)
Fixpoint insert_set (x : str) (l : list str) : list str :=
  match l with
  | [] => [x]
  | y :: rest =>
      if str_ltb x y then x :: l
      else if str_eqb x y then l
      else y :: insert_set x rest
  end.

Definition sorted_set (l : list str) : list str := fold_right insert_set [] l.

(** Lines 213 and 214 of [generate_html]. *)
Definition sources (items : list Entry) : list str :=
  sorted_set (List.map source items).
Definition categories (items : list Entry) : list str :=
  sorted_set (List.map category items).

(** A literal of the script, written with a backquote where the script has
    a double quote. *)
Definition tpl (s : string) : str :=
  List.map (fun c => if c =? 96 then dquote else c) (lit s).

Definition nl : str := [10].

Section Rendering.

(** [hashlib.md5(name.encode()).hexdigest()]. *)
Variable md5_hexdigest : str -> str.

Definition generate_color (name : str) : str :=
  let h := int_of 16 (prefix 6 (md5_hexdigest name)) in
  let hue := h mod 360 in
  lit "hsl(" ++ str_of_int hue ++ lit ", 40%, 45%)".

(** One turn of the loop of [generate_html]: the markup appended to
    [items_html] for [item], given its date label. *)
Definition item_html (date_str : str) (item : Entry) : str :=
  let source_color := generate_color (source item) in
  let desc :=
    if truthy (description item) then escape (description item) else lit "" in
  let image_html :=
    if truthy (image item) then
      tpl "<div class=`item-image`><img src=`" ++ escape (image item)
      ++ tpl "` alt=`` loading=`lazy` onerror=`this.parentElement.remove()`></div>"
    else lit "" in
  let author_html :=
    if truthy (author item) then
      tpl "<span class=`item-author`>by " ++ escape (author item) ++ lit "</span>"
    else lit "" in
  nl
  ++ tpl "        <article class=`item` data-source=`" ++ escape (source item)
  ++ tpl "` data-category=`" ++ escape (category item) ++ tpl "`>" ++ nl
  ++ lit "            " ++ image_html ++ nl
  ++ tpl "            <div class=`item-content`>" ++ nl
  ++ tpl "                <div class=`item-meta`>" ++ nl
  ++ tpl "                    <span class=`item-source` style=`color: "
  ++ source_color ++ tpl "`>" ++ escape (source item) ++ lit "</span>" ++ nl
  ++ tpl "                    <span class=`item-date`>" ++ date_str
  ++ lit "</span>" ++ nl
  ++ lit "                </div>" ++ nl
  ++ tpl "                <h2 class=`item-title`><a href=`" ++ escape (link item)
  ++ tpl "` target=`_blank` rel=`noopener`>" ++ escape (title item)
  ++ lit "</a></h2>" ++ nl
  ++ lit "                "
  ++ (if truthy desc then lit "<p class='item-desc'>" ++ desc ++ lit "</p>"
      else lit "") ++ nl
  ++ lit "                " ++ author_html ++ nl
  ++ lit "            </div>" ++ nl
  ++ lit "        </article>".

(** The list [items_html] of [generate_html]: the markup of every item,
    with the labels [generate_html] computes. *)
Definition items_html (clock : nat -> datetime) (items : list Entry)
  : result (list str) :=
  labels <- generate_html clock items ;;
  Ok (List.map (fun p => item_html (fst p) (snd p)) (combine labels items)).

End Rendering.

(** * Further properties *)

(** ** Date labels by elapsed time *)

(** Microseconds from the date to the instant the clock shows. *)
Definition elapsed (clock dt : datetime) : Z :=
  instant (now_utc clock) - instant dt.

Lemma timedelta_of_total (d s us : Z) :
  timedelta_of d s us = timedelta_of 0 0 ((d * 86400 + s) * 1000000 + us).
Proof.
  unfold timedelta_of, us_per_second. f_equal; f_equal; lia.
Qed.

(** The difference of the clock and an aware date is the elapsed time. *)
Lemma sub_now_aware (clock dt : datetime) :
  aware dt -> sub (now_utc clock) dt = Ok (timedelta_of 0 0 (elapsed clock dt)).
Proof.
  unfold aware, sub, elapsed, instant, wall, us_per_second.
  destruct (tzinfo dt) as [off|] eqn:Hoff; [|congruence].
  intros _. simpl tzinfo. cbv iota. rewrite timedelta_of_total. f_equal. f_equal.
  unfold now_utc, toordinal, seconds_of_day. simpl. lia.
Qed.

(** [format_date] on an aware date, with the fields of the difference
    written in terms of the elapsed microseconds. *)
Lemma format_date_elapsed (clock dt : datetime) :
  aware dt ->
  format_date clock (Some dt)
  = let e := elapsed clock dt in
    let d := e / 86400000000 in
    let s := (e mod 86400000000) / 1000000 in
    if d =? 0 then
      if s / 3600 =? 0 then
        Ok (if 0 <? s / 60 then str_of_int (s / 60) ++ lit "m ago" else lit "just now")
      else Ok (str_of_int (s / 3600) ++ lit "h ago")
    else if d =? 1 then Ok (lit "yesterday")
    else if d <? 7 then Ok (str_of_int d ++ lit "d ago")
    else Ok (strftime_b_d_Y dt).
Proof.
  intros Haware. unfold format_date. cbv zeta.
  rewrite (sub_now_aware clock dt Haware).
  unfold bind, timedelta_of, us_per_day, us_per_second.
  cbn [days seconds microseconds].
  replace ((0 * 86400 + 0) * 1000000 + elapsed clock dt) with (elapsed clock dt) by lia.
  reflexivity.
Qed.

(** An entry dated two and a half days after noon on 15 June. *)
Definition entry_3d_ahead : datetime := mk_datetime 2024 6 18 0 0 0 0 (Some 0).

(** C10: for an entry whose date is strictly later than render time
    ([now < dt] holds), the difference [diff = now - dt] has a negative day
    count [diff.days], the whole days (rounded down) of the elapsed time, and
    [format_date] returns [f"{diff.days}d ago"] with that count: a label that
    starts with a minus sign, "-1d ago" for a date up to one day ahead, and
    never "just now", "yesterday" or the absolute date string. *)
Theorem format_date_future (clock dt : datetime)
  (Hlater : lt (now_utc clock) dt = Ok true) :
  exists diff : timedelta,
    sub (now_utc clock) dt = Ok diff
    /\ days diff < 0
    /\ days diff = elapsed clock dt / us_per_day
    /\ format_date clock (Some dt) = Ok (str_of_int (days diff) ++ lit "d ago")
    /\ (exists digits, str_of_int (days diff) = 45 :: digits)
    /\ (- us_per_day <= elapsed clock dt ->
        format_date clock (Some dt) = Ok (lit "-1d ago"))
    /\ format_date clock (Some dt) <> Ok (lit "just now")
    /\ format_date clock (Some dt) <> Ok (lit "yesterday")
    /\ format_date clock (Some dt) <> Ok (strftime_b_d_Y dt).
Proof.
  assert (Haware : aware dt).
  { unfold aware. intros Hnaive. unfold lt, sub, now_utc in Hlater.
    cbn [tzinfo] in Hlater. rewrite Hnaive in Hlater. discriminate. }
  pose proof (sub_now_aware clock dt Haware) as Hsub.
  unfold lt in Hlater. rewrite Hsub in Hlater. unfold bind in Hlater.
  injection Hlater as Hneg. apply Z.ltb_lt in Hneg.
  set (diff := timedelta_of 0 0 (elapsed clock dt)) in *.
  assert (Hdays : days diff = elapsed clock dt / us_per_day).
  { unfold diff, timedelta_of. cbn [days]. f_equal. }
  assert (Hfmt : format_date clock (Some dt)
                 = Ok (str_of_int (days diff) ++ lit "d ago")).
  { unfold format_date. rewrite Hsub. unfold bind.
    destruct (Z.eqb_spec (days diff) 0); [lia|].
    destruct (Z.eqb_spec (days diff) 1); [lia|].
    destruct (Z.ltb_spec (days diff) 7); [reflexivity | lia]. }
  destruct (str_of_int_negative (days diff) Hneg) as [digits Hd].
  exists diff.
  split; [exact Hsub|]. split; [exact Hneg|]. split; [exact Hdays|].
  split; [exact Hfmt|]. split; [exists digits; exact Hd|].
  split; [|rewrite Hfmt, Hd; repeat split].
  - intros He. rewrite Hfmt.
    replace (days diff) with (-1); [reflexivity|].
    rewrite Hdays in *. unfold us_per_day, us_per_second in *.
    Z.div_mod_to_equations. lia.
  - discriminate.
  - discriminate.
  - intros Heq. injection Heq as Heq.
    apply (strftime_first_char dt). rewrite <- Heq. reflexivity.
Qed.

Lemma format_date_future_witness :
  format_date noon_15_june (Some entry_5s_ahead) = Ok (lit "-1d ago")
  /\ format_date noon_15_june (Some entry_3d_ahead) = Ok (lit "-3d ago").
Proof.
  split.
  - destruct (format_date_future noon_15_june entry_5s_ahead eq_refl)
      as (diff & _ & _ & _ & _ & _ & Hday & _).
    apply Hday. vm_compute. discriminate.
  - destruct (format_date_future noon_15_june entry_3d_ahead eq_refl)
      as (diff & Hsub & _ & _ & Hfmt & _).
    vm_compute in Hsub. injection Hsub as <-. exact Hfmt.
Defined.

(** X1: the label of an aware date is decided by the time elapsed since it:
    "just now" under a minute, whole minutes under an hour, whole hours
    under a day, "yesterday" from one day to two, whole days up to seven,
    the absolute date from seven days on, and a negative day count for a
    date in the future. *)
Theorem format_date_by_elapsed (clock dt : datetime) (Haware : aware dt) :
  let e := elapsed clock dt in
  let label := format_date clock (Some dt) in
  (e < 0 -> label = Ok (str_of_int (e / us_per_day) ++ lit "d ago"))
  /\ (0 <= e < 60 * us_per_second -> label = Ok (lit "just now"))
  /\ (60 * us_per_second <= e < 3600 * us_per_second ->
      label = Ok (str_of_int (e / (60 * us_per_second)) ++ lit "m ago"))
  /\ (3600 * us_per_second <= e < us_per_day ->
      label = Ok (str_of_int (e / (3600 * us_per_second)) ++ lit "h ago"))
  /\ (us_per_day <= e < 2 * us_per_day -> label = Ok (lit "yesterday"))
  /\ (2 * us_per_day <= e < 7 * us_per_day ->
      label = Ok (str_of_int (e / us_per_day) ++ lit "d ago"))
  /\ (7 * us_per_day <= e -> label = Ok (strftime_b_d_Y dt)).
Proof.
  intros e label. unfold label. rewrite (format_date_elapsed clock dt Haware).
  fold e. cbv zeta. clearbody e. clear label. unfold us_per_day, us_per_second.
  repeat split; intros He;
    repeat match goal with
      | |- context [Z.eqb ?a ?b] => destruct (Z.eqb_spec a b)
      | |- context [Z.ltb ?a ?b] => destruct (Z.ltb_spec a b)
      end;
    try (exfalso; Z.div_mod_to_equations; lia); try reflexivity;
    do 3 f_equal; Z.div_mod_to_equations; lia.
Qed.

Lemma format_date_by_elapsed_witness :
  format_date noon_15_june (Some entry_10min) = Ok (lit "10m ago")
  /\ format_date noon_15_june (Some entry_5s_ahead) = Ok (lit "-1d ago").
Proof.
  assert (H10 : aware entry_10min) by discriminate.
  assert (H5 : aware entry_5s_ahead) by discriminate.
  split.
  - destruct (format_date_by_elapsed noon_15_june entry_10min H10)
      as (_ & _ & Hmin & _).
    rewrite Hmin; [reflexivity | vm_compute; split; congruence].
  - destruct (format_date_by_elapsed noon_15_june entry_5s_ahead H5) as (Hfut & _).
    rewrite Hfut; [reflexivity | vm_compute; reflexivity].
Defined.

(** X2: [format_date] raises, with [TypeError], exactly on a naive date; on
    an aware date and on no date it returns a label. *)
Theorem format_date_raises_iff_naive (clock : datetime) (dt : option datetime) :
  (format_date clock dt = Raise TypeError
   <-> exists d, dt = Some d /\ tzinfo d = None)
  /\ (format_date clock dt <> Raise TypeError
      -> exists label, format_date clock dt = Ok label).
Proof.
  destruct dt as [d|].
  - destruct (tzinfo d) as [off|] eqn:Htz.
    + assert (Haware : aware d) by (unfold aware; congruence).
      assert (Hok : exists label, format_date clock (Some d) = Ok label).
      { rewrite (format_date_elapsed clock d Haware). cbv zeta.
        repeat match goal with
          | |- context [if ?b then _ else _] => destruct b
          end; eexists; reflexivity. }
      destruct Hok as [label Hlabel]. split.
      * rewrite Hlabel. split; [discriminate|].
        intros (d' & Hd' & Hnaive). injection Hd' as <-. congruence.
      * intros _. exists label. exact Hlabel.
    + rewrite (format_date_naive clock d Htz). split.
      * split; [intros _; exists d; split; [reflexivity | exact Htz] | reflexivity].
      * intros H. exfalso. apply H. reflexivity.
  - split.
    + split; [discriminate | intros (d & Hd & _); discriminate].
    + intros _. exists (lit ""). reflexivity.
Qed.

(** ** When the sort returns *)

(** The keys of the list are all naive or all aware. *)
Definition same_kind (l : list Entry) : Prop :=
  forall x y, In x l -> In y l -> naive_key x = naive_key y.

Lemma lt_same_kind (x y : Entry) :
  naive_key x = naive_key y ->
  lt (sort_key x) (sort_key y) = Ok (key_instant x <? key_instant y).
Proof.
  unfold naive_key. intros Hkind.
  destruct (lt (sort_key x) (sort_key y)) as [r|e] eqn:Hlt.
  - rewrite (lt_ok _ _ _ Hlt). reflexivity.
  - exfalso. unfold lt, sub in Hlt.
    destruct (tzinfo (sort_key x)), (tzinfo (sort_key y)); simpl in Hlt;
      discriminate.
Qed.

Lemma insert_desc_same_kind (x : Entry) (l : list Entry) :
  (forall y, In y l -> naive_key x = naive_key y) ->
  insert_desc x l = Ok (insert_instant x l).
Proof.
  induction l as [|y l IH]; intros Hkind; simpl; [reflexivity|].
  rewrite (lt_same_kind x y) by (apply Hkind; left; reflexivity).
  unfold bind. destruct (key_instant x <? key_instant y); [|reflexivity].
  rewrite IH; [reflexivity|]. intros z Hz. apply Hkind. right. exact Hz.
Qed.

Lemma sort_reverse_of_same_kind (l : list Entry) :
  same_kind l -> sort_reverse l = Ok (sort_instant l).
Proof.
  induction l as [|x l IH]; intros Hkind; simpl; [reflexivity|].
  rewrite IH.
  - unfold bind. apply insert_desc_same_kind. intros y Hy. apply Hkind.
    + left. reflexivity.
    + right. apply (Permutation_in _ (Permutation_sym (sort_instant_perm l)) Hy).
  - intros a b Ha Hb. apply Hkind; right; assumption.
Qed.

(** X3: the sort of [main] returns exactly when the date keys are all naive
    or all aware (the key of an undated entry is aware); otherwise a naive
    key meets an aware one and the sort raises [TypeError]. *)
Theorem sort_reverse_returns_iff (l : list Entry) :
  ((exists sorted, sort_reverse l = Ok sorted) <-> same_kind l)
  /\ (sort_reverse l = Raise TypeError <-> ~ same_kind l).
Proof.
  assert (Hok : (exists sorted, sort_reverse l = Ok sorted) <-> same_kind l).
  { split.
    - intros [sorted Hsort]. exact (sort_reverse_same_kind l sorted Hsort).
    - intros Hkind. exists (sort_instant l). exact (sort_reverse_of_same_kind l Hkind). }
  split; [exact Hok|]. split.
  - intros Hraise Hkind. apply Hok in Hkind. destruct Hkind as [s Hs]. congruence.
  - intros Hmixed. destruct (sort_reverse l) as [s|e] eqn:Hsort.
    + exfalso. apply Hmixed. apply Hok. exists s. reflexivity.
    + rewrite (sort_reverse_raises l e Hsort). reflexivity.
Qed.

(** ** The aggregate *)

Lemma insert_instant_head (x : Entry) (l : list Entry) :
  Forall (key_ge x) l -> insert_instant x l = x :: l.
Proof.
  intros H. destruct l as [|y l]; [reflexivity|]. simpl.
  apply Forall_inv in H. unfold key_ge in H.
  destruct (Z.ltb_spec (key_instant x) (key_instant y)); [lia | reflexivity].
Qed.

(** A list in descending key order is left as it is. *)
Lemma sort_instant_fixed (l : list Entry) :
  StronglySorted key_ge l -> sort_instant l = l.
Proof.
  induction 1 as [|x l Hs IH Hx]; simpl; [reflexivity|].
  rewrite IH. apply insert_instant_head. exact Hx.
Qed.

Lemma sorted_firstn (n : nat) (l : list Entry) :
  StronglySorted key_ge l -> StronglySorted key_ge (firstn n l).
Proof.
  intros Hs. revert n. induction Hs as [|x l Hs IH Hx]; intros n.
  - rewrite firstn_nil. constructor.
  - destruct n as [|n]; simpl; [constructor|].
    constructor; [apply IH|].
    rewrite Forall_forall in *. intros y Hy. apply Hx. exact (In_firstn _ _ _ Hy).
Qed.

Lemma aggregate_ok (l kept : list Entry) :
  aggregate l = Ok kept -> kept = firstn MAX_ITEMS (sort_instant l).
Proof.
  unfold aggregate. intros H.
  destruct (sort_reverse l) as [s|] eqn:Hsort; unfold bind in H; [|discriminate].
  apply sort_reverse_ok in Hsort. subst s. congruence.
Qed.

Lemma aggregate_shape (l kept : list Entry) :
  aggregate l = Ok kept ->
  List.length kept = Nat.min MAX_ITEMS (List.length l)
  /\ StronglySorted key_ge kept.
Proof.
  intros Hagg. apply aggregate_ok in Hagg. subst kept. split.
  - rewrite length_firstn, (Permutation_length (sort_instant_perm l)). reflexivity.
  - apply sorted_firstn. apply sort_instant_sorted.
Qed.

(** X4: whenever the sort and truncation return, the result is in
    descending key order and has [min(200, n)] of the [n] entries; with at
    most 200 entries it is a permutation of them: nothing is dropped and
    duplicates are kept. *)
Theorem aggregate_size (l kept : list Entry) (Hagg : aggregate l = Ok kept) :
  List.length kept = Nat.min MAX_ITEMS (List.length l)
  /\ StronglySorted key_ge kept
  /\ ((List.length l <= MAX_ITEMS)%nat -> Permutation l kept).
Proof.
  destruct (aggregate_shape l kept Hagg) as [Hlen Hsorted].
  split; [exact Hlen|]. split; [exact Hsorted|].
  apply aggregate_ok in Hagg. subst kept.
  pose proof (sort_instant_perm l) as Hperm.
  intros Hsmall. rewrite firstn_all2; [exact Hperm|].
  rewrite <- (Permutation_length Hperm). exact Hsmall.
Qed.

Lemma aggregate_size_witness :
  List.length [dated_2024; dated_2023; undated_a; undated_b]
  = Nat.min MAX_ITEMS (List.length mixed_dates)
  /\ StronglySorted key_ge [dated_2024; dated_2023; undated_a; undated_b]
  /\ ((List.length mixed_dates <= MAX_ITEMS)%nat ->
      Permutation mixed_dates [dated_2024; dated_2023; undated_a; undated_b]).
Proof.
  apply (aggregate_size mixed_dates). reflexivity.
Defined.

(** X5: sorting and truncating again changes nothing. *)
Theorem aggregate_idempotent (l kept : list Entry) (Hagg : aggregate l = Ok kept) :
  aggregate kept = Ok kept.
Proof.
  assert (Hkind : same_kind kept).
  { unfold aggregate in Hagg.
    destruct (sort_reverse l) as [s|] eqn:Hsort; unfold bind in Hagg; [|discriminate].
    assert (Hkept : kept = firstn MAX_ITEMS s) by congruence.
    pose proof (sort_reverse_same_kind l s Hsort) as Hl.
    apply sort_reverse_ok in Hsort. subst s kept.
    intros x y Hx Hy. apply Hl;
      apply (Permutation_in _ (Permutation_sym (sort_instant_perm l)));
      apply (In_firstn MAX_ITEMS); assumption. }
  destruct (aggregate_shape l kept Hagg) as [Hlen Hsorted].
  unfold aggregate. rewrite (sort_reverse_of_same_kind kept Hkind).
  unfold bind. rewrite (sort_instant_fixed kept Hsorted).
  rewrite firstn_all2; [reflexivity|]. rewrite Hlen. apply Nat.le_min_l.
Qed.

Lemma aggregate_idempotent_witness :
  aggregate (repeat dated_2024 40 ++ repeat dated_2023 150 ++ [undated_a]
             ++ repeat undated_b 9)
  = Ok (repeat dated_2024 40 ++ repeat dated_2023 150 ++ [undated_a]
        ++ repeat undated_b 9).
Proof.
  apply (aggregate_idempotent busy_day). vm_compute. reflexivity.
Defined.

(** ** Runs that complete *)

Lemma format_date_returns (clock d : datetime) :
  aware d -> exists label, format_date clock (Some d) = Ok label.
Proof.
  intros Haware. rewrite (format_date_elapsed clock d Haware). cbv zeta.
  repeat match goal with
    | |- context [if ?b then _ else _] => destruct b
    end; eexists; reflexivity.
Qed.

Lemma date_labels_returns (clock : nat -> datetime) (items : list Entry) :
  dates_aware items ->
  forall k, exists labels,
    date_labels clock k items = Ok labels
    /\ List.length labels = List.length items.
Proof.
  induction items as [|item items IH]; intros Haware k; simpl.
  - exists []. split; reflexivity.
  - assert (Hitem : exists label, format_date (clock k) (date item) = Ok label).
    { destruct (date item) as [d|] eqn:Hd.
      - apply format_date_returns. apply (Haware item d); [left; reflexivity | exact Hd].
      - exists (lit ""). reflexivity. }
    destruct Hitem as [label ->].
    destruct (IH (fun x d Hx => Haware x d (or_intror Hx)) (S k))
      as (labels & -> & Hlen).
    exists (label :: labels). split; [reflexivity | simpl; congruence].
Qed.

Section Completion.

Variable request : Type.
Variable fromstring : str -> option ET.Element.
Variable parsedate_to_datetime : str -> result datetime.
Variable fromisoformat : str -> option datetime.
Variable html5 : str -> option str.
Variable Request : str -> result request.
Variable urlopen_read : request -> result (list Z).
Variable decode : list Z -> str.

(** X6: once the loop over the feeds has ended without an exception and
    every date it collected is timezone-aware, the rest of [main] returns:
    the sort, the truncation and the date labels, one label for each of the
    [min(200, n)] entries kept. An exception that leaves the loop over the
    feeds leaves [main]. *)
Theorem main_completes (feeds : list Feed) (clock : nat -> datetime) :
  (forall all_items,
      fetch_all fromstring parsedate_to_datetime fromisoformat html5
                Request urlopen_read decode feeds = Ok all_items ->
      dates_aware all_items ->
      exists labels,
        main fromstring parsedate_to_datetime fromisoformat html5
             Request urlopen_read decode feeds clock = Ok labels
        /\ List.length labels = Nat.min MAX_ITEMS (List.length all_items))
  /\ (forall ex,
         fetch_all fromstring parsedate_to_datetime fromisoformat html5
                   Request urlopen_read decode feeds = Raise ex ->
         main fromstring parsedate_to_datetime fromisoformat html5
              Request urlopen_read decode feeds clock = Raise ex).
Proof.
  split.
  - intros all_items Hfetch Haware. unfold main, aggregate. rewrite Hfetch.
    unfold bind at 1.
    rewrite (sort_reverse_aware all_items Haware). unfold bind.
    assert (Hkept : dates_aware (firstn MAX_ITEMS (sort_instant all_items))).
    { intros x d Hx. apply Haware.
      apply (Permutation_in _ (Permutation_sym (sort_instant_perm all_items))).
      exact (In_firstn _ _ _ Hx). }
    destruct (date_labels_returns clock _ Hkept 0%nat) as (labels & Hlabels & Hlen).
    exists labels. split; [exact Hlabels|].
    rewrite Hlen, length_firstn, (Permutation_length (sort_instant_perm all_items)).
    reflexivity.
  - intros ex Hfetch. unfold main. rewrite Hfetch. reflexivity.
Qed.

End Completion.

Lemma main_completes_witness :
  exists labels,
    main (fun _ => Some three_items) (fun _ => Raise ValueError) (fun _ => None)
         html5_xml (fun url => Ok url) (fun _ => Ok three_items_text)
         (fun raw => raw) [blog_feed] (fun _ => noon_15_june)
    = Ok labels
    /\ List.length labels = Nat.min MAX_ITEMS (List.length [first_entry]).
Proof.
  apply (proj1 (main_completes str (fun _ => Some three_items)
                  (fun _ => Raise ValueError) (fun _ => None) html5_xml
                  (fun url => Ok url) (fun _ => Ok three_items_text)
                  (fun raw => raw) [blog_feed] (fun _ => noon_15_june))).
  - vm_compute. reflexivity.
  - apply dates_awareb_sound. vm_compute. reflexivity.
Defined.

(** ** Fields of the entries *)

Section EntryFields.

Variable request : Type.
Variable fromstring : str -> option ET.Element.
Variable parsedate_to_datetime : str -> result datetime.
Variable fromisoformat : str -> option datetime.
Variable html5 : str -> option str.

(** An entry as a feed named [source_name], of category [source_category],
    must carry it. *)
Definition labelled (source_name source_category : str) (e : Entry) : Prop :=
  source e = source_name /\ category e = source_category
  /\ (List.length (description e) <= 300)%nat.

Lemma rss_item_labelled (item : ET.Element) (source_name source_category : str)
  (e : Entry) :
  rss_item parsedate_to_datetime html5 item source_name source_category
  = Ok (Some e) ->
  labelled source_name source_category e.
Proof.
  unfold rss_item, labelled.
  destruct (rss_date parsedate_to_datetime item) as [pub_date|ex];
    unfold bind; [|discriminate].
  destruct (truthy _ && truthy _); [|discriminate].
  destruct (strip_html html5 _) as [stripped|ex]; [|discriminate].
  remember (prefix 300 stripped) as desc eqn:Hdesc.
  intros H. injection H as <-. cbn [source category description].
  split; [reflexivity|]. split; [reflexivity|].
  rewrite Hdesc. apply firstn_le_length.
Qed.

Lemma atom_entry_labelled (entry : ET.Element) (source_name source_category : str)
  (e : Entry) :
  atom_entry fromisoformat html5 entry source_name source_category = Ok (Some e) ->
  labelled source_name source_category e /\ image e = [].
Proof.
  unfold atom_entry, labelled. destruct (truthy _ && truthy _); [|discriminate].
  destruct (strip_html html5 _) as [stripped|ex]; unfold bind; [|discriminate].
  remember (prefix 300 stripped) as desc eqn:Hdesc.
  intros H. injection H as <-. cbn [source category description image].
  split; [|reflexivity].
  split; [reflexivity|]. split; [reflexivity|].
  rewrite Hdesc. apply firstn_le_length.
Qed.

Lemma parse_feed_labelled (xml_text source_name source_category : str)
  (entries : list Entry) (e : Entry) :
  parse_feed fromstring parsedate_to_datetime fromisoformat html5
             xml_text source_name source_category = Ok entries ->
  In e entries ->
  labelled source_name source_category e
  /\ (is_atom xml_text = true -> image e = []).
Proof.
  unfold parse_feed, parse_atom, parse_rss.
  destruct (is_atom xml_text); destruct (fromstring xml_text) as [root|];
    intros Hparse Hin;
    try (injection Hparse as <-; contradiction);
    apply (collect_In _ _ _ Hparse) in Hin; destruct Hin as (node & _ & Hnode).
  - apply atom_entry_labelled in Hnode. destruct Hnode as [Hl Himg].
    split; [exact Hl | intros _; exact Himg].
  - apply rss_item_labelled in Hnode. split; [exact Hnode | discriminate].
Qed.

(** X7: every entry parsed from a feed carries that feed's name and
    category and a description of at most 300 characters; an entry of an
    Atom feed has no image. *)
Theorem parsed_entry_fields (xml_text source_name source_category : str)
  (entries : list Entry) (e : Entry)
  (Hparse : parse_feed fromstring parsedate_to_datetime fromisoformat html5
                       xml_text source_name source_category = Ok entries)
  (Hin : In e entries) :
  source e = source_name
  /\ category e = source_category
  /\ (List.length (description e) <= 300)%nat
  /\ (is_atom xml_text = true -> image e = []).
Proof.
  destruct (parse_feed_labelled _ _ _ _ _ Hparse Hin) as ((Hs & Hc & Hd) & Himg).
  repeat split; assumption.
Qed.

Variable Request : str -> result request.
Variable urlopen_read : request -> result (list Z).
Variable decode : list Z -> str.

(** X8: every collected entry comes from a feed of the configuration whose
    fetch succeeded, and carries the name and category of that feed; a feed
    whose fetch failed with [URLError] or [HTTPError] contributes nothing,
    and the entries of the feeds follow one another in the order of the
    configuration. *)
Theorem fetch_all_provenance (feeds more : list Feed) :
  (forall all_items e,
      fetch_all fromstring parsedate_to_datetime fromisoformat html5
                Request urlopen_read decode feeds = Ok all_items ->
      In e all_items ->
      exists feed xml_text,
        In feed feeds
        /\ fetch_feed Request urlopen_read decode (feed_url feed)
           = Ok (Some xml_text)
        /\ source e = feed_name feed /\ category e = feed_category feed)
  /\ ((forall feed, In feed feeds ->
         fetch_feed Request urlopen_read decode (feed_url feed) = Ok None) ->
      fetch_all fromstring parsedate_to_datetime fromisoformat html5
                Request urlopen_read decode feeds
      = Ok [])
  /\ fetch_all fromstring parsedate_to_datetime fromisoformat html5
               Request urlopen_read decode (feeds ++ more)
     = (first <- fetch_all fromstring parsedate_to_datetime fromisoformat html5
                           Request urlopen_read decode feeds ;;
        second <- fetch_all fromstring parsedate_to_datetime fromisoformat html5
                            Request urlopen_read decode more ;;
        Ok (first ++ second)).
Proof.
  split; [|split].
  - induction feeds as [|feed feeds IH]; intros all_items e Hfetch He.
    + injection Hfetch as <-. contradiction.
    + apply fetch_all_cons in Hfetch.
      destruct Hfetch as (items & rest & -> & Hrest & Hitems).
      apply in_app_or in He. destruct He as [He | He].
      * destruct Hitems as [[_ ->] | (xml_text & Hfeed & Hparse)]; [contradiction|].
        destruct (parse_feed_labelled _ _ _ _ _ Hparse He) as ((Hs & Hc & _) & _).
        exists feed, xml_text. repeat split; auto. left. reflexivity.
      * destruct (IH rest e Hrest He) as (f & x & Hf & Hx & Hsc).
        exists f, x. split; [right; exact Hf | split; assumption].
  - induction feeds as [|feed feeds IH]; intros Hnone; simpl; [reflexivity|].
    rewrite (Hnone feed (or_introl eq_refl)). simpl. apply IH.
    intros f Hf. apply Hnone. right. exact Hf.
  - induction feeds as [|feed feeds IH]; simpl.
    + destruct (fetch_all _ _ _ _ _ _ _ more); reflexivity.
    + destruct (fetch_feed Request urlopen_read decode (feed_url feed))
        as [[xml_text|]|ex]; simpl; [|exact IH|reflexivity].
      destruct (parse_feed _ _ _ _ xml_text _ _) as [items|ex]; simpl;
        [|reflexivity].
      rewrite IH.
      destruct (fetch_all _ _ _ _ _ _ _ feeds) as [first|ex]; simpl;
        [|reflexivity].
      destruct (fetch_all _ _ _ _ _ _ _ more) as [second|ex]; simpl;
        [|reflexivity].
      rewrite app_assoc. reflexivity.
Qed.

End EntryFields.

Lemma parsed_entry_fields_witness :
  source first_entry = lit "Blog"
  /\ category first_entry = lit "tech"
  /\ (List.length (description first_entry) <= 300)%nat
  /\ (is_atom three_items_text = true -> image first_entry = []).
Proof.
  apply (parsed_entry_fields (fun _ => Some three_items) (fun _ => Raise ValueError)
                             (fun _ => None) html5_xml three_items_text
                             (lit "Blog") (lit "tech") [first_entry]).
  - vm_compute. reflexivity.
  - left. reflexivity.
Defined.

Lemma fetch_all_provenance_witness :
  exists feed xml_text,
    In feed [blog_feed]
    /\ fetch_feed (fun url : str => Ok url) (fun _ => Ok three_items_text)
                  (fun raw => raw) (feed_url feed)
       = Ok (Some xml_text)
    /\ source first_entry = feed_name feed
    /\ category first_entry = feed_category feed.
Proof.
  apply (proj1 (fetch_all_provenance str (fun _ => Some three_items)
                  (fun _ => Raise ValueError) (fun _ => None) html5_xml
                  (fun url => Ok url) (fun _ => Ok three_items_text)
                  (fun raw => raw) [blog_feed] []) [first_entry]).
  - vm_compute. reflexivity.
  - left. reflexivity.
Defined.

(** ** The link of an Atom entry *)

(** A [link] element. *)
Definition is_link (c : ET.Element) : bool := str_eqb (ET.tag c) (atom "link").

(** A [link] element whose [rel] attribute is ["alternate"]. *)
Definition is_alternate_link (c : ET.Element) : bool :=
  is_link c && str_eqb (ET.get c (lit "rel") (lit "")) (lit "alternate").

Lemma find_attr_alternate (entry : ET.Element) :
  ET.find_attr entry (atom "link") (lit "rel") (lit "alternate")
  = List.find is_alternate_link (ET.children entry).
Proof.
  unfold ET.find_attr. apply find_ext. intros c.
  unfold is_alternate_link, is_link, ET.get.
  destruct (List.find _ (ET.attrib c)); reflexivity.
Qed.

Section AtomLink.

Variable fromisoformat : str -> option datetime.
Variable html5 : str -> option str.

(** X9: the link of an Atom entry is the [href] of its first [link] child
    with [rel="alternate"], wherever that child stands among the [link]
    children; without such a child it is the [href] of the first [link]
    child; an entry without [link] child produces no Entry. *)
Theorem atom_link_prefers_alternate (entry el : ET.Element)
  (pre post : list ET.Element) (source_name source_category : str)
  (Hchildren : ET.children entry = pre ++ el :: post) :
  (is_alternate_link el = true ->
   (forall c, In c pre -> is_alternate_link c = false) ->
   forall e, atom_entry fromisoformat html5 entry source_name source_category
             = Ok (Some e) ->
             link e = ET.get el (lit "href") (lit ""))
  /\ (is_link el = true ->
      (forall c, In c pre -> is_link c = false) ->
      (forall c, In c (ET.children entry) -> is_alternate_link c = false) ->
      forall e, atom_entry fromisoformat html5 entry source_name source_category
                = Ok (Some e) ->
                link e = ET.get el (lit "href") (lit ""))
  /\ ((forall c, In c (ET.children entry) -> is_link c = false) ->
      atom_entry fromisoformat html5 entry source_name source_category = Ok None).
Proof.
  split; [|split].
  - intros Hel Hpre e He. apply atom_entry_some in He. destruct He as (_ & -> & _).
    unfold atom_link. rewrite find_attr_alternate, Hchildren.
    rewrite (find_first_match _ pre el post Hel Hpre). reflexivity.
  - intros Hel Hpre Hnone e He. apply atom_entry_some in He.
    destruct He as (_ & -> & _).
    unfold atom_link. rewrite find_attr_alternate.
    rewrite (find_no_match _ _ Hnone). unfold ET.find. rewrite Hchildren.
    fold is_link.
    change (fun c => str_eqb (ET.tag c) (atom "link")) with is_link.
    rewrite (find_first_match is_link pre el post Hel Hpre). reflexivity.
  - intros Hnone. apply atom_entry_incomplete. right.
    unfold atom_link. rewrite find_attr_alternate.
    rewrite find_no_match.
    + unfold ET.find.
      change (fun c => str_eqb (ET.tag c) (atom "link")) with is_link.
      rewrite (find_no_match is_link _ Hnone). reflexivity.
    + intros c Hc. unfold is_alternate_link. rewrite (Hnone c Hc). reflexivity.
Qed.

End AtomLink.

(** An entry whose [rel="self"] link stands before its alternate link. *)
Definition self_link : ET.Element :=
  ET.Elem (atom "link")
    [(lit "rel", lit "self"); (lit "href", lit "http://example.org/feed")] None [].
Definition page_link : ET.Element :=
  ET.Elem (atom "link")
    [(lit "rel", lit "alternate"); (lit "href", lit "http://example.org/post")] None [].
Definition two_links_entry : ET.Element :=
  ET.Elem (atom "entry") [] None
    [ET.Elem (atom "title") [] (Some (lit "Post")) []; self_link; page_link].

Lemma atom_link_prefers_alternate_witness :
  link (mk_Entry (lit "Post") (lit "http://example.org/post") (lit "") None
                 (lit "Blog") (lit "") (lit "") (lit ""))
  = ET.get page_link (lit "href") (lit "").
Proof.
  apply (proj1 (atom_link_prefers_alternate (fun _ => None) html5_xml
                  two_links_entry page_link
                  [ET.Elem (atom "title") [] (Some (lit "Post")) []; self_link] []
                  (lit "Blog") (lit "") eq_refl)).
  - reflexivity.
  - intros c [<- | [<- | []]]; reflexivity.
  - reflexivity.
Defined.

(** ** Tag removal *)

(** A text without angle brackets. *)
Definition plain (s : str) : Prop := ~ In 60 s /\ ~ In 62 s.

Lemma plain_cons (c : Z) (s : str) :
  plain (c :: s) -> c <> 60 /\ c <> 62 /\ plain s.
Proof.
  intros [H60 H62]. repeat split.
  - intros ->. apply H60. left. reflexivity.
  - intros ->. apply H62. left. reflexivity.
  - intros H. apply H60. right. exact H.
  - intros H. apply H62. right. exact H.
Qed.

Lemma remove_tags_plain_app (a rest : str) :
  plain a -> remove_tags false (a ++ rest) = a ++ remove_tags false rest.
Proof.
  induction a as [|c a IH]; intros Hplain; [reflexivity|].
  apply plain_cons in Hplain. destruct Hplain as (H60 & H62 & Ha).
  simpl. apply Z.eqb_neq in H60, H62. rewrite H60, H62. simpl.
  rewrite (IH Ha). reflexivity.
Qed.

(** Inside a tag everything up to the next [>] is dropped. *)
Lemma remove_tags_inside (t rest : str) :
  ~ In 62 t -> remove_tags true (t ++ 62 :: rest) = remove_tags false rest.
Proof.
  induction t as [|c t IH]; intros Hno; simpl.
  - reflexivity.
  - assert (Hc : c <> 62) by (intros ->; apply Hno; left; reflexivity).
    apply Z.eqb_neq in Hc. rewrite Hc.
    destruct (c =? 60); simpl; apply IH; intros H; apply Hno; right; exact H.
Qed.

(** Inside a tag that is never closed everything is dropped. *)
Lemma remove_tags_unclosed (t : str) : ~ In 62 t -> remove_tags true t = [].
Proof.
  induction t as [|c t IH]; intros Hno; simpl; [reflexivity|].
  assert (Hc : c <> 62) by (intros ->; apply Hno; left; reflexivity).
  apply Z.eqb_neq in Hc. rewrite Hc.
  destruct (c =? 60); simpl; apply IH; intros H; apply Hno; right; exact H.
Qed.

(** X10: tag removal keeps a text without angle brackets as it is, and
    removes a tag, from its [<] to the next [>], whatever stands between
    them (another [<] included), carrying on after it. *)
Theorem remove_tags_drops_tag (a t rest : str)
  (Ha : plain a) (Ht : ~ In 62 t) :
  remove_tags false a = a
  /\ remove_tags false (a ++ [60] ++ t ++ [62] ++ rest)
     = a ++ remove_tags false rest.
Proof.
  split.
  - rewrite <- (app_nil_r a) at 1. rewrite (remove_tags_plain_app a [] Ha).
    simpl. apply app_nil_r.
  - rewrite (remove_tags_plain_app a _ Ha). f_equal.
    change (remove_tags false ([60] ++ t ++ [62] ++ rest))
      with (remove_tags true (t ++ 62 :: rest)).
    exact (remove_tags_inside t rest Ht).
Qed.

Lemma remove_tags_drops_tag_witness :
  remove_tags false (lit "a b") = lit "a b"
  /\ remove_tags false (lit "a b" ++ [60] ++ lit "i class='<'" ++ [62] ++ lit "c</i>")
     = lit "a b" ++ remove_tags false (lit "c</i>").
Proof.
  apply (remove_tags_drops_tag (lit "a b") (lit "i class='<'") (lit "c</i>")).
  - split; vm_compute; intros H; repeat (destruct H as [H | H]; [discriminate|]);
      exact H.
  - vm_compute. intros H. repeat (destruct H as [H | H]; [discriminate|]). exact H.
Defined.

(** X11: a [<] that is never closed swallows the rest of the text: what
    follows it does not reach the output. *)
Theorem strip_html_unclosed_tag (html5 : str -> option str) (a t : str)
  (Ha : plain a) (Ht : ~ In 62 t) :
  strip_html html5 (a ++ [60] ++ t)
  = (decoded <- unescape html5 a ;; Ok (strip decoded)).
Proof.
  unfold strip_html. rewrite (remove_tags_plain_app a _ Ha).
  change (remove_tags false ([60] ++ t)) with (remove_tags true t).
  rewrite (remove_tags_unclosed t Ht), app_nil_r. reflexivity.
Qed.

Lemma strip_html_unclosed_tag_witness :
  strip_html html5_xml (lit "1 " ++ [60] ++ lit " 2 and more") = Ok (lit "1").
Proof.
  rewrite (strip_html_unclosed_tag html5_xml (lit "1 ") (lit " 2 and more")).
  - reflexivity.
  - split; vm_compute; intros H; repeat (destruct H as [H | H]; [discriminate|]);
      exact H.
  - vm_compute. intros H. repeat (destruct H as [H | H]; [discriminate|]). exact H.
Defined.

(** ** Escaping *)

(** Replacing a one-character string acts on each character. *)
Lemma replace_fuel_char (c : Z) (new s : str) (fuel : nat) :
  (List.length s <= fuel)%nat ->
  replace_fuel fuel [c] new s
  = flat_map (fun x => if c =? x then new else [x]) s.
Proof.
  revert fuel. induction s as [|x s IH]; intros fuel Hfuel.
  - apply replace_fuel_nil.
  - destruct fuel as [|fuel]; [simpl in Hfuel; lia|].
    simpl. rewrite andb_true_r.
    assert (Hs : (List.length s <= fuel)%nat) by (simpl in Hfuel; lia).
    destruct (c =? x); rewrite (IH fuel Hs); reflexivity.
Qed.

Lemma replace_char (c : Z) (new s : str) :
  replace [c] new s = flat_map (fun x => if c =? x then new else [x]) s.
Proof. unfold replace. apply replace_fuel_char. lia. Qed.

Lemma flat_map_flat_map {A B C : Type} (f : A -> list B) (g : B -> list C)
  (l : list A) :
  flat_map g (flat_map f l) = flat_map (fun x => flat_map g (f x)) l.
Proof.
  induction l as [|x l IH]; simpl; [reflexivity|].
  rewrite flat_map_app, IH. reflexivity.
Qed.

(** What [html.escape] writes for one character. *)
Definition escape_char (x : Z) : str :=
  if x =? 38 then lit "&amp;"
  else if x =? 60 then lit "&lt;"
  else if x =? 62 then lit "&gt;"
  else if x =? 34 then lit "&quot;"
  else if x =? 39 then lit "&#x27;"
  else [x].

(** The five replacements amount to escaping each character on its own. *)
Lemma escape_flat_map (s : str) : escape s = flat_map escape_char s.
Proof.
  unfold escape.
  change (lit "&") with [38]. change (lit "<") with [60].
  change (lit ">") with [62]. change [dquote] with [34]. change (lit "'") with [39].
  rewrite !replace_char, !flat_map_flat_map.
  apply flat_map_ext. intros x. unfold escape_char.
  destruct (Z.eqb_spec x 38) as [-> | H38]; [reflexivity|].
  destruct (Z.eqb_spec x 60) as [-> | H60]; [reflexivity|].
  destruct (Z.eqb_spec x 62) as [-> | H62]; [reflexivity|].
  destruct (Z.eqb_spec x 34) as [-> | H34]; [reflexivity|].
  destruct (Z.eqb_spec x 39) as [-> | H39]; [reflexivity|].
  assert (E38 : (38 =? x) = false) by (apply Z.eqb_neq; congruence).
  assert (E60 : (60 =? x) = false) by (apply Z.eqb_neq; congruence).
  assert (E62 : (62 =? x) = false) by (apply Z.eqb_neq; congruence).
  assert (E34 : (34 =? x) = false) by (apply Z.eqb_neq; congruence).
  assert (E39 : (39 =? x) = false) by (apply Z.eqb_neq; congruence).
  rewrite E38. cbn [flat_map app]. rewrite E60. cbn [flat_map app].
  rewrite E62. cbn [flat_map app]. rewrite E34. cbn [flat_map app].
  rewrite E39. reflexivity.
Qed.

(** X12: escaped text holds no [<], [>], double quote or single quote, so
    it cannot close the attribute or the element it is written into. *)
Theorem escape_has_no_markup (s : str) :
  Forall (fun c => c <> 60 /\ c <> 62 /\ c <> 34 /\ c <> 39) (escape s).
Proof.
  rewrite Forall_forall. intros c.
  rewrite escape_flat_map, in_flat_map. intros (x & _ & Hc).
  unfold escape_char in Hc.
  destruct (Z.eqb_spec x 38); [|destruct (Z.eqb_spec x 60);
    [|destruct (Z.eqb_spec x 62); [|destruct (Z.eqb_spec x 34);
      [|destruct (Z.eqb_spec x 39)]]]].
  1-5: vm_compute in Hc;
       repeat (destruct Hc as [Hc | Hc]; [subst c; repeat split; discriminate|]);
       contradiction.
  destruct Hc as [<- | []]. repeat split; assumption.
Qed.

(** Decoding undoes the escaping of each character. *)
Lemma charref_sub_escape (html5 : str -> option str) (s : str) :
  html5 (lit "amp;") = Some (lit "&") ->
  html5 (lit "lt;") = Some (lit "<") ->
  html5 (lit "gt;") = Some (lit ">") ->
  html5 (lit "quot;") = Some [dquote] ->
  forall fuel, (List.length (flat_map escape_char s) <= fuel)%nat ->
               charref_sub html5 fuel (flat_map escape_char s) = Ok s.
Proof.
  intros Hamp Hlt Hgt Hquot.
  induction s as [|x s IH]; intros fuel Hfuel.
  - apply charref_sub_nil.
  - simpl flat_map in *. rewrite length_app in Hfuel.
    set (R := flat_map escape_char s) in *.
    unfold escape_char in *.
    destruct (Z.eqb_spec x 38) as [-> | H38];
      [|destruct (Z.eqb_spec x 60) as [-> | H60];
        [|destruct (Z.eqb_spec x 62) as [-> | H62];
          [|destruct (Z.eqb_spec x 34) as [-> | H34];
            [|destruct (Z.eqb_spec x 39) as [-> | H39]]]]].
    + destruct fuel as [|fuel]; [simpl in Hfuel; lia|].
      change (charref_sub html5 (S fuel) (lit "&amp;" ++ R))
        with (r <- replace_charref html5 (lit "amp;") ;;
              out <- charref_sub html5 fuel R ;;
              Ok (r ++ out)).
      unfold replace_charref. cbn -[lit]. rewrite Hamp.
      rewrite IH; [reflexivity | simpl in Hfuel; lia].
    + destruct fuel as [|fuel]; [simpl in Hfuel; lia|].
      change (charref_sub html5 (S fuel) (lit "&lt;" ++ R))
        with (r <- replace_charref html5 (lit "lt;") ;;
              out <- charref_sub html5 fuel R ;;
              Ok (r ++ out)).
      unfold replace_charref. cbn -[lit]. rewrite Hlt.
      rewrite IH; [reflexivity | simpl in Hfuel; lia].
    + destruct fuel as [|fuel]; [simpl in Hfuel; lia|].
      change (charref_sub html5 (S fuel) (lit "&gt;" ++ R))
        with (r <- replace_charref html5 (lit "gt;") ;;
              out <- charref_sub html5 fuel R ;;
              Ok (r ++ out)).
      unfold replace_charref. cbn -[lit]. rewrite Hgt.
      rewrite IH; [reflexivity | simpl in Hfuel; lia].
    + destruct fuel as [|fuel]; [simpl in Hfuel; lia|].
      change (charref_sub html5 (S fuel) (lit "&quot;" ++ R))
        with (r <- replace_charref html5 (lit "quot;") ;;
              out <- charref_sub html5 fuel R ;;
              Ok (r ++ out)).
      unfold replace_charref. cbn -[lit]. rewrite Hquot.
      rewrite IH; [reflexivity | simpl in Hfuel; lia].
    + destruct fuel as [|fuel]; [simpl in Hfuel; lia|].
      change (charref_sub html5 (S fuel) (lit "&#x27;" ++ R))
        with (out <- charref_sub html5 fuel R ;; Ok (39 :: out)).
      rewrite IH; [reflexivity | simpl in Hfuel; lia].
    + destruct fuel as [|fuel]; [simpl in Hfuel; lia|].
      simpl. apply Z.eqb_neq in H38. unfold amp. rewrite H38.
      rewrite IH; [reflexivity | simpl in Hfuel; lia].
Qed.

(** X13: decoding undoes escaping, whatever the text: with the entities
    [amp], [lt], [gt] and [quot] in the table, [html.unescape(html.escape(s))]
    is [s]. *)
Theorem unescape_escape (html5 : str -> option str) (s : str)
  (Hamp : html5 (lit "amp;") = Some (lit "&"))
  (Hlt : html5 (lit "lt;") = Some (lit "<"))
  (Hgt : html5 (lit "gt;") = Some (lit ">"))
  (Hquot : html5 (lit "quot;") = Some [dquote]) :
  unescape html5 (escape s) = Ok s.
Proof.
  rewrite unescape_charref_sub, escape_flat_map.
  apply charref_sub_escape; auto.
Qed.

Lemma unescape_escape_witness :
  unescape html5_xml (escape (lit "<a href='x'>Fish & chips</a> &amp;"))
  = Ok (lit "<a href='x'>Fish & chips</a> &amp;").
Proof.
  apply (unescape_escape html5_xml); reflexivity.
Defined.

Example escape_sample :
  escape (lit "<a href='x'>Fish & chips</a>")
  = lit "&lt;a href=&#x27;x&#x27;&gt;Fish &amp; chips&lt;/a&gt;".
Proof. vm_compute. reflexivity. Qed.

(** ** Source and category lists *)

Definition str_lt (a b : str) : Prop := str_ltb a b = true.

Lemma str_ltb_irrefl (a : str) : str_ltb a a = false.
Proof.
  induction a as [|x a IH]; simpl; [reflexivity|].
  rewrite Z.ltb_irrefl, Z.eqb_refl, IH. reflexivity.
Qed.

Lemma str_ltb_trans (a b c : str) :
  str_ltb a b = true -> str_ltb b c = true -> str_ltb a c = true.
Proof.
  revert b c. induction a as [|x a IH]; intros [|y b] [|z c]; simpl;
    try discriminate; try reflexivity.
  rewrite !orb_true_iff, !andb_true_iff, !Z.ltb_lt, !Z.eqb_eq.
  intros [Hxy | [Hxy Hab]] [Hyz | [Hyz Hbc]]; try (left; lia).
  right. split; [lia | exact (IH b c Hab Hbc)].
Qed.

Lemma str_eqb_refl (a : str) : str_eqb a a = true.
Proof. apply str_eqb_eq. reflexivity. Qed.

Lemma str_ltb_total (a b : str) :
  str_ltb a b = false -> str_eqb a b = false -> str_ltb b a = true.
Proof.
  revert b. induction a as [|x a IH]; intros [|y b] Hlt Hneq; simpl in *.
  - rewrite str_eqb_refl in Hneq. discriminate.
  - discriminate.
  - reflexivity.
  - rewrite orb_false_iff, andb_false_iff, Z.ltb_ge, Z.eqb_neq in Hlt.
    destruct Hlt as [Hge Hrest].
    rewrite orb_true_iff, andb_true_iff, Z.ltb_lt, Z.eqb_eq.
    destruct (Z.eq_dec x y) as [-> | Hxy]; [|left; lia].
    right. split; [reflexivity|]. apply IH.
    + destruct Hrest as [H | H]; [congruence | exact H].
    + destruct (str_eqb a b) eqn:Hab; [|reflexivity].
      apply str_eqb_eq in Hab. subst b.
      rewrite str_eqb_refl in Hneq. discriminate.
Qed.

Lemma insert_set_In (x z : str) (l : list str) :
  In z (insert_set x l) <-> z = x \/ In z l.
Proof.
  induction l as [|y l IH]; simpl.
  - split; intros [H | H]; auto.
  - destruct (str_ltb x y); [simpl; split; intros [H | H]; auto|].
    destruct (str_eqb x y) eqn:Hxy; simpl.
    + apply str_eqb_eq in Hxy. subst y. split; [auto|].
      intros [-> | H]; auto.
    + rewrite IH. split; intros [H | [H | H]]; auto.
Qed.

Lemma insert_set_sorted (x : str) (l : list str) :
  StronglySorted str_lt l -> StronglySorted str_lt (insert_set x l).
Proof.
  induction 1 as [|y l Hs IH Hy]; simpl.
  - constructor; constructor.
  - destruct (str_ltb x y) eqn:Hlt.
    + constructor; [constructor; assumption|].
      constructor; [exact Hlt|].
      rewrite Forall_forall in *. intros z Hz.
      exact (str_ltb_trans x y z Hlt (Hy z Hz)).
    + destruct (str_eqb x y) eqn:Heq; [constructor; assumption|].
      constructor; [exact IH|].
      rewrite Forall_forall in *. intros z Hz. apply insert_set_In in Hz.
      destruct Hz as [-> | Hz]; [exact (str_ltb_total x y Hlt Heq) | exact (Hy z Hz)].
Qed.

Lemma insert_set_length (x : str) (l : list str) :
  (List.length (insert_set x l) <= S (List.length l))%nat.
Proof.
  induction l as [|y l IH]; simpl; [lia|].
  destruct (str_ltb x y); [simpl; lia|].
  destruct (str_eqb x y); simpl; lia.
Qed.

Lemma sorted_set_facts (l : list str) :
  StronglySorted str_lt (sorted_set l)
  /\ (forall z, In z (sorted_set l) <-> In z l)
  /\ (List.length (sorted_set l) <= List.length l)%nat.
Proof.
  induction l as [|x l (Hs & Hin & Hlen)]; simpl.
  - split; [constructor|]. split; [reflexivity | lia].
  - split; [apply insert_set_sorted; exact Hs|]. split.
    + intros z. rewrite insert_set_In, Hin. split; intros [H | H]; auto.
    + pose proof (insert_set_length x (sorted_set l)). lia.
Qed.

Lemma sorted_NoDup (l : list str) : StronglySorted str_lt l -> NoDup l.
Proof.
  induction 1 as [|y l Hs IH Hy]; constructor; [|exact IH].
  intros Hin. rewrite Forall_forall in Hy. specialize (Hy y Hin).
  unfold str_lt in Hy. rewrite str_ltb_irrefl in Hy. discriminate.
Qed.

(** X14: the source names listed for the filter buttons are exactly the
    sources of the rendered items, each once, in ascending order, so there
    are at most as many as items; likewise the categories. *)
Theorem sources_and_categories (items : list Entry) :
  (StronglySorted str_lt (sources items)
   /\ NoDup (sources items)
   /\ (forall s, In s (sources items) <-> exists item, In item items /\ source item = s)
   /\ (List.length (sources items) <= List.length items)%nat)
  /\ (StronglySorted str_lt (categories items)
      /\ NoDup (categories items)
      /\ (forall c, In c (categories items)
                    <-> exists item, In item items /\ category item = c)
      /\ (List.length (categories items) <= List.length items)%nat).
Proof.
  unfold sources, categories. split.
  - destruct (sorted_set_facts (List.map source items)) as (Hs & Hin & Hlen).
    split; [exact Hs|]. split; [exact (sorted_NoDup _ Hs)|]. split.
    + intros s. rewrite Hin, in_map_iff. split; intros (item & H1 & H2);
        exists item; auto.
    + rewrite length_map in Hlen. exact Hlen.
  - destruct (sorted_set_facts (List.map category items)) as (Hs & Hin & Hlen).
    split; [exact Hs|]. split; [exact (sorted_NoDup _ Hs)|]. split.
    + intros c. rewrite Hin, in_map_iff. split; intros (item & H1 & H2);
        exists item; auto.
    + rewrite length_map in Hlen. exact Hlen.
Qed.

Example sources_sample :
  sources [entry_at "a" None; first_entry; entry_at "b" None]
  = [lit "Blog"; lit "Source"].
Proof. vm_compute. reflexivity. Qed.

(** ** The fetched text *)

Lemma lstrip_spaces (ws s : str) :
  forallb is_space ws = true -> lstrip (ws ++ s) = lstrip s.
Proof.
  induction ws as [|c ws IH]; simpl; [reflexivity|].
  rewrite andb_true_iff. intros [Hc Hws]. rewrite Hc. exact (IH Hws).
Qed.

Lemma read_body_bom (decode : list Z -> str) (payload : list Z) :
  read_body decode (bom ++ payload) = lstrip (decode payload).
Proof. reflexivity. Qed.

(** X15: a byte order mark in front of the response and any amount of
    whitespace in front of the document are removed before the dialect is
    looked for, so an Atom document that starts with [<feed] is recognised
    however much of them precedes it. *)
Theorem read_body_detects_atom (decode : list Z -> str) (payload : list Z)
  (ws rest : str)
  (Hbom : str_eqb (firstn 3 payload) bom = false)
  (Hdecode : decode payload = ws ++ lit "<feed" ++ rest)
  (Hws : forallb is_space ws = true) :
  read_body decode payload = lit "<feed" ++ rest
  /\ read_body decode (bom ++ payload) = lit "<feed" ++ rest
  /\ is_atom (lit "<feed" ++ rest) = true.
Proof.
  assert (Hstrip : lstrip (decode payload) = lit "<feed" ++ rest).
  { rewrite Hdecode, (lstrip_spaces ws _ Hws). reflexivity. }
  split; [|split].
  - unfold read_body. rewrite Hbom. exact Hstrip.
  - rewrite read_body_bom. exact Hstrip.
  - unfold is_atom. apply contains_prefix_iff. exists 0%nat. split.
    + exists [], rest. split; reflexivity.
    + simpl. lia.
Qed.

(** A response of 600 blanks followed by an Atom document, decoded byte by
    byte. *)
Definition padded_feed : list Z := repeat 32 600 ++ lit "<feed/>".

Lemma read_body_detects_atom_witness :
  read_body (fun raw => raw) padded_feed = lit "<feed" ++ lit "/>"
  /\ read_body (fun raw => raw) (bom ++ padded_feed) = lit "<feed" ++ lit "/>"
  /\ is_atom (lit "<feed" ++ lit "/>") = true.
Proof.
  apply (read_body_detects_atom (fun raw => raw) padded_feed (repeat 32 600) (lit "/>")).
  - reflexivity.
  - reflexivity.
  - vm_compute. reflexivity.
Defined.

Example padded_feed_undetected_as_is : is_atom padded_feed = false.
Proof. vm_compute. reflexivity. Qed.

(** ** Every Z of an Atom date *)

Lemma replace_Z_has_no_Z (s : str) :
  ~ In 90 (replace (lit "Z") (lit "+00:00") s).
Proof.
  change (lit "Z") with [90]. rewrite replace_char, in_flat_map.
  intros (x & _ & Hx). destruct (Z.eqb_spec 90 x) as [Heq | Hneq].
  - vm_compute in Hx. repeat (destruct Hx as [Hx | Hx]; [discriminate|]). exact Hx.
  - destruct Hx as [Hx | []]. congruence.
Qed.

(** X16: every [Z] of the date text of an Atom entry, not only a trailing
    one, is rewritten to [+00:00] before parsing: the ISO parser is never
    given a string with a [Z], so what it would do with one has no effect on
    the date. *)
Theorem atom_date_never_parses_Z (fromisoformat : str -> option datetime)
  (entry : ET.Element) :
  atom_date fromisoformat entry
  = atom_date (fun s => if existsb (Z.eqb 90) s then None else fromisoformat s) entry.
Proof.
  unfold atom_date.
  destruct (truthy _); [|reflexivity].
  match goal with
  | |- _ = (if existsb (Z.eqb 90) ?s then _ else _) =>
      destruct (existsb (Z.eqb 90) s) eqn:He; [|reflexivity];
      exfalso; apply existsb_exists in He; destruct He as (x & Hx & Heq);
      apply Z.eqb_eq in Heq; subst x; exact (replace_Z_has_no_Z _ Hx)
  end.
Qed.

(** ** Incomplete image markup *)

(** [sub] first occurs in [s], from index [start] on, at index [k]. *)
Definition first_from (sub s : str) (start k : nat) : Prop :=
  (start <= k)%nat /\ occurs_at sub s k
  /\ forall j, (start <= j < k)%nat -> ~ occurs_at sub s j.

Lemma find_first_from (sub s : str) (start k : nat) :
  first_from sub s start k -> Text.find sub s (Z.of_nat start) = Z.of_nat k.
Proof. intros (Hle & Hocc & Hfirst). exact (find_first sub s start k Hle Hocc Hfirst). Qed.

(** X17: the scan of [content:encoded] gives no image unless it finds all
    of [<img], a later [src=] with its opening double quote, and a closing
    double quote after it: an [<img] with no double-quoted [src=] behind it
    (a single-quoted attribute, say), or a [src=] value that is never
    closed, leaves the image empty. *)
Theorem img_src_incomplete (content : str) (k : nat)
  (Himg : first_from (lit "<img") content 0 k) :
  ((forall j, (k <= j)%nat -> ~ occurs_at (lit "src=" ++ [dquote]) content j) ->
   img_src content = lit "")
  /\ (forall m,
        first_from (lit "src=" ++ [dquote]) content k m ->
        (forall j, (m + 5 <= j)%nat -> ~ occurs_at [dquote] content j) ->
        img_src content = lit "").
Proof.
  pose proof (find_first_from _ _ _ _ Himg) as H1. simpl Z.of_nat in H1.
  split.
  - intros Hsrc. pose proof (find_none _ content k Hsrc) as H2.
    unfold img_src. cbv zeta. rewrite H1.
    destruct (Z.eqb_spec (Z.of_nat k) (-1)); [lia|]. cbn [negb].
    rewrite H2. reflexivity.
  - intros m Hsrc Hquote.
    pose proof (find_first_from _ _ _ _ Hsrc) as H2.
    pose proof (find_none [dquote] content (m + 5) Hquote) as H3.
    unfold img_src. cbv zeta. rewrite H1.
    destruct (Z.eqb_spec (Z.of_nat k) (-1)); [lia|]. cbn [negb].
    rewrite H2.
    destruct (Z.eqb_spec (Z.of_nat m) (-1)); [lia|]. cbn [negb].
    replace (Z.of_nat m + 5) with (Z.of_nat (m + 5)) by lia.
    rewrite H3. reflexivity.
Qed.

Example img_src_single_quotes :
  img_src (lit "<p><img src='http://example.org/a.png'></p>") = lit "".
Proof. vm_compute. reflexivity. Qed.

Lemma occurs_at_dec (sub s : str) (k : nat) :
  occurs_at sub s k <-> ((k <=? List.length s)%nat && startswith sub (skipn k s)) = true.
Proof.
  rewrite andb_true_iff, Nat.leb_le. split.
  - intros Hocc. pose proof (occurs_at_bound _ _ _ Hocc) as Hb.
    assert (Hk : (k <= List.length s)%nat) by lia. split; [exact Hk|].
    apply occurs_at_0. apply (occurs_at_skipn sub s k 0 Hk).
    rewrite Nat.add_0_r. exact Hocc.
  - intros [Hk Hs]. apply occurs_at_0 in Hs.
    apply (occurs_at_skipn sub s k 0 Hk) in Hs. rewrite Nat.add_0_r in Hs. exact Hs.
Qed.

Lemma img_src_incomplete_witness :
  img_src (lit "<img src='a.png'>") = lit "".
Proof.
  assert (Himg : first_from (lit "<img") (lit "<img src='a.png'>") 0 0).
  { split; [lia|]. split; [|intros j Hj; lia].
    exists [], (lit " src='a.png'>"). split; reflexivity. }
  apply (proj1 (img_src_incomplete (lit "<img src='a.png'>") 0 Himg)).
  intros j _ Hocc. apply occurs_at_dec in Hocc.
  do 18 (destruct j as [|j]; [vm_compute in Hocc; discriminate|]).
  simpl in Hocc. discriminate.
Defined.

(** ** Markup of an item *)

Example item_html_sample :
  item_html (fun _ => lit "0000ff") (lit "1h ago") first_entry
  = nl ++ tpl "        <article class=`item` data-source=`Blog` data-category=`tech`>" ++ nl
    ++ lit "            " ++ nl
    ++ tpl "            <div class=`item-content`>" ++ nl
    ++ tpl "                <div class=`item-meta`>" ++ nl
    ++ tpl "                    <span class=`item-source` style=`color: hsl(255, 40%, 45%)`>Blog</span>" ++ nl
    ++ tpl "                    <span class=`item-date`>1h ago</span>" ++ nl
    ++ lit "                </div>" ++ nl
    ++ tpl "                <h2 class=`item-title`><a href=`http://example.org/1` target=`_blank` rel=`noopener`>First</a></h2>" ++ nl
    ++ lit "                " ++ nl
    ++ lit "                " ++ nl
    ++ lit "            </div>" ++ nl
    ++ lit "        </article>".
Proof. vm_compute. reflexivity. Qed.

(** The number of occurrences of a character. *)
Definition count (c : Z) (s : str) : nat := count_occ Z.eq_dec s c.

Lemma count_app (c : Z) (a b : str) : count c (a ++ b) = (count c a + count c b)%nat.
Proof. apply count_occ_app. Qed.

Lemma count_absent (c : Z) (s : str) : ~ In c s -> count c s = 0%nat.
Proof. apply count_occ_not_In. Qed.

(** An angle bracket. *)
Definition bracket (c : Z) : Prop := c = 60 \/ c = 62.

Lemma escape_char_count (c x : Z) : bracket c -> count c (escape_char x) = 0%nat.
Proof.
  intros Hc. unfold escape_char.
  destruct (Z.eqb_spec x 38); [destruct Hc as [-> | ->]; reflexivity|].
  destruct (Z.eqb_spec x 60); [destruct Hc as [-> | ->]; reflexivity|].
  destruct (Z.eqb_spec x 62); [destruct Hc as [-> | ->]; reflexivity|].
  destruct (Z.eqb_spec x 34); [destruct Hc as [-> | ->]; reflexivity|].
  destruct (Z.eqb_spec x 39); [destruct Hc as [-> | ->]; reflexivity|].
  apply count_absent. intros [H | []]. destruct Hc; congruence.
Qed.

Lemma escape_count (c : Z) (s : str) : bracket c -> count c (escape s) = 0%nat.
Proof.
  intros Hc. rewrite escape_flat_map.
  induction s as [|x s IH]; simpl; [reflexivity|].
  rewrite count_app, IH, (escape_char_count c x Hc). reflexivity.
Qed.

Lemma escape_truthy (s : str) : truthy (escape s) = truthy s.
Proof.
  rewrite escape_flat_map. destruct s as [|x s]; [reflexivity|]. simpl.
  unfold escape_char.
  destruct (x =? 38); [reflexivity|]. destruct (x =? 60); [reflexivity|].
  destruct (x =? 62); [reflexivity|]. destruct (x =? 34); [reflexivity|].
  destruct (x =? 39); reflexivity.
Qed.

Lemma lit_cons (a : ascii) (s : string) : lit (String a s) = ord a :: lit s.
Proof. reflexivity. Qed.

Lemma count_cons_other (c x : Z) (s : str) :
  x <> c -> count c (x :: s) = count c s.
Proof. intros H. unfold count. apply count_occ_cons_neq. exact H. Qed.

Lemma uint_count (c : Z) (d : Decimal.uint) :
  bracket c -> count c (lit (NilEmpty.string_of_uint d)) = 0%nat.
Proof.
  intros Hc. induction d; cbn [NilEmpty.string_of_uint]; [reflexivity|..];
    rewrite lit_cons, count_cons_other;
    try exact IHd; destruct Hc as [-> | ->]; vm_compute; discriminate.
Qed.

Lemma str_of_int_count (c n : Z) : bracket c -> count c (str_of_int n) = 0%nat.
Proof.
  intros Hc. unfold str_of_int, NilZero.string_of_int, NilZero.string_of_uint.
  assert (Hzero : count c (lit "0") = 0%nat)
    by (destruct Hc as [-> | ->]; reflexivity).
  assert (Hd : forall d, count c (lit (match d with
                                       | Decimal.Nil => "0"%string
                                       | _ => NilEmpty.string_of_uint d
                                       end)) = 0%nat).
  { intros d. destruct d; try exact Hzero; apply (uint_count c _ Hc). }
  destruct (Z.to_int n) as [d | d]; [apply Hd|].
  rewrite lit_cons, count_cons_other; [apply Hd|].
  destruct Hc as [-> | ->]; vm_compute; discriminate.
Qed.

Lemma repeat_count (c x : Z) (k : nat) : x <> c -> count c (repeat x k) = 0%nat.
Proof.
  intros H. induction k as [|k IH]; cbn [repeat]; [reflexivity|].
  rewrite count_cons_other; assumption.
Qed.

Lemma month_abbr_count (c m : Z) : bracket c -> count c (month_abbr m) = 0%nat.
Proof.
  intros Hc. unfold month_abbr.
  destruct (Z.to_nat (m - 1)) as [|k];
    [destruct Hc as [-> | ->]; reflexivity|].
  do 11 (destruct k as [|k]; [destruct Hc as [-> | ->]; reflexivity|]).
  replace (nth _ _ _) with (@nil Z) by (destruct k; reflexivity). reflexivity.
Qed.

Lemma strftime_count (c : Z) (dt : datetime) :
  bracket c -> count c (strftime_b_d_Y dt) = 0%nat.
Proof.
  intros Hc. unfold strftime_b_d_Y, zfill.
  rewrite !count_app, (month_abbr_count c _ Hc), !(str_of_int_count c _ Hc).
  rewrite repeat_count by (destruct Hc as [-> | ->]; vm_compute; discriminate).
  destruct Hc as [-> | ->]; reflexivity.
Qed.

(** A date label holds no angle bracket. *)
Lemma label_count (c : Z) (clock : datetime) (dt : option datetime) (label : str) :
  bracket c -> format_date clock dt = Ok label -> count c label = 0%nat.
Proof.
  intros Hc. unfold format_date.
  destruct dt as [d|]; [|intros H; injection H as <-; reflexivity].
  cbv zeta. destruct (sub (now_utc clock) d) as [diff|e]; unfold bind;
    [|discriminate].
  repeat match goal with
    | |- context [if ?b then _ else _] => destruct b
    end;
    intros H; injection H as <-;
    rewrite ?count_app, ?(str_of_int_count c _ Hc), ?(strftime_count c _ Hc);
    destruct Hc as [-> | ->]; reflexivity.
Qed.

Section ItemMarkup.

Variable md5_hexdigest : str -> str.

Lemma generate_color_count (c : Z) (name : str) :
  bracket c -> count c (generate_color md5_hexdigest name) = 0%nat.
Proof.
  intros Hc. unfold generate_color. cbv zeta.
  rewrite !count_app, (str_of_int_count c _ Hc).
  destruct Hc as [-> | ->]; reflexivity.
Qed.

(** The tags of an item: 14, and those of its optional parts. *)
Definition tags_of (item : Entry) : nat :=
  14 + (if truthy (image item) then 3 else 0)
  + (if truthy (description item) then 2 else 0)
  + (if truthy (author item) then 2 else 0).

(** The markup of one item has the tags of the template and of the
    optional parts present, whatever its fields hold. *)
Lemma item_html_tags (clock : datetime) (item : Entry) (date_str : str)
  (Hlabel : format_date clock (date item) = Ok date_str) :
  count 60 (item_html md5_hexdigest date_str item) = tags_of item
  /\ count 62 (item_html md5_hexdigest date_str item) = tags_of item.
Proof.
  assert (H : forall c, bracket c ->
                count c (item_html md5_hexdigest date_str item) = tags_of item).
  { intros c Hc. unfold item_html, tags_of. cbv zeta.
    destruct (truthy (image item)), (truthy (description item)) eqn:Hd,
      (truthy (author item));
      rewrite ?escape_truthy, ?Hd; change (truthy (lit "")) with false; cbv iota;
      rewrite !count_app, ?(escape_count c _ Hc), (label_count c _ _ _ Hc Hlabel),
        (generate_color_count c _ Hc);
      destruct Hc as [-> | ->]; reflexivity. }
  split; apply H; [left | right]; reflexivity.
Qed.

Lemma date_labels_each (clock : nat -> datetime) (items : list Entry) :
  forall k labels,
    date_labels clock k items = Ok labels ->
    Forall2 (fun label item => exists c, format_date c (date item) = Ok label)
            labels items.
Proof.
  induction items as [|item items IH]; intros k labels; simpl.
  - intros H. injection H as <-. constructor.
  - destruct (format_date (clock k) (date item)) as [label|] eqn:Hlabel;
      unfold bind; [|discriminate].
    destruct (date_labels clock (S k) items) as [rest|] eqn:Hrest; [|discriminate].
    intros H. injection H as <-. constructor.
    + exists (clock k). exact Hlabel.
    + exact (IH (S k) rest Hrest).
Qed.

(** X18: text from a feed adds no tag to the page. Whenever the items are
    rendered, there is one piece of markup per item, in order, and whatever
    the title, link, description, author, image URL, source and category of
    the item hold, the piece has as many [<] and as many [>] as the template
    and the optional parts present (image, description, author) bring. *)
Theorem items_html_tags (clock : nat -> datetime) (items : list Entry)
  (pieces : list str)
  (Hrender : items_html md5_hexdigest clock items = Ok pieces) :
  Forall2 (fun piece item => count 60 piece = tags_of item
                             /\ count 62 piece = tags_of item)
          pieces items.
Proof.
  unfold items_html, generate_html in Hrender.
  destruct (date_labels clock 0 items) as [labels|] eqn:Hlabels;
    unfold bind in Hrender; [|discriminate].
  injection Hrender as <-.
  apply date_labels_each in Hlabels.
  induction Hlabels as [|label item labels items (c & Hc) _ IH]; simpl;
    constructor; [exact (item_html_tags c item label Hc) | exact IH].
Qed.

End ItemMarkup.

(** An item whose fields are full of markup. *)
Definition hostile_item : Entry :=
  mk_Entry (lit "<script>alert(1)</script>") (lit "javascript:'<>'")
           (lit "<b>bold</b> & more") (Some entry_30h) (lit "<Src>") (lit "a>b")
           (lit "<i>me</i>") (lit "x.png' onerror='<>").

Lemma items_html_tags_witness :
  exists piece,
    items_html (fun _ => lit "d41d8cd98f00b204e9800998ecf8427e")
               (fun _ => noon_15_june) [hostile_item] = Ok [piece]
    /\ count 60 piece = 21%nat /\ count 62 piece = 21%nat.
Proof.
  destruct (items_html (fun _ => lit "d41d8cd98f00b204e9800998ecf8427e")
                       (fun _ => noon_15_june) [hostile_item])
    as [pieces|] eqn:Hrender; [|vm_compute in Hrender; discriminate].
  pose proof (items_html_tags _ _ _ _ Hrender) as Htags.
  inversion Htags as [|piece item rest items' [H60 H62] Hrest]; subst.
  inversion Hrest; subst.
  exists piece. split; [reflexivity|]. split; [exact H60 | exact H62].
Defined.

(** ** Items at any depth *)

(** [c] stands somewhere below [e] in the tree. *)
Inductive below (c : ET.Element) : ET.Element -> Prop :=
| below_child (e : ET.Element) : In c (ET.children e) -> below c e
| below_deeper (d e : ET.Element) : In d (ET.children e) -> below c d -> below c e.

Fixpoint Element_rect' (P : ET.Element -> Prop)
  (step : forall t a x cs, Forall P cs -> P (ET.Elem t a x cs))
  (e : ET.Element) : P e :=
  match e with
  | ET.Elem t a x cs =>
      step t a x cs
        ((fix all (l : list ET.Element) : Forall P l :=
            match l with
            | [] => Forall_nil P
            | c :: rest => Forall_cons c (Element_rect' P step c) (all rest)
            end) cs)
  end.

Lemma descendants_children (e : ET.Element) (t : str) :
  ET.descendants e t
  = flat_map (fun c => (if str_eqb (ET.tag c) t then [c] else [])
                       ++ ET.descendants c t)
             (ET.children e).
Proof. destruct e. reflexivity. Qed.

Lemma descendants_iff (t : str) (e c : ET.Element) :
  In c (ET.descendants e t) <-> below c e /\ ET.tag c = t.
Proof.
  revert c. induction e as [t0 a x cs IH] using Element_rect'. intros c.
  rewrite descendants_children, in_flat_map. cbn [ET.children]. split.
  - intros (d & Hd & Hc). apply in_app_or in Hc. destruct Hc as [Hc | Hc].
    + destruct (str_eqb (ET.tag d) t) eqn:Htag; [|contradiction].
      destruct Hc as [<- | []]. split; [|apply str_eqb_eq; exact Htag].
      apply below_child. exact Hd.
    + rewrite Forall_forall in IH. apply (IH d Hd) in Hc. destruct Hc as [Hb Htag].
      split; [|exact Htag]. apply (below_deeper c d); [exact Hd | exact Hb].
  - intros [Hb Htag]. inversion Hb as [e' Hc | d e' Hd Hcd]; subst.
    + exists c. split; [exact Hc|]. apply in_or_app. left.
      rewrite (proj2 (str_eqb_eq _ _) eq_refl). left. reflexivity.
    + exists d. split; [exact Hd|]. apply in_or_app. right.
      rewrite Forall_forall in IH. apply (IH d Hd). split; [exact Hcd | reflexivity].
Qed.

Lemma collect_ok_turns {A : Type} (f : A -> result (option Entry))
  (nodes : list A) (entries : list Entry) :
  collect f nodes = Ok entries ->
  forall n, In n nodes -> exists r, f n = Ok r.
Proof.
  intros Hc n Hn. destruct (f n) as [r|ex] eqn:Hfn; [exists r; reflexivity|].
  destruct (collect_raises f nodes n ex Hn Hfn) as [ex' Hex]. congruence.
Qed.

Section Depth.

Variable request : Type.
Variable fromstring : str -> option ET.Element.
Variable parsedate_to_datetime : str -> result datetime.
Variable fromisoformat : str -> option datetime.
Variable html5 : str -> option str.

(** X19: the RSS normalizer reads the [item] elements at any depth below
    the root, not only those under [channel]: when it returns, its entries
    are exactly the entries of the complete [item] elements found anywhere
    in the tree. It returns exactly when the turn of every [item] element
    returns; an exception in one turn leaves the normalizer. A document
    that does not parse gives no entry. *)
Theorem parse_rss_items_at_any_depth (xml_text source_name source_category : str) :
  (forall root entries,
      fromstring xml_text = Some root ->
      parse_rss fromstring parsedate_to_datetime html5
                xml_text source_name source_category = Ok entries ->
      forall e,
        In e entries
        <-> exists item,
              below item root /\ ET.tag item = lit "item"
              /\ rss_item parsedate_to_datetime html5 item
                          source_name source_category = Ok (Some e))
  /\ (forall root,
         fromstring xml_text = Some root ->
         ((exists entries,
              parse_rss fromstring parsedate_to_datetime html5
                        xml_text source_name source_category = Ok entries)
          <-> forall item,
                below item root -> ET.tag item = lit "item" ->
                exists r, rss_item parsedate_to_datetime html5 item
                                   source_name source_category = Ok r))
  /\ (fromstring xml_text = None ->
      parse_rss fromstring parsedate_to_datetime html5
                xml_text source_name source_category = Ok []).
Proof.
  unfold parse_rss. split; [|split].
  - intros root entries -> Hc e. rewrite (collect_In _ _ _ Hc e). split.
    + intros (item & Hin & Hitem). apply descendants_iff in Hin.
      exists item. split; [apply Hin | split; [apply Hin | exact Hitem]].
    + intros (item & Hbelow & Htag & Hitem). exists item.
      split; [apply descendants_iff; split; assumption | exact Hitem].
  - intros root ->. split.
    + intros [entries Hc] item Hbelow Htag.
      apply (collect_ok_turns _ _ _ Hc item).
      apply descendants_iff. split; assumption.
    + intros Hturns. apply collect_returns. intros item Hin.
      apply descendants_iff in Hin. apply Hturns; apply Hin.
  - intros ->. reflexivity.
Qed.

Variable Request : str -> result request.
Variable urlopen_read : request -> result (list Z).
Variable decode : list Z -> str.

(** A fetch that ends in [None]: the request was built and opening or
    reading it raised one of the two exceptions [fetch_feed] catches. *)
Lemma fetch_feed_none (url : str) :
  fetch_feed Request urlopen_read decode url = Ok None
  <-> exists req,
        Request url = Ok req
        /\ (urlopen_read req = Raise URLError \/ urlopen_read req = Raise HTTPError).
Proof.
  unfold fetch_feed. destruct (Request url) as [req|ex]; simpl.
  - destruct (urlopen_read req) as [raw|[]] eqn:Hread; split;
      try discriminate; try (intros _; exists req; auto; fail);
      intros (req' & Hreq & [H | H]); injection Hreq as <-; congruence.
  - split; [discriminate | intros (req & Hreq & _); discriminate].
Qed.

(** A fetch that raises: building the request raised, or opening or reading
    it raised something else than [URLError] and [HTTPError]. *)
Lemma fetch_feed_raises (url : str) (ex : exn) :
  fetch_feed Request urlopen_read decode url = Raise ex
  <-> Request url = Raise ex
      \/ exists req,
           Request url = Ok req /\ urlopen_read req = Raise ex
           /\ ex <> URLError /\ ex <> HTTPError.
Proof.
  unfold fetch_feed. destruct (Request url) as [req|ex'] eqn:Hreq; simpl.
  - split.
    + intros H. right. exists req. split; [reflexivity|].
      destruct (urlopen_read req) as [raw|[]]; try discriminate;
        injection H as <-; repeat split; discriminate.
    + intros [H | (req' & Hreq' & Hread & Hu & Hh)]; [discriminate|].
      injection Hreq' as <-. rewrite Hread.
      destruct ex; try reflexivity; contradiction.
  - split.
    + intros H. left. injection H as <-. reflexivity.
    + intros [H | (req & Hreq' & _)]; [|discriminate].
      injection H as <-. reflexivity.
Qed.

Lemma fetch_all_skips (pre rest : list Feed) :
  (forall feed, In feed pre ->
     fetch_feed Request urlopen_read decode (feed_url feed) = Ok None) ->
  fetch_all fromstring parsedate_to_datetime fromisoformat html5
            Request urlopen_read decode (pre ++ rest)
  = fetch_all fromstring parsedate_to_datetime fromisoformat html5
              Request urlopen_read decode rest.
Proof.
  induction pre as [|feed pre IH]; intros Hnone; [reflexivity|].
  simpl. rewrite (Hnone feed (or_introl eq_refl)). simpl. apply IH.
  intros f Hf. apply Hnone. right. exact Hf.
Qed.

(** X20: when every fetch fails with [URLError] or [HTTPError], the run
    still completes, with no item to render. A fetch that fails in another
    way stops the run with its exception: [Request] refusing the URL, which
    happens before the [try], or an exception of another class while the
    response is opened and read. *)
Theorem main_without_feeds (feeds : list Feed) (clock : nat -> datetime) :
  ((forall feed, In feed feeds ->
      exists req,
        Request (feed_url feed) = Ok req
        /\ (urlopen_read req = Raise URLError
            \/ urlopen_read req = Raise HTTPError)) ->
   main fromstring parsedate_to_datetime fromisoformat html5
        Request urlopen_read decode feeds clock
   = Ok [])
  /\ (forall pre feed rest ex,
         feeds = pre ++ feed :: rest ->
         (forall f, In f pre ->
            fetch_feed Request urlopen_read decode (feed_url f) = Ok None) ->
         Request (feed_url feed) = Raise ex
         \/ (exists req,
               Request (feed_url feed) = Ok req /\ urlopen_read req = Raise ex
               /\ ex <> URLError /\ ex <> HTTPError) ->
         main fromstring parsedate_to_datetime fromisoformat html5
              Request urlopen_read decode feeds clock
         = Raise ex).
Proof.
  split.
  - intros Hnone. unfold main.
    rewrite <- (app_nil_r feeds), fetch_all_skips; [reflexivity|].
    intros feed Hfeed. apply fetch_feed_none. exact (Hnone feed Hfeed).
  - intros pre feed rest ex -> Hpre Hfeed. unfold main.
    rewrite (fetch_all_skips pre (feed :: rest) Hpre). simpl.
    rewrite (proj2 (fetch_feed_raises (feed_url feed) ex) Hfeed). reflexivity.
Qed.

End Depth.

(** An item directly below the root, as in RSS 1.0 documents. *)
Definition flat_items : ET.Element :=
  ET.Elem (lit "rss") [] None
    [ET.Elem (lit "channel") [] None [];
     ET.Elem (lit "item") [] None
       [rss_node "title" " First "; rss_node "link" "http://example.org/1"]].

Lemma parse_rss_items_at_any_depth_witness :
  In first_entry [first_entry]
  <-> exists item,
        below item flat_items /\ ET.tag item = lit "item"
        /\ rss_item (fun _ => Raise ValueError) html5_xml item
                    (lit "Blog") (lit "tech") = Ok (Some first_entry).
Proof.
  apply (proj1 (parse_rss_items_at_any_depth (fun _ => Some flat_items)
                  (fun _ => Raise ValueError) html5_xml (lit "<rss/>")
                  (lit "Blog") (lit "tech")) flat_items [first_entry] eq_refl).
  vm_compute. reflexivity.
Defined.

Lemma main_without_feeds_witness :
  main (fun _ => None) (fun _ => Raise ValueError) (fun _ => None) html5_xml
       (fun url : str => Ok url) (fun _ => Raise URLError) (fun raw => raw)
       [blog_feed] (fun _ => noon_15_june)
  = Ok [].
Proof.
  apply (proj1 (main_without_feeds str (fun _ => None) (fun _ => Raise ValueError)
                  (fun _ => None) html5_xml
                  (fun url : str => Ok url) (fun _ => Raise URLError)
                  (fun raw => raw) [blog_feed] (fun _ => noon_15_june))).
  intros feed _. exists (feed_url feed). split; [reflexivity | left; reflexivity].
Defined.

(** ** Trimmed fields *)

Lemma trimmed_nil : trimmed [].
Proof. split; intros c t H; [discriminate | destruct t; discriminate]. Qed.

Section Trimmed.

Variable fromstring : str -> option ET.Element.
Variable parsedate_to_datetime : str -> result datetime.
Variable fromisoformat : str -> option datetime.
Variable html5 : str -> option str.

Lemma prefix_head (n : nat) (s : str) (c : Z) (t : str) :
  prefix n s = c :: t -> exists t', s = c :: t'.
Proof.
  unfold prefix. destruct n, s as [|x s]; simpl; try discriminate.
  intros H. injection H as -> _. exists s. reflexivity.
Qed.

Lemma strip_html_trimmed (text out : str) :
  strip_html html5 text = Ok out -> trimmed out.
Proof.
  unfold strip_html. destruct (unescape html5 _); [|discriminate].
  intros H. injection H as <-. apply strip_trimmed.
Qed.

(** X21: the title, link and author of an entry of an RSS feed, and the
    title and author of an entry of an Atom feed, have no whitespace at
    either end, and no description starts with whitespace. *)
Theorem entry_fields_trimmed (xml_text source_name source_category : str)
  (e : Entry) :
  (forall entries,
      parse_rss fromstring parsedate_to_datetime html5
                xml_text source_name source_category = Ok entries ->
      In e entries ->
      trimmed (title e) /\ trimmed (link e) /\ trimmed (author e)
      /\ forall c t, description e = c :: t -> is_space c = false)
  /\ (forall entries,
         parse_atom fromstring fromisoformat html5
                    xml_text source_name source_category = Ok entries ->
         In e entries ->
         trimmed (title e) /\ trimmed (author e)
         /\ forall c t, description e = c :: t -> is_space c = false).
Proof.
  split.
  - unfold parse_rss. intros entries.
    destruct (fromstring xml_text);
      [|intros H; injection H as <-; contradiction].
    intros Hc Hin. apply (collect_In _ _ _ Hc) in Hin.
    destruct Hin as (item & _ & Hitem). unfold rss_item in Hitem.
    destruct (rss_date parsedate_to_datetime item) as [pub_date|ex];
      unfold bind in Hitem; [|discriminate].
    destruct (truthy _ && truthy _); [|discriminate].
    destruct (strip_html html5 _) as [stripped|ex] eqn:Hstrip; [|discriminate].
    apply strip_html_trimmed in Hstrip.
    remember (prefix 300 stripped) as desc eqn:Hdesc.
    injection Hitem as <-. cbn [title link author description].
    split; [apply strip_trimmed|]. split; [apply strip_trimmed|]. split.
    + destruct (negb _); apply strip_trimmed.
    + intros c t Hc'. rewrite Hc' in Hdesc. symmetry in Hdesc.
      apply prefix_head in Hdesc. destruct Hdesc as [t' Ht'].
      exact (proj1 Hstrip c t' Ht').
  - unfold parse_atom. intros entries.
    destruct (fromstring xml_text);
      [|intros H; injection H as <-; contradiction].
    intros Hc Hin. apply (collect_In _ _ _ Hc) in Hin.
    destruct Hin as (entry & _ & Hentry). unfold atom_entry in Hentry.
    destruct (truthy _ && truthy _); [|discriminate].
    destruct (strip_html html5 _) as [stripped|ex] eqn:Hstrip;
      unfold bind in Hentry; [|discriminate].
    apply strip_html_trimmed in Hstrip.
    remember (prefix 300 stripped) as desc eqn:Hdesc.
    injection Hentry as <-. cbn [title link author description].
    split; [apply strip_trimmed|]. split.
    + destruct (ET.find_path _ _ _) as [el|]; [|apply trimmed_nil].
      destruct (ET.text el) as [x|]; [|apply trimmed_nil].
      destruct (truthy x); [apply strip_trimmed | apply trimmed_nil].
    + intros c t Hc'. rewrite Hc' in Hdesc. symmetry in Hdesc.
      apply prefix_head in Hdesc. destruct Hdesc as [t' Ht'].
      exact (proj1 Hstrip c t' Ht').
Qed.

End Trimmed.

Lemma entry_fields_trimmed_witness :
  trimmed (title first_entry) /\ trimmed (link first_entry)
  /\ trimmed (author first_entry)
  /\ forall c t, description first_entry = c :: t -> is_space c = false.
Proof.
  apply (proj1 (entry_fields_trimmed (fun _ => Some three_items)
                  (fun _ => Raise ValueError) (fun _ => None) html5_xml
                  three_items_text (lit "Blog") (lit "tech") first_entry)
               [first_entry]).
  - vm_compute. reflexivity.
  - left. reflexivity.
Defined.

(** ** Exceptions that leave the parsers *)

Section Uncaught.

Variable fromstring : str -> option ET.Element.
Variable parsedate_to_datetime : str -> result datetime.
Variable html5 : str -> option str.


(** X25: the date of an RSS item is parsed before its title and link are
    looked at, and only [ValueError] and [TypeError] of the date parser are
    caught: they leave the date unset. Any other exception of the parser,
    such as the [OverflowError] of a year or an offset that is too large,
    leaves the turn of the loop, whatever the title and the link of the
    item, and with it the normalizer. *)
Theorem rss_date_uncaught (item : ET.Element) (name category : str) :
  let pub_date_str := strip (ET.findtext item (lit "pubDate") (lit "")) in
  (pub_date_str = [] -> rss_date parsedate_to_datetime item = Ok None)
  /\ (pub_date_str <> [] ->
      forall d, parsedate_to_datetime pub_date_str = Ok d ->
                rss_date parsedate_to_datetime item = Ok (Some d))
  /\ (pub_date_str <> [] ->
      parsedate_to_datetime pub_date_str = Raise ValueError
      \/ parsedate_to_datetime pub_date_str = Raise TypeError ->
      rss_date parsedate_to_datetime item = Ok None)
  /\ (pub_date_str <> [] ->
      forall ex,
        parsedate_to_datetime pub_date_str = Raise ex ->
        ex <> ValueError -> ex <> TypeError ->
        rss_date parsedate_to_datetime item = Raise ex
        /\ rss_item parsedate_to_datetime html5 item name category = Raise ex
        /\ forall xml_text root,
             fromstring xml_text = Some root ->
             below item root -> ET.tag item = lit "item" ->
             exists ex',
               parse_rss fromstring parsedate_to_datetime html5
                         xml_text name category = Raise ex').
Proof.
  intros pub_date_str. unfold rss_date. fold pub_date_str.
  split; [|split; [|split]].
  - intros ->. reflexivity.
  - intros Hne d Hd. apply truthy_iff in Hne. rewrite Hne, Hd. reflexivity.
  - intros Hne Hex. apply truthy_iff in Hne. rewrite Hne.
    destruct Hex as [-> | ->]; reflexivity.
  - intros Hne ex Hex Hv Ht. apply truthy_iff in Hne.
    assert (Hdate : rss_date parsedate_to_datetime item = Raise ex).
    { unfold rss_date. fold pub_date_str. rewrite Hne, Hex.
      destruct ex; try reflexivity; contradiction. }
    assert (Hitem : rss_item parsedate_to_datetime html5 item name category
                    = Raise ex).
    { unfold rss_item. rewrite Hdate. reflexivity. }
    split; [exact Hdate|]. split; [exact Hitem|].
    intros xml_text root Hroot Hbelow Htag. unfold parse_rss. rewrite Hroot.
    apply (collect_raises _ _ item ex); [|exact Hitem].
    apply descendants_iff. split; assumption.
Qed.

End Uncaught.


(** An item without title or link whose [pubDate] has a year that does not
    fit the [datetime] constructor. *)
Definition far_future_item : ET.Element :=
  ET.Elem (lit "item") [] None
    [rss_node "pubDate" "1 Jan 99999999999 00:00:00 +0000"].

Lemma rss_date_uncaught_witness :
  rss_item (fun _ => Raise OverflowError) html5_xml far_future_item
           (lit "Blog") (lit "tech")
  = Raise OverflowError.
Proof.
  destruct (rss_date_uncaught (fun _ => None) (fun _ => Raise OverflowError)
              html5_xml far_future_item (lit "Blog") (lit "tech"))
    as (_ & _ & _ & Hother).
  apply (Hother ltac:(discriminate) OverflowError eq_refl); discriminate.
Defined.
